(** * taskforge: a dependency-aware task execution engine

    A shallow embedding of [src/taskforge/task.py], [src/taskforge/scheduler.py]
    and [src/taskforge/executor.py], and the properties of the unit driver
    ([Task.execute_task]), of the scheduler ([Scheduler.schedule], the cascade
    callbacks, [Scheduler.ready_tasks], [Scheduler.__has_cycles]) and of the
    executor ([Executor.run]).

    Python objects live in a store indexed by their address; a [Task] value is
    a reference to such an object together with the attributes that never
    change after construction.  Code that mutates objects threads a [World]
    through a small state-and-exception monad.  The [trace] component of the
    world records, in order, the writes to a unit's status and result and the
    calls made to collaborators (the user's [execute], the installed hooks,
    [cancel], [notify_all]).  The generator of [ready_tasks] is a resumable
    state machine; the dispatcher thread and the workers of the thread pools
    are interleaved by a step function driven by a schedule. *)

From Stdlib Require Import List String Bool Arith ZArith Lia.
Import ListNotations.
Local Open Scope string_scope.
Local Open Scope list_scope.

(** ** Data model *)

(** [TaskStatus] (task.py, lines 9-15). *)
Inductive TaskStatus :=
| PENDING | SCHEDULED | RUNNING | FAILED | COMPLETED | CANCELED.

Definition status_eqb (a b : TaskStatus) : bool :=
  match a, b with
  | PENDING, PENDING | SCHEDULED, SCHEDULED | RUNNING, RUNNING
  | FAILED, FAILED | COMPLETED, COMPLETED | CANCELED, CANCELED => true
  | _, _ => false
  end.

(** Membership in [{COMPLETED, FAILED, CANCELED}] (scheduler.py, line 80). *)
Definition is_terminal (s : TaskStatus) : bool :=
  match s with
  | COMPLETED | FAILED | CANCELED => true
  | _ => false
  end.

(** A reference to a [Task] object: its address in the store, and the two
    attributes fixed for the object's life, [task_id] (private, no setter)
    and the string returned by its [tag()] method. *)
Record Task := mkTask {
  addr : nat;
  task_id : string;
  tag : string
}.

(** [Task.__eq__] (task.py, lines 74-78): equality is by [task_id] alone;
    [__hash__] agrees with it, so sets and dict keys compare this way. *)
Definition task_eqb (a b : Task) : bool := String.eqb (task_id a) (task_id b).

(** Messages of the two places that raise [SchedulingException]. *)
Inductive SchedulingMessage :=
| AlreadyExists (t : Task)      (* f"Task {task} already exists in the scheduler." *)
| CircularDependencies.         (* "Dependency graph contains circular dependencies" *)

Definition message_text (m : SchedulingMessage) : option string :=
  match m with
  | CircularDependencies => Some "Dependency graph contains circular dependencies"
  | AlreadyExists _ => None
  end.

(** Python exceptions.  [except Exception] catches every class but the ones
    that derive from [BaseException] directly ([KeyboardInterrupt],
    [SystemExit], [GeneratorExit]). *)
Inductive PyExc :=
| SchedulingException (m : SchedulingMessage)
| UserException (cls msg : string)       (* raised by user code, an Exception *)
| UserBaseException (cls msg : string)   (* raised by user code, not an Exception *)
| KeyError (k : Task)
| ValueError (msg : string)
| RuntimeError (msg : string).

Definition is_Exception (e : PyExc) : bool :=
  match e with
  | UserBaseException _ _ => false
  | _ => true
  end.

(** Values stored in [result]: [None], a value produced by user code, or a
    captured exception. *)
Inductive Value :=
| VNone
| VObject (repr : string)
| VExc (e : PyExc).

(** What one call of the user's [execute()] does: return or raise. *)
Inductive Outcome :=
| Returns (v : Value)
| Raises (e : PyExc).

(** A callable installed in one of the three hook slots: one of the
    scheduler's bound methods, or any other callable (a [Mock] in the tests),
    which is recorded in the trace when it is called and then returns or
    raises.  A callable is an object like any other and has a truth value:
    bound methods and functions are true, while an object whose class
    defines [__bool__] or [__len__] can be callable and false
    ([FalsyCallback]). *)
Inductive Hook :=
| SchedulerOnCompleted
| SchedulerOnFailed
| SchedulerOnCanceled
| Callback (name : string) (raises : option PyExc)
| FalsyCallback (name : string) (raises : option PyExc).

(** [bool(hook)] *)
Definition hook_truth (h : Hook) : bool :=
  match h with
  | FalsyCallback _ _ => false
  | _ => true
  end.

Inductive Slot := OnCompleted | OnFailed | OnCanceled.

(** The mutable attributes of a [Task] object (task.py, lines 24-34), and the
    behaviour of its [execute] method. *)
Record TaskObj := mkTaskObj {
  status : TaskStatus;
  dependencies : list Task;
  result : Value;
  canceled_event : bool;
  on_task_completed : option Hook;
  on_task_canceled : option Hook;
  on_task_failed : option Hook;
  execute : Outcome
}.

Inductive Event :=
| EvStatus (t : Task) (s : TaskStatus)
| EvResult (t : Task) (v : Value)
| EvExecute (t : Task)
| EvHook (s : Slot) (t : Task)
| EvCancel (t : Task)
| EvNotifyAll
| EvCallback (name : string) (t : Task).

(** A Python [dict] keyed by tasks keeps insertion order and compares keys
    with [__eq__]; a [set] of tasks is a list without two equal members. *)
Definition TaskSet := list Task.
Definition TaskDict (V : Type) := list (Task * V).

(** The store of task objects, the scheduler's two dictionaries
    (scheduler.py, lines 14-15) and the trace. *)
Record World := mkWorld {
  heap : nat -> TaskObj;
  task_to_dependencies : TaskDict TaskSet;
  task_to_dependents : TaskDict TaskSet;
  trace : list Event
}.

(** ** Sets and dictionaries of tasks *)

Definition set_mem (t : Task) (s : TaskSet) : bool := existsb (task_eqb t) s.

Definition set_add (t : Task) (s : TaskSet) : TaskSet :=
  if set_mem t s then s else s ++ [t].

(** [set(iterable)] and [frozenset(iterable)]. *)
Definition set_of (l : list Task) : TaskSet :=
  fold_left (fun s t => set_add t s) l [].

Section Dict.
Context {V : Type}.

Fixpoint dict_get (k : Task) (d : TaskDict V) : option V :=
  match d with
  | [] => None
  | (k', v) :: d' => if task_eqb k k' then Some v else dict_get k d'
  end.

(** [k in d] *)
Definition dict_contains (k : Task) (d : TaskDict V) : bool :=
  match dict_get k d with Some _ => true | None => false end.

(** [d[k] = v]: an existing key keeps its place and its key object. *)
Fixpoint dict_set (k : Task) (v : V) (d : TaskDict V) : TaskDict V :=
  match d with
  | [] => [(k, v)]
  | (k', v') :: d' =>
      if task_eqb k k' then (k', v) :: d' else (k', v') :: dict_set k v d'
  end.

Definition dict_keys (d : TaskDict V) : list Task := map fst d.
End Dict.

(** [d[k]] on a [defaultdict(set)]: a missing key is inserted with an empty
    set before it is returned. *)
Definition defaultdict_get (k : Task) (d : TaskDict TaskSet)
  : TaskSet * TaskDict TaskSet :=
  match dict_get k d with
  | Some s => (s, d)
  | None => ([], d ++ [(k, [])])
  end.

(** ** The state-and-exception monad *)

Inductive Result (A : Type) :=
| Ok (a : A) (w : World)
| Raise (e : PyExc) (w : World).
Arguments Ok {A} a w.
Arguments Raise {A} e w.

Definition M (A : Type) := World -> Result A.

Definition ret {A} (a : A) : M A := fun w => Ok a w.

Definition bind {A B} (c : M A) (k : A -> M B) : M B :=
  fun w => match c w with
           | Ok a w' => k a w'
           | Raise e w' => Raise e w'
           end.

Definition raise {A} (e : PyExc) : M A := fun w => Raise e w.

(** [try: body  except Exception as e: handler(e)] *)
Definition try_except {A} (body : M A) (handler : PyExc -> M A) : M A :=
  fun w => match body w with
           | Ok a w' => Ok a w'
           | Raise e w' => if is_Exception e then handler e w' else Raise e w'
           end.

Notation "x <- c ;; k" := (bind c (fun x => k))
  (at level 61, c at next level, right associativity).
Notation "c ;;; k" := (bind c (fun _ => k))
  (at level 61, right associativity).

Definition world_of {A} (r : Result A) : World :=
  match r with Ok _ w => w | Raise _ w => w end.

Definition raised {A} (r : Result A) : option PyExc :=
  match r with Ok _ _ => None | Raise e _ => Some e end.

(** ** Task (task.py) *)

Definition obj (w : World) (t : Task) : TaskObj := heap w (addr t).

Definition update_obj (t : Task) (f : TaskObj -> TaskObj) (w : World) : World :=
  mkWorld (fun a => if Nat.eqb a (addr t) then f (heap w a) else heap w a)
          (task_to_dependencies w) (task_to_dependents w) (trace w).

Definition emit (e : Event) (w : World) : World :=
  mkWorld (heap w) (task_to_dependencies w) (task_to_dependents w)
          (trace w ++ [e]).

Definition with_status (s : TaskStatus) (o : TaskObj) : TaskObj :=
  mkTaskObj s (dependencies o) (result o) (canceled_event o)
            (on_task_completed o) (on_task_canceled o) (on_task_failed o)
            (execute o).

Definition with_result (v : Value) (o : TaskObj) : TaskObj :=
  mkTaskObj (status o) (dependencies o) v (canceled_event o)
            (on_task_completed o) (on_task_canceled o) (on_task_failed o)
            (execute o).

Definition with_canceled (b : bool) (o : TaskObj) : TaskObj :=
  mkTaskObj (status o) (dependencies o) (result o) b
            (on_task_completed o) (on_task_canceled o) (on_task_failed o)
            (execute o).

Definition with_hook (s : Slot) (h : option Hook) (o : TaskObj) : TaskObj :=
  match s with
  | OnCompleted =>
      mkTaskObj (status o) (dependencies o) (result o) (canceled_event o)
                h (on_task_canceled o) (on_task_failed o) (execute o)
  | OnCanceled =>
      mkTaskObj (status o) (dependencies o) (result o) (canceled_event o)
                (on_task_completed o) h (on_task_failed o) (execute o)
  | OnFailed =>
      mkTaskObj (status o) (dependencies o) (result o) (canceled_event o)
                (on_task_completed o) (on_task_canceled o) h (execute o)
  end.

Definition hook_of (s : Slot) (o : TaskObj) : option Hook :=
  match s with
  | OnCompleted => on_task_completed o
  | OnCanceled => on_task_canceled o
  | OnFailed => on_task_failed o
  end.

(** [self.__task_status = s] *)
Definition set_status (t : Task) (s : TaskStatus) : M unit :=
  fun w => Ok tt (emit (EvStatus t s) (update_obj t (with_status s) w)).

(** [self.__task_result = v] *)
Definition set_result (t : Task) (v : Value) : M unit :=
  fun w => Ok tt (emit (EvResult t v) (update_obj t (with_result v) w)).

(** [Task.cancel] (lines 83-87): [self.__canceled_event.set()]. *)
Definition cancel (t : Task) : M unit :=
  fun w => Ok tt (emit (EvCancel t) (update_obj t (with_canceled true) w)).

(** [Task.mark_as_scheduled] (lines 105-106). *)
Definition mark_as_scheduled (t : Task) : M unit := set_status t SCHEDULED.

(** [register_on_task_completed], [register_on_task_failed],
    [register_on_task_canceled] (lines 108-115). *)
Definition register (s : Slot) (t : Task) (h : Hook) : M unit :=
  fun w => Ok tt (update_obj t (with_hook s (Some h)) w).

(** [self.execute()]: the call is recorded, then the method returns or
    raises. *)
Definition call_execute (t : Task) : M Value :=
  fun w => let w' := emit (EvExecute t) w in
           match execute (obj w t) with
           | Returns v => Ok v w'
           | Raises e => Raise e w'
           end.

Definition for_each {A} (l : list A) (body : A -> M unit) : M unit :=
  fold_right (fun x k => body x ;;; k) (ret tt) l.

(** ** Scheduler: the cascade callbacks (scheduler.py, lines 35-53) *)

(** [with self.__condition: self.__condition.notify_all()] *)
Definition notify_all : M unit := fun w => Ok tt (emit EvNotifyAll w).

(** [self.__task_to_dependents[task]] *)
Definition get_dependents (task : Task) : M TaskSet :=
  fun w => let (s, d) := defaultdict_get task (task_to_dependents w) in
           Ok s (mkWorld (heap w) (task_to_dependencies w) d (trace w)).

Definition scheduler_on_task_completed (task : Task) : M unit :=
  notify_all.

Definition scheduler_on_task_failed (task : Task) : M unit :=
  dependents <- get_dependents task ;;
  for_each dependents cancel ;;;
  notify_all.

Definition scheduler_on_task_canceled (task : Task) : M unit :=
  dependents <- get_dependents task ;;
  for_each dependents cancel ;;;
  notify_all.

(** ** Task.execute_task (task.py, lines 51-72) *)

Definition call_hook (h : Hook) (t : Task) : M unit :=
  match h with
  | SchedulerOnCompleted => scheduler_on_task_completed t
  | SchedulerOnFailed => scheduler_on_task_failed t
  | SchedulerOnCanceled => scheduler_on_task_canceled t
  | Callback name r
  | FalsyCallback name r =>
      fun w => let w' := emit (EvCallback name t) w in
               match r with
               | None => Ok tt w'
               | Some e => Raise e w'
               end
  end.

(** [if self.__on_task_X: self.__on_task_X(self)] (lines 58-59, 66-67 and
    71-72): the test is on the truth value of what the slot holds, so the
    hook is called when the slot holds an object that is true, and skipped
    when it holds [None] or a callable that is false. *)
Definition fire (s : Slot) (t : Task) : M unit :=
  fun w => match hook_of s (obj w t) with
           | Some h =>
               if hook_truth h then call_hook h t (emit (EvHook s t) w)
               else Ok tt w
           | None => Ok tt w
           end.

Definition is_set (t : Task) : M bool :=
  fun w => Ok (canceled_event (obj w t)) w.

Definition execute_task (self : Task) : M unit :=
  c <- is_set self ;;
  if c then
    set_status self CANCELED ;;;
    fire OnCanceled self
  else
    set_status self RUNNING ;;;
    try_except
      (v <- call_execute self ;;
       set_result self v ;;;
       set_status self COMPLETED ;;;
       fire OnCompleted self)
      (fun exception =>
         set_result self (VExc exception) ;;;
         set_status self FAILED ;;;
         fire OnFailed self).

(** ** Scheduler.schedule (scheduler.py, lines 21-33) *)

Definition is_registered (task : Task) : M bool :=
  fun w => Ok (dict_contains task (task_to_dependencies w)) w.

Definition get_dependencies (task : Task) : M (list Task) :=
  fun w => Ok (dependencies (obj w task)) w.

(** [self.__task_to_dependencies[task] = s] *)
Definition set_dependencies_entry (task : Task) (s : TaskSet) : M unit :=
  fun w => Ok tt (mkWorld (heap w) (dict_set task s (task_to_dependencies w))
                          (task_to_dependents w) (trace w)).

(** [self.__task_to_dependents[dependency].add(task)] *)
Definition add_dependent (dependency task : Task) : M unit :=
  fun w => let (s, d) := defaultdict_get dependency (task_to_dependents w) in
           Ok tt (mkWorld (heap w) (task_to_dependencies w)
                          (dict_set dependency (set_add task s) d) (trace w)).

Definition schedule (task : Task) : M unit :=
  present <- is_registered task ;;
  if present then
    raise (SchedulingException (AlreadyExists task))
  else
    register OnCompleted task SchedulerOnCompleted ;;;
    register OnFailed task SchedulerOnFailed ;;;
    register OnCanceled task SchedulerOnCanceled ;;;
    deps <- get_dependencies task ;;
    set_dependencies_entry task (set_of deps) ;;;
    for_each deps (fun dependency => add_dependent dependency task).

(** [Scheduler.__init__] (lines 12-19) on a store [h]: two empty
    dictionaries, then [schedule] for each given task. *)
Definition new_scheduler (h : nat -> TaskObj) : World := mkWorld h [] [] [].

Definition scheduler_init (h : nat -> TaskObj) (tasks : list Task) : Result unit :=
  for_each tasks schedule (new_scheduler h).

(** [Task.__init__] (task.py, lines 24-34): the object a constructor call
    creates, for a given [execute] method. *)
Definition new_task_obj (deps : list Task) (body : Outcome) : TaskObj :=
  mkTaskObj PENDING (set_of deps) VNone false None None None body.

(** ** Scheduler.__has_cycles (scheduler.py, lines 95-120) *)

(** [{task: len(dependencies) for task, dependencies in ....items()}] *)
Definition out_degree_of (deps : TaskDict TaskSet) : TaskDict Z :=
  map (fun kv => (fst kv, Z.of_nat (List.length (snd kv)))) deps.

(** [deque(task for task, degree in out_degree.items() if degree == 0)] *)
Definition initial_queue (out_degree : TaskDict Z) : list Task :=
  map fst (filter (fun kv => (snd kv =? 0)%Z) out_degree).

(** The body of the inner loop (lines 115-117):
    [out_degree[dependent] -= 1], which raises [KeyError] on a missing key,
    then [if out_degree[dependent] == 0: ready_queue.append(dependent)]. *)
Definition relax (dependent : Task) (st : TaskDict Z * list Task)
  : PyExc + (TaskDict Z * list Task) :=
  let (out_degree, ready_queue) := st in
  match dict_get dependent out_degree with
  | None => inl (KeyError dependent)
  | Some n =>
      inr (dict_set dependent (n - 1)%Z out_degree,
           if (n - 1 =? 0)%Z then ready_queue ++ [dependent] else ready_queue)
  end.

Fixpoint relax_all (dependents : list Task) (st : TaskDict Z * list Task)
  : PyExc + (TaskDict Z * list Task) :=
  match dependents with
  | [] => inr st
  | d :: rest =>
      match relax d st with
      | inl e => inl e
      | inr st' => relax_all rest st'
      end
  end.

(** The [while ready_queue] loop (lines 109-117).  [dd] is
    [self.__task_to_dependents], which the loop reads through
    [defaultdict_get].  The loop runs at most [fuel] times and the result is
    [None] when that is not enough; [has_cycles_fuel] below shows that the
    fuel [has_cycles] gives is always enough. *)
Fixpoint kahn_loop (fuel : nat) (dd : TaskDict TaskSet)
    (out_degree : TaskDict Z) (ready_queue : list Task) (processed_count : nat)
  : option ((PyExc + nat) * TaskDict TaskSet) :=
  match fuel with
  | O => None
  | S fuel' =>
      match ready_queue with
      | [] => Some (inr processed_count, dd)
      | task :: ready_queue' =>
          let (dependents, dd') := defaultdict_get task dd in
          match relax_all dependents (out_degree, ready_queue') with
          | inl e => Some (inl e, dd')
          | inr (out_degree', ready_queue'') =>
              kahn_loop fuel' dd' out_degree' ready_queue'' (S processed_count)
          end
      end
  end.

Definition has_cycles : M bool :=
  fun w =>
    let out_degree := out_degree_of (task_to_dependencies w) in
    let ready_queue := initial_queue out_degree in
    match kahn_loop (S (List.length out_degree)) (task_to_dependents w)
                    out_degree ready_queue 0 with
    | Some (inr processed_count, dd) =>
        Ok (negb (Nat.eqb processed_count (List.length (task_to_dependencies w))))
           (mkWorld (heap w) (task_to_dependencies w) dd (trace w))
    | Some (inl e, dd) =>
        Raise e (mkWorld (heap w) (task_to_dependencies w) dd (trace w))
    | None => Raise (RuntimeError "out of fuel") w
    end.

(** ** Scheduler.ready_tasks (scheduler.py, lines 55-93) *)

(** Where the generator is suspended: not started yet, at the [yield] with
    the rest of [ready_tasks] still to go, inside [self.__condition.wait()],
    or finished. *)
Inductive Generator :=
| GNew
| GYielded (rest : list Task)
| GWaiting
| GDone.

(** What a [next()] on the generator produces. [Blocks] stands for the call
    not returning: the thread sleeps in [wait()] until a [notify_all]. *)
Inductive Produced :=
| Yield (t : Task)
| StopIteration
| Blocks
| Throws (e : PyExc).

(** [any(task.status == TaskStatus.PENDING for task in ....keys())] *)
Definition has_pending_tasks (w : World) : bool :=
  existsb (fun task => status_eqb (status (obj w task)) PENDING)
          (dict_keys (task_to_dependencies w)).

(** [all(dependency.status in {COMPLETED, FAILED, CANCELED} for ...)] *)
Definition all_dependencies_completed (w : World) (deps : TaskSet) : bool :=
  forallb (fun dependency => is_terminal (status (obj w dependency))) deps.

(** The scan of lines 73-85: the list [ready_tasks]. *)
Definition collect_ready (w : World) : list Task :=
  map fst
    (filter (fun kv => status_eqb (status (obj w (fst kv))) PENDING
                       && all_dependencies_completed w (snd kv))
            (task_to_dependencies w)).

(** One pass from the head of the [while True] loop to the next suspension
    (lines 66-93). *)
Definition loop_head (w : World) : Produced * Generator * World :=
  if negb (has_pending_tasks w) then (StopIteration, GDone, w)
  else match collect_ready w with
       | [] => (Blocks, GWaiting, w)
       | task :: rest =>
           (Yield task, GYielded rest, world_of (mark_as_scheduled task w))
       end.

(** [next(g)], or the wake-up of a generator blocked in [wait()]. *)
Definition resume (g : Generator) (w : World) : Produced * Generator * World :=
  match g with
  | GNew =>
      match has_cycles w with
      | Ok true w' =>
          (Throws (SchedulingException CircularDependencies), GDone, w')
      | Ok false w' => loop_head w'
      | Raise e w' => (Throws e, GDone, w')
      end
  | GYielded (task :: rest) =>
      (Yield task, GYielded rest, world_of (mark_as_scheduled task w))
  | GYielded [] => loop_head w
  | GWaiting => loop_head w
  | GDone => (StopIteration, GDone, w)
  end.

(** The property [ready_tasks] makes a new generator at each access. *)
Definition ready_tasks : Generator := GNew.

(** The single-threaded consumer of the tests
    ([for task in scheduler.ready_tasks: task.execute_task()]), for at most
    [fuel] calls of [next]. The result is the list of yielded tasks, how the
    loop ended ([None] when the fuel ran out first) and the final world. *)
Fixpoint drive (fuel : nat) (g : Generator) (w : World) (seen : list Task)
  : list Task * option Produced * World :=
  match fuel with
  | O => (seen, None, w)
  | S fuel' =>
      match resume g w with
      | (Yield task, g', w') =>
          match execute_task task w' with
          | Ok _ w'' => drive fuel' g' w'' (seen ++ [task])
          | Raise e w'' => (seen ++ [task], Some (Throws e), w'')
          end
      | (p, _, w') => (seen, Some p, w')
      end
  end.

(** ** Executor (executor.py) *)

(** A [concurrent.futures.ThreadPoolExecutor] as the executor uses it: the
    two constructor arguments, the callables submitted so far (each is the
    [execute_task] of the recorded task) and the [wait] argument of every
    [shutdown] call received. *)
Record ThreadPoolExecutor := mkPool {
  max_workers : Z;
  thread_name_prefix : string;
  submitted : list Task;
  shutdown_calls : list bool
}.

(** [ThreadPoolExecutor(max_workers=n, thread_name_prefix=p)] raises
    [ValueError] unless [n] is positive. *)
Definition new_thread_pool (n : Z) (p : string) : PyExc + ThreadPoolExecutor :=
  if (n <=? 0)%Z then inl (ValueError "max_workers must be greater than 0")
  else inr (mkPool n p [] []).

(** [pool.submit(fn)] raises [RuntimeError] once the pool is shut down. *)
Definition pool_submit (task : Task) (p : ThreadPoolExecutor)
  : PyExc + ThreadPoolExecutor :=
  match shutdown_calls p with
  | [] => inr (mkPool (max_workers p) (thread_name_prefix p)
                      (submitted p ++ [task]) [])
  | _ :: _ => inl (RuntimeError "cannot schedule new futures after shutdown")
  end.

(** [pool.shutdown(wait=b)] *)
Definition pool_shutdown (b : bool) (p : ThreadPoolExecutor) : ThreadPoolExecutor :=
  mkPool (max_workers p) (thread_name_prefix p) (submitted p)
         (shutdown_calls p ++ [b]).

Definition PoolDict := list (string * ThreadPoolExecutor).

Fixpoint pools_get (tg : string) (d : PoolDict) : option ThreadPoolExecutor :=
  match d with
  | [] => None
  | (k, p) :: d' => if String.eqb tg k then Some p else pools_get tg d'
  end.

Fixpoint pools_set (tg : string) (p : ThreadPoolExecutor) (d : PoolDict) : PoolDict :=
  match d with
  | [] => [(tg, p)]
  | (k, q) :: d' =>
      if String.eqb tg k then (k, p) :: d' else (k, q) :: pools_set tg p d'
  end.

(** [Executor.__init__] (lines 9-13); the scheduler it refers to is the one
    of the world. *)
Record Executor := mkExecutor {
  workers_per_tag : Z;
  tag_to_thread_pool : PoolDict
}.

Definition new_executor (n : Z) : Executor := mkExecutor n [].

(** [Executor.__ensure_thread_pool] (lines 15-19): the pool of the tag,
    created and stored first when the tag has none. *)
Definition ensure_thread_pool (tg : string) (ex : Executor)
  : PyExc + (ThreadPoolExecutor * Executor) :=
  match pools_get tg (tag_to_thread_pool ex) with
  | Some p => inr (p, ex)
  | None =>
      match new_thread_pool (workers_per_tag ex) tg with
      | inl e => inl e
      | inr p => inr (p, mkExecutor (workers_per_tag ex)
                                    (pools_set tg p (tag_to_thread_pool ex)))
      end
  end.

(** The body of the loop of [run] (lines 25-26):
    [thread_pool = self.__ensure_thread_pool(task.tag())] and
    [thread_pool.submit(task.execute_task)]; the pool object changed by
    [submit] is the one stored under the tag. *)
Definition dispatch (task : Task) (ex : Executor) : Executor * option PyExc :=
  match ensure_thread_pool (tag task) ex with
  | inl e => (ex, Some e)
  | inr (thread_pool, ex') =>
      match pool_submit task thread_pool with
      | inl e => (ex', Some e)
      | inr thread_pool' =>
          (mkExecutor (workers_per_tag ex')
                      (pools_set (tag task) thread_pool'
                                 (tag_to_thread_pool ex')),
           None)
      end
  end.

(** [Executor.shutdown] (lines 31-33). *)
Definition shutdown (wait : bool) (ex : Executor) : Executor :=
  mkExecutor (workers_per_tag ex)
             (map (fun kp => (fst kp, pool_shutdown wait (snd kp)))
                  (tag_to_thread_pool ex)).

(** The [for] loop of [run] over what the readiness iterator produces: the
    units [yielded], in order, and then [ending]: [None] when the iterator
    terminated, [Some e] when it raised [e]. *)
Fixpoint run_loop (yielded : list Task) (ending : option PyExc) (ex : Executor)
  : Executor * option PyExc :=
  match yielded with
  | [] => (ex, ending)
  | task :: rest =>
      match dispatch task ex with
      | (ex', None) => run_loop rest ending ex'
      | (ex', Some e) => (ex', Some e)
      end
  end.

(** [Executor.run] (lines 22-28): the loop inside [try], [self.shutdown()]
    in [finally]. *)
Definition run (yielded : list Task) (ending : option PyExc) (ex : Executor)
  : Executor * option PyExc :=
  let (ex', err) := run_loop yielded ending ex in
  (shutdown true ex', err).

(** ** Threads: the dispatcher and the pool workers

    [Executor.run] runs on the dispatcher thread; every submitted
    [execute_task] runs on a worker thread of its pool.  The machine below
    interleaves them.  One step of a worker is one statement of
    [execute_task] or of the scheduler callback it is in; one step of the
    dispatcher is one [next] on the generator, one pass through the loop body
    of [run], or one action of [shutdown]. *)

(** Where a worker is inside [Task.execute_task]. *)
Inductive Pc :=
| AtEntry                         (* line 56: test of the cancel flag *)
| AtExecute                       (* line 64 *)
| AtSetCompleted                  (* line 65 *)
| AtExcept (e : PyExc)            (* line 69 *)
| AtSetFailed                     (* line 70 *)
| AtFire (s : Slot)               (* lines 58, 66, 71 *)
| InCancelLoop (rest : list Task) (* scheduler.py lines 41-42, 49-50 *)
| AtNotify                        (* scheduler.py lines 36, 44, 52 *)
| Finished (e : option PyExc).

(** One statement of the worker running [self.execute_task()].
    [lock_free] tells whether [with self.__condition] can be entered; the
    result is [None] when the worker cannot move. *)
Definition worker_step (lock_free : bool) (self : Task) (pc : Pc) (w : World)
  : option (Pc * World) :=
  match pc with
  | AtEntry =>
      if canceled_event (obj w self)
      then Some (AtFire OnCanceled, world_of (set_status self CANCELED w))
      else Some (AtExecute, world_of (set_status self RUNNING w))
  | AtExecute =>
      match call_execute self w with
      | Ok v w' => Some (AtSetCompleted, world_of (set_result self v w'))
      | Raise e w' =>
          if is_Exception e then Some (AtExcept e, w')
          else Some (Finished (Some e), w')
      end
  | AtSetCompleted =>
      Some (AtFire OnCompleted, world_of (set_status self COMPLETED w))
  | AtExcept e =>
      Some (AtSetFailed, world_of (set_result self (VExc e) w))
  | AtSetFailed =>
      Some (AtFire OnFailed, world_of (set_status self FAILED w))
  | AtFire s =>
      match hook_of s (obj w self) with
      | None => Some (Finished None, w)
      | Some SchedulerOnCompleted => Some (AtNotify, emit (EvHook s self) w)
      | Some SchedulerOnFailed
      | Some SchedulerOnCanceled =>
          match get_dependents self (emit (EvHook s self) w) with
          | Ok dependents w' => Some (InCancelLoop dependents, w')
          | Raise e w' => Some (Finished (Some e), w')
          end
      | Some (Callback name r) =>
          let w' := emit (EvCallback name self) (emit (EvHook s self) w) in
          match r, s with
          | None, _ => Some (Finished None, w')
          | Some e, OnCompleted =>
              if is_Exception e then Some (AtExcept e, w')
              else Some (Finished (Some e), w')
          | Some e, _ => Some (Finished (Some e), w')
          end
      | Some (FalsyCallback _ _) => Some (Finished None, w)
      end
  | InCancelLoop (dependent :: rest) =>
      Some (InCancelLoop rest, world_of (cancel dependent w))
  | InCancelLoop [] => Some (AtNotify, w)
  | AtNotify =>
      if lock_free then Some (Finished None, world_of (notify_all w))
      else None
  | Finished _ => None
  end.

(** A worker alone, for at most [fuel] statements. *)
Fixpoint worker_run (fuel : nat) (self : Task) (pc : Pc) (w : World)
  : Pc * World :=
  match fuel with
  | O => (pc, w)
  | S fuel' =>
      match worker_step true self pc w with
      | Some (pc', w') => worker_run fuel' self pc' w'
      | None => (pc, w)
      end
  end.

(** Where the dispatcher is inside [Executor.run]. *)
Inductive DispatcherPc :=
| DNext                                         (* line 24: next(generator) *)
| DSubmit (task : Task)                         (* lines 25-26 *)
| DShutdown (err : option PyExc) (tags : list string)  (* line 33 *)
| DJoin (err : option PyExc) (tg : string) (tags : list string)
| DReturned (err : option PyExc).

Record Worker := mkWorker {
  worker_tag : string;
  worker_task : Task;
  worker_pc : Pc
}.

Record System := mkSystem {
  world : World;
  generator : Generator;
  notified : bool;
  dispatcher : DispatcherPc;
  executor : Executor;
  workers : list Worker
}.

Definition is_finished (pc : Pc) : bool :=
  match pc with Finished _ => true | _ => false end.

Definition started_of (tg : string) (ws : list Worker) : list Worker :=
  filter (fun k => String.eqb (worker_tag k) tg) ws.

Definition busy_of (tg : string) (ws : list Worker) : list Worker :=
  filter (fun k => negb (is_finished (worker_pc k))) (started_of tg ws).

(** [shutdown(wait=True)] returns once the pool has no work left. *)
Definition pool_idle (tg : string) (s : System) : bool :=
  match pools_get tg (tag_to_thread_pool (executor s)) with
  | None => true
  | Some p =>
      Nat.eqb (List.length (started_of tg (workers s)))
              (List.length (submitted p))
      && Nat.eqb (List.length (busy_of tg (workers s))) 0
  end.

(** The generator keeps the lock of [self.__condition] while it is suspended
    at a [yield]; it gives it up inside [wait()] and when it ends. *)
Definition lock_is_free (g : Generator) : bool :=
  match g with GYielded _ => false | _ => true end.

Definition dispatcher_step (s : System) : option System :=
  match dispatcher s with
  | DNext =>
      if match generator s with GWaiting => notified s | _ => true end then
        match resume (generator s) (world s) with
        | (Yield task, g, w) =>
            Some (mkSystem w g false (DSubmit task) (executor s) (workers s))
        | (Blocks, g, w) =>
            Some (mkSystem w g false DNext (executor s) (workers s))
        | (StopIteration, g, w) =>
            Some (mkSystem w g false
                    (DShutdown None (map fst (tag_to_thread_pool (executor s))))
                    (executor s) (workers s))
        | (Throws e, g, w) =>
            Some (mkSystem w g false
                    (DShutdown (Some e) (map fst (tag_to_thread_pool (executor s))))
                    (executor s) (workers s))
        end
      else None
  | DSubmit task =>
      match dispatch task (executor s) with
      | (ex, None) =>
          Some (mkSystem (world s) (generator s) (notified s) DNext ex (workers s))
      | (ex, Some e) =>
          Some (mkSystem (world s) (generator s) (notified s)
                  (DShutdown (Some e) (map fst (tag_to_thread_pool ex)))
                  ex (workers s))
      end
  | DShutdown err [] =>
      Some (mkSystem (world s) (generator s) (notified s) (DReturned err)
              (executor s) (workers s))
  | DShutdown err (tg :: tags) =>
      match pools_get tg (tag_to_thread_pool (executor s)) with
      | None => None
      | Some p =>
          Some (mkSystem (world s) (generator s) (notified s) (DJoin err tg tags)
                  (mkExecutor (workers_per_tag (executor s))
                     (pools_set tg (pool_shutdown true p)
                                (tag_to_thread_pool (executor s))))
                  (workers s))
      end
  | DJoin err tg tags =>
      if pool_idle tg s then
        Some (mkSystem (world s) (generator s) (notified s) (DShutdown err tags)
                (executor s) (workers s))
      else None
  | DReturned _ => None
  end.

(** A pool thread takes the next submitted callable, when fewer than
    [max_workers] of the pool's threads are busy. *)
Definition start_worker (tg : string) (s : System) : option System :=
  match pools_get tg (tag_to_thread_pool (executor s)) with
  | None => None
  | Some p =>
      if (Z.of_nat (List.length (busy_of tg (workers s))) <? max_workers p)%Z then
        match nth_error (submitted p) (List.length (started_of tg (workers s))) with
        | Some task =>
            Some (mkSystem (world s) (generator s) (notified s) (dispatcher s)
                    (executor s) (workers s ++ [mkWorker tg task AtEntry]))
        | None => None
        end
      else None
  end.

Fixpoint set_nth {A} (i : nat) (x : A) (l : list A) : list A :=
  match l, i with
  | [], _ => []
  | _ :: l', O => x :: l'
  | y :: l', S i' => y :: set_nth i' x l'
  end.

Definition is_notify (pc : Pc) : bool :=
  match pc with AtNotify => true | _ => false end.

(** Worker number [i] executes its next statement. A [notify_all] wakes the
    generator when it is waiting. *)
Definition advance_worker (i : nat) (s : System) : option System :=
  match nth_error (workers s) i with
  | None => None
  | Some k =>
      match worker_step (lock_is_free (generator s)) (worker_task k)
                        (worker_pc k) (world s) with
      | None => None
      | Some (pc, w) =>
          Some (mkSystem w (generator s)
                  (if is_notify (worker_pc k)
                   then match generator s with GWaiting => true | _ => notified s end
                   else notified s)
                  (dispatcher s) (executor s)
                  (set_nth i (mkWorker (worker_tag k) (worker_task k) pc)
                           (workers s)))
      end
  end.

Inductive Choice :=
| Dispatcher
| StartWorker (tg : string)
| AdvanceWorker (i : nat).

Definition system_step (c : Choice) (s : System) : option System :=
  match c with
  | Dispatcher => dispatcher_step s
  | StartWorker tg => start_worker tg s
  | AdvanceWorker i => advance_worker i s
  end.

(** The system after the threads have moved in the order [cs]; [None] when
    some thread of [cs] could not move at its turn. *)
Fixpoint system_run (cs : list Choice) (s : System) : option System :=
  match cs with
  | [] => Some s
  | c :: cs' =>
      match system_step c s with
      | Some s' => system_run cs' s'
      | None => None
      end
  end.

(** [Executor(scheduler, workers_per_tag=n).run()] about to start. *)
Definition system_init (w : World) (n : Z) : System :=
  mkSystem w ready_tasks false DNext (new_executor n) [].

(** ** Vocabulary of the properties *)

(** The set [d[k]] of a [defaultdict(set)], without the insertion. *)
Definition bucket (k : Task) (d : TaskDict TaskSet) : TaskSet :=
  match dict_get k d with Some s => s | None => [] end.

(** [dependents[u]] and [deps[u]] in a world. *)
Definition dependents_of (w : World) (u : Task) : TaskSet :=
  bucket u (task_to_dependents w).

Definition deps_of (w : World) (u : Task) : TaskSet :=
  bucket u (task_to_dependencies w).

(** [for_each ds cancel] as a fold on the world. *)
Definition cancel_all (ds : list Task) (w : World) : World :=
  fold_left (fun w d => world_of (cancel d w)) ds w.

(** Two states of an object that differ at most by a cancel flag that was
    raised. *)
Definition same_but_flag (o o' : TaskObj) : Prop :=
  status o' = status o /\ dependencies o' = dependencies o /\
  result o' = result o /\ execute o' = execute o /\
  on_task_completed o' = on_task_completed o /\
  on_task_canceled o' = on_task_canceled o /\
  on_task_failed o' = on_task_failed o /\
  (canceled_event o = true -> canceled_event o' = true).

(** The events a hook can add to the trace: cancel requests, the broadcast,
    the record of a user callback. *)
Definition is_cascade_event (e : Event) : bool :=
  match e with
  | EvCancel _ | EvNotifyAll | EvCallback _ _ => true
  | _ => false
  end.

(** The exception the guarded call of a hook slot ends with, if any: the
    scheduler's callbacks never raise, and a callable that is false is not
    called. *)
Definition hook_raises (h : option Hook) : option PyExc :=
  match h with
  | Some (Callback _ (Some e)) => Some e
  | _ => None
  end.

(** The test [if self.__on_task_X:] on what a hook slot holds. *)
Definition passes_truth_test (h : option Hook) : bool :=
  match h with
  | Some h => hook_truth h
  | None => false
  end.

(** The event of calling the hook of a slot: there is one exactly when the
    slot passes the truth test. *)
Definition hook_call (s : Slot) (t : Task) (w : World) : list Event :=
  if passes_truth_test (hook_of s (obj w t)) then [EvHook s t] else [].

(** [for dependency in deps: dependents[dependency].add(task)] as a fold on
    the world. *)
Definition add_dependents (deps : list Task) (task : Task) (w : World) : World :=
  fold_left (fun w d => world_of (add_dependent d task w)) deps w.

(** The unit is a key of [deps], under [__eq__]. *)
Definition registered (w : World) (t : Task) : Prop :=
  exists k, In k (dict_keys (task_to_dependencies w)) /\ task_id k = task_id t.

(** Every unit but [self] is left as it was, except for cancel flags that
    were raised, and so is [deps]. *)
Definition same_others (self : Task) (w w' : World) : Prop :=
  (forall x, addr x <> addr self -> same_but_flag (obj w x) (obj w' x)) /\
  task_to_dependencies w' = task_to_dependencies w.

(** ** The dependency graph *)

Definition ids (l : list Task) : list string := map task_id l.

Fixpoint distinct_ids (l : list Task) : bool :=
  match l with
  | [] => true
  | x :: l' => negb (set_mem x l') && distinct_ids l'
  end.

(** What [schedule] maintains of the two dictionaries: no unit is registered
    twice, the sets have no two equal members, only registered units are
    dependents, and [d] is in [dependents[p]] exactly when [p] is in
    [deps[d]]. *)
Record graph_ok (w : World) : Prop := mkGraphOk {
  keys_distinct : NoDup (ids (dict_keys (task_to_dependencies w)));
  deps_distinct : forall d, NoDup (ids (deps_of w d));
  dependents_distinct : forall p, NoDup (ids (dependents_of w p));
  dependents_registered :
    forall p d, set_mem d (dependents_of w p) = true ->
                dict_contains d (task_to_dependencies w) = true;
  edges_agree :
    forall p d, dict_contains d (task_to_dependencies w) = true ->
                set_mem d (dependents_of w p) = set_mem p (deps_of w d)
}.

(** The same, as a check that computes. *)
Definition graph_okb (w : World) : bool :=
  distinct_ids (dict_keys (task_to_dependencies w))
  && forallb (fun kv =>
                distinct_ids (snd kv)
                && forallb (fun p => set_mem (fst kv) (dependents_of w p))
                           (snd kv))
             (task_to_dependencies w)
  && forallb (fun kv =>
                distinct_ids (snd kv)
                && forallb (fun d =>
                              dict_contains d (task_to_dependencies w)
                              && set_mem (fst kv) (deps_of w d))
                           (snd kv))
             (task_to_dependents w).

(** [l] is a chain in which each unit has the next one as a prerequisite. *)
Fixpoint is_path (w : World) (l : list Task) : bool :=
  match l with
  | a :: (b :: _) as l' => set_mem b (deps_of w a) && is_path w l'
  | _ => true
  end.

(** [c] is a dependency cycle: a chain that closes on its first unit. *)
Definition is_cycle (w : World) (c : list Task) : bool :=
  match c with
  | [] => false
  | a :: _ => is_path w (c ++ [a])
  end.

(** A set of registered units, each with a prerequisite that is either not
    registered or in the set: Kahn's algorithm never processes any. *)
Definition stuck_in (w : World) (U : list Task) (s : Task) : Prop :=
  dict_contains s (task_to_dependencies w) = true /\
  exists r, In r (deps_of w s) /\
            (dict_contains r (task_to_dependencies w) = false
             \/ set_mem r U = true).

(** The number of entries of [out_degree] that are at least one. *)
Definition count_positive (out_degree : TaskDict Z) : nat :=
  List.length (filter (fun kv => (1 <=? snd kv)%Z) out_degree).

(** The prerequisites of [d] that are not in [done], counted. *)
Definition remaining (w : World) (done : list Task) (d : Task) : Z :=
  Z.of_nat (List.length (filter (fun x => negb (set_mem x done)) (deps_of w d))).

(** The decrement of line 115 brings the count of [d] to zero. *)
Definition hits_zero (od : TaskDict Z) (d : Task) : bool :=
  match dict_get d od with
  | Some n => (n - 1 =? 0)%Z
  | None => false
  end.

(** The invariant of the [while] loop of [has_cycles], in a world [w] with a
    stuck set [U]: [done] are the units processed so far, [q] is the queue
    and [od] the dictionary [out_degree]. *)
Record kahn_inv (w : World) (U done : list Task) (od : TaskDict Z)
    (q : list Task) : Prop := mkKahnInv {
  inv_distinct : NoDup (ids (done ++ q));
  inv_registered :
    forall t, In t (done ++ q) ->
              dict_contains t (task_to_dependencies w) = true;
  inv_keys : dict_keys od = dict_keys (task_to_dependencies w);
  inv_degree :
    forall d, dict_contains d (task_to_dependencies w) = true ->
              dict_get d od = Some (remaining w done d);
  inv_zero : forall t, In t (done ++ q) -> remaining w done t = 0%Z;
  inv_stuck : forall s, In s U -> set_mem s (done ++ q) = false
}.

(** The text of the exception mentions circular dependencies. *)
Definition mentions_circular (e : PyExc) : bool :=
  match e with
  | SchedulingException m =>
      match message_text m with
      | Some text =>
          match String.index 0 "circular dependencies" text with
          | Some _ => true
          | None => false
          end
      | None => false
      end
  | _ => false
  end.

(** ** Readiness *)

(** A registered unit that is [PENDING] with every prerequisite terminal. *)
Definition ready (w : World) (t : Task) : Prop :=
  exists ds, In (t, ds) (task_to_dependencies w) /\
             status (obj w t) = PENDING /\
             forall d, In d ds -> is_terminal (status (obj w d)) = true.

(** No registered unit is [PENDING]. *)
Definition no_pending (w : World) : Prop :=
  forall t, In t (dict_keys (task_to_dependencies w)) ->
            status (obj w t) <> PENDING.

(** The registered units are distinct objects. *)
Definition distinct_objects (w : World) : Prop :=
  NoDup (map addr (dict_keys (task_to_dependencies w))).

(** The units a suspended generator still has to yield from its last scan
    are distinct and ready. *)
Definition batch_ready (w : World) (g : Generator) : Prop :=
  match g with
  | GYielded rest => NoDup (map addr rest) /\ Forall (ready w) rest
  | _ => True
  end.

(** [w'] is [w] but for the scheduler's cache of empty dependents sets. *)
Definition same_units (w w' : World) : Prop :=
  heap w' = heap w /\
  task_to_dependencies w' = task_to_dependencies w /\
  trace w' = trace w.

(** ** Executor *)

(** The units of [l] whose tag is [tg], in order. *)
Definition with_tag (tg : string) (l : list Task) : list Task :=
  filter (fun t => String.eqb (tag t) tg) l.

(** The pools of an executor that has dispatched [done] and was not shut
    down: one pool for each tag met, of size [n], named by the tag, holding
    the units of that tag. *)
Definition pools_for (n : Z) (done : list Task) (ex : Executor) : Prop :=
  workers_per_tag ex = n /\
  NoDup (map fst (tag_to_thread_pool ex)) /\
  forall tg,
    match pools_get tg (tag_to_thread_pool ex) with
    | Some p =>
        max_workers p = n /\ thread_name_prefix p = tg /\
        shutdown_calls p = [] /\
        submitted p = with_tag tg done /\ submitted p <> []
    | None => with_tag tg done = []
    end.

(** ** Example worlds *)

Definition unit_a : Task := mkTask 0 "a" "default".
Definition unit_b : Task := mkTask 1 "b" "default".
Definition unit_c : Task := mkTask 2 "c" "default".

Definition value_1 : Value := VObject "{'key1': 'value1', 'key2': 'value2'}".
Definition failure_1 : PyExc := UserException "Exception" "Failed".

(** One object for every address, with the scheduler's callbacks installed. *)
Definition scheduled_obj (flag : bool) (body : Outcome) : TaskObj :=
  mkTaskObj PENDING [] VNone flag (Some SchedulerOnCompleted)
            (Some SchedulerOnCanceled) (Some SchedulerOnFailed) body.

Definition world_of_obj (o : TaskObj) : World :=
  mkWorld (fun _ => o) [(unit_a, [])] [] [].

(** A unit whose canceled hook is a callable that raises. *)
Definition raising_hook_obj : TaskObj :=
  mkTaskObj PENDING [] VNone true None
            (Some (Callback "on_canceled" (Some failure_1))) None
            (Returns value_1).

(** Two units registered, the second with the first as prerequisite. *)
Definition chain_heap (first : Outcome) : nat -> TaskObj :=
  fun a => match a with
           | 0 => new_task_obj [] first
           | 1 => new_task_obj [unit_a] (Returns value_1)
           | _ => new_task_obj [unit_b] (Returns value_1)
           end.

Definition chain_world (first : Outcome) : World :=
  world_of (scheduler_init (chain_heap first) [unit_a; unit_b]).

(** Three units registered after the first was made to depend on the last
    (tests/test_scheduler.py, [test_cycle_detection_simple]). *)
Definition cycle_heap : nat -> TaskObj :=
  fun a => match a with
           | 0 => new_task_obj [unit_c] (Returns value_1)
           | 1 => new_task_obj [unit_a] (Returns value_1)
           | _ => new_task_obj [unit_b] (Returns value_1)
           end.

Definition cycle_world : World :=
  world_of (scheduler_init cycle_heap [unit_a; unit_b; unit_c]).

(** A unit registered without its prerequisite. *)
Definition dangling_world : World :=
  world_of (scheduler_init (chain_heap (Returns value_1)) [unit_b]).

(** A unit whose [execute] raises an exception that is not an [Exception]. *)
Definition interrupted_obj : TaskObj :=
  scheduled_obj false (Raises (UserBaseException "KeyboardInterrupt" "")).

(** The seven units of the failure tests of tests/test_scheduler.py:
    1 and 2 have no prerequisite, 3 depends on both, 4 on 3, and 5, 6, 7
    on 4. *)
Definition unit_n (n : nat) (id : string) : Task := mkTask n id "default".
Definition unit_1 := unit_n 1 "task1".
Definition unit_2 := unit_n 2 "task2".
Definition unit_3 := unit_n 3 "task3".
Definition unit_4 := unit_n 4 "task4".
Definition unit_5 := unit_n 5 "task5".
Definition unit_6 := unit_n 6 "task6".
Definition unit_7 := unit_n 7 "task7".

Definition seven_units : list Task :=
  [unit_1; unit_2; unit_3; unit_4; unit_5; unit_6; unit_7].

(** The store of the seven units when [execute] of unit number [failing]
    raises. *)
Definition seven_heap (failing : nat) : nat -> TaskObj :=
  fun a =>
    new_task_obj
      match a with
      | 3 => [unit_1; unit_2]
      | 4 => [unit_3]
      | 5 | 6 | 7 => [unit_4]
      | _ => []
      end
      (if Nat.eqb a failing then Raises failure_1 else Returns value_1).

Definition seven_world (failing : nat) : World :=
  world_of (scheduler_init (seven_heap failing) seven_units).

Definition statuses (w : World) (l : list Task) : list TaskStatus :=
  map (fun t => status (obj w t)) l.

(** A unit on which three callables that are false were installed through
    [register_on_task_completed], [register_on_task_failed] and
    [register_on_task_canceled]. *)
Definition false_hooks_world (flag : bool) (body : Outcome) : World :=
  world_of (register OnCanceled unit_a (FalsyCallback "on_canceled" None)
    (world_of (register OnFailed unit_a (FalsyCallback "on_failed" None)
      (world_of (register OnCompleted unit_a (FalsyCallback "on_completed" None)
        (world_of_obj (mkTaskObj PENDING [] VNone flag None None None body))))))).

(** ** A run of the threads *)

(** [unit_a], whose [execute] raises, and [unit_b], which depends on it;
    an executor with three workers per tag. *)
Definition race_init : System := system_init (chain_world (Raises failure_1)) 3.

(** The dispatcher yields and submits [unit_a]; worker 0 runs it up to the
    assignment of [FAILED] (task.py, line 70); the dispatcher scans again,
    yields and submits [unit_b]; worker 1 runs [unit_b] to [COMPLETED];
    only then does worker 0 enter the failed hook and call [cancel()] on
    [unit_b]; everything ends and [run] returns. *)
Definition race_schedule : list Choice :=
  [Dispatcher; Dispatcher; StartWorker "default";
   AdvanceWorker 0; AdvanceWorker 0; AdvanceWorker 0; AdvanceWorker 0;
   Dispatcher; Dispatcher; StartWorker "default";
   AdvanceWorker 1; AdvanceWorker 1; AdvanceWorker 1;
   AdvanceWorker 0; AdvanceWorker 0; AdvanceWorker 0;
   Dispatcher;
   AdvanceWorker 0; AdvanceWorker 1; AdvanceWorker 1;
   Dispatcher; Dispatcher; Dispatcher].

(** ** More vocabulary: orders, closed graphs, installed hooks *)

(** [l] lists units so that the prerequisites of each come before it. *)
Inductive topological (w : World) : list Task -> Prop :=
| topological_nil : topological w []
| topological_snoc (done : list Task) (t : Task) :
    topological w done ->
    (forall r, In r (deps_of w t) -> set_mem r done = true) ->
    topological w (done ++ [t]).

(** What the loop of [has_cycles] keeps besides [kahn_inv]: a registered
    unit with no prerequisite left is processed or queued, and the processed
    units are in topological order. *)
Record kahn_order (w : World) (done : list Task) (q : list Task) : Prop :=
  mkKahnOrder {
  order_complete :
    forall d, dict_contains d (task_to_dependencies w) = true ->
              remaining w done d = 0%Z -> set_mem d (done ++ q) = true;
  order_topological : topological w done
}.

(** Every prerequisite of a registered unit is registered. *)
Definition closed_graph (w : World) : Prop :=
  forall d p, dict_contains d (task_to_dependencies w) = true ->
              In p (deps_of w d) ->
              dict_contains p (task_to_dependencies w) = true.

(** The registered units that [done] does not hold. *)
Definition unprocessed (w : World) (done : list Task) : list Task :=
  filter (fun k => negb (set_mem k done)) (dict_keys (task_to_dependencies w)).

(** What no operation of the engine changes in an object: its declared
    prerequisites, its [execute] method and its three hooks; and a cancel
    flag, once set, stays set. *)
Definition kept (o o' : TaskObj) : Prop :=
  dependencies o' = dependencies o /\ execute o' = execute o /\
  on_task_completed o' = on_task_completed o /\
  on_task_canceled o' = on_task_canceled o /\
  on_task_failed o' = on_task_failed o /\
  (canceled_event o = true -> canceled_event o' = true).

(** The scheduler's graph read through lookups is the same in [w']. *)
Definition same_graph (w w' : World) : Prop :=
  task_to_dependencies w' = task_to_dependencies w /\
  forall k, dependents_of w' k = dependents_of w k.

Definition preserved (w w' : World) : Prop :=
  (forall a, kept (heap w a) (heap w' a)) /\ same_graph w w'.

(** The three hooks of the unit are the scheduler's callbacks. *)
Definition installed (w : World) (t : Task) : Prop :=
  on_task_completed (obj w t) = Some SchedulerOnCompleted /\
  on_task_failed (obj w t) = Some SchedulerOnFailed /\
  on_task_canceled (obj w t) = Some SchedulerOnCanceled.

(** ** Vocabulary of the sequential run *)

(** The task objects the scheduler can reach: the keys of [deps] and the
    members of the sets of the two dictionaries. *)
Definition handle (w : World) (x : Task) : Prop :=
  In x (dict_keys (task_to_dependencies w)) \/
  (exists d, In x (deps_of w d)) \/
  (exists p, In x (dependents_of w p)).

(** No two distinct objects the scheduler can reach carry the same id. *)
Definition one_object_per_id (w : World) : Prop :=
  forall x y, handle w x -> handle w y ->
              (task_id x = task_id y <-> addr x = addr y).

Definition handles (w : World) : list Task :=
  dict_keys (task_to_dependencies w)
  ++ List.concat (map snd (task_to_dependencies w))
  ++ List.concat (map snd (task_to_dependents w)).

(** The same, as a check that computes. *)
Definition one_object_per_idb (w : World) : bool :=
  forallb (fun x =>
             forallb (fun y => Bool.eqb (String.eqb (task_id x) (task_id y))
                                        (Nat.eqb (addr x) (addr y)))
                     (handles w))
          (handles w).

Definition acyclic (w : World) : Prop := forall c, is_cycle w c = false.

Definition failed_or_canceled (s : TaskStatus) : bool :=
  match s with
  | FAILED | CANCELED => true
  | _ => false
  end.

(** What [execute_task] makes of an object: the status and the result it
    ends with, and whether its dependents are cancelled. *)
Definition final_status (o : TaskObj) : TaskStatus :=
  if canceled_event o then CANCELED
  else match execute o with
       | Returns _ => COMPLETED
       | Raises _ => FAILED
       end.

Definition final_result (o : TaskObj) : Value :=
  if canceled_event o then result o
  else match execute o with
       | Returns v => v
       | Raises e => VExc e
       end.

Definition cascades (o : TaskObj) : bool :=
  canceled_event o
  || match execute o with
     | Returns _ => false
     | Raises _ => true
     end.

(** The objects of [ds] are among those at address [a]. *)
Definition among (ds : list Task) (a : nat) : bool :=
  existsb (fun d => Nat.eqb (addr d) a) ds.

(** A registered unit as [schedule] leaves a new task: [PENDING], with the
    scheduler's callbacks as hooks; its [execute] raises nothing that is not
    an [Exception]. *)
Definition fresh_unit (w : World) (k : Task) : Prop :=
  status (obj w k) = PENDING /\ installed w k /\
  forall e, execute (obj w k) = Raises e -> is_Exception e = true.

Definition fresh (w : World) : Prop :=
  forall k, In k (dict_keys (task_to_dependencies w)) -> fresh_unit w k.

Definition installedb (o : TaskObj) : bool :=
  match on_task_completed o, on_task_failed o, on_task_canceled o with
  | Some SchedulerOnCompleted, Some SchedulerOnFailed, Some SchedulerOnCanceled =>
      true
  | _, _, _ => false
  end.

Definition freshb (w : World) : bool :=
  forallb (fun k =>
             status_eqb (status (obj w k)) PENDING
             && installedb (obj w k)
             && match execute (obj w k) with
                | Raises e => is_Exception e
                | Returns _ => true
                end)
          (dict_keys (task_to_dependencies w)).

(** The unit will not run: it was cancelled before the run, or one of its
    prerequisites ends [FAILED] or [CANCELED] in [w']. *)
Definition doomed (w0 w' : World) (k : Task) : Prop :=
  canceled_event (obj w0 k) = true \/
  exists p, In p (deps_of w0 k) /\
            failed_or_canceled (status (obj w' p)) = true.

(** The invariant of the loop
    [for task in scheduler.ready_tasks: task.execute_task()] run from the
    world [w0]: [seen] are the units yielded so far. *)
Record seq_inv (w0 w : World) (seen : list Task) : Prop := mkSeqInv {
  si_preserved : preserved w0 w;
  si_status :
    forall k, In k (dict_keys (task_to_dependencies w0)) ->
              status (obj w k) = PENDING \/ is_terminal (status (obj w k)) = true;
  si_seen :
    forall k, In k (dict_keys (task_to_dependencies w0)) ->
              (set_mem k seen = true <-> status (obj w k) <> PENDING);
  si_seen_distinct : NoDup (ids seen);
  si_seen_keys :
    forall t, In t seen -> In t (dict_keys (task_to_dependencies w0));
  si_order : topological w0 seen;
  si_flag :
    forall k p, In k (dict_keys (task_to_dependencies w0)) ->
                In p (deps_of w0 k) ->
                failed_or_canceled (status (obj w p)) = true ->
                canceled_event (obj w k) = true;
  si_flag_why :
    forall k, In k (dict_keys (task_to_dependencies w0)) ->
              canceled_event (obj w k) = true -> doomed w0 w k;
  si_pending :
    forall k, In k (dict_keys (task_to_dependencies w0)) ->
              status (obj w k) = PENDING -> result (obj w k) = result (obj w0 k);
  si_canceled :
    forall k, In k (dict_keys (task_to_dependencies w0)) ->
              status (obj w k) = CANCELED ->
              canceled_event (obj w k) = true /\
              result (obj w k) = result (obj w0 k);
  si_ran :
    forall k, In k (dict_keys (task_to_dependencies w0)) ->
              status (obj w k) = COMPLETED \/ status (obj w k) = FAILED ->
              canceled_event (obj w k) = false /\
              status (obj w k) = final_status (obj w k) /\
              result (obj w k) = final_result (obj w k)
}.

(** Two states of an object that differ at most by the hooks. *)
Definition same_but_hooks (o o' : TaskObj) : Prop :=
  status o' = status o /\ dependencies o' = dependencies o /\
  result o' = result o /\ canceled_event o' = canceled_event o /\
  execute o' = execute o.

(** The cycle check returns [False]. *)
Definition passes_cycle_check (w : World) : bool :=
  match has_cycles w with
  | Ok false _ => true
  | _ => false
  end.

(** A unit whose completed hook is a callable that raises, and whose failed
    hook is a callable that returns. *)
Definition completed_hook_raises_obj : TaskObj :=
  mkTaskObj PENDING [] VNone false
            (Some (Callback "on_completed" (Some failure_1))) None
            (Some (Callback "on_failed" None))
            (Returns value_1).

(** The scheduler of [chain_world] before its second unit is registered. *)
Definition one_unit_world : World :=
  world_of (scheduler_init (chain_heap (Returns value_1)) [unit_a]).

(** Two worlds that differ at most by the cancel flag of [self] and by the
    trace. *)
Definition differ_by_own_flag (self : Task) (w w' : World) : Prop :=
  task_to_dependencies w' = task_to_dependencies w /\
  task_to_dependents w' = task_to_dependents w /\
  forall a,
    status (heap w' a) = status (heap w a) /\
    dependencies (heap w' a) = dependencies (heap w a) /\
    result (heap w' a) = result (heap w a) /\
    execute (heap w' a) = execute (heap w a) /\
    on_task_completed (heap w' a) = on_task_completed (heap w a) /\
    on_task_canceled (heap w' a) = on_task_canceled (heap w a) /\
    on_task_failed (heap w' a) = on_task_failed (heap w a) /\
    (a <> addr self -> canceled_event (heap w' a) = canceled_event (heap w a)).

(** A unit that has started: the state the worker is in after the flag
    test of line 56 found the flag unset. *)
Definition started_world (body : Outcome) : World :=
  world_of (set_status unit_a RUNNING (world_of_obj (scheduled_obj false body))).

(** How often the trace records a call of [execute] on the unit, and a call
    of one of its hooks. *)
Definition is_execute_of (k : Task) (e : Event) : bool :=
  match e with
  | EvExecute t => task_eqb t k
  | _ => false
  end.

Definition is_hook_of (k : Task) (e : Event) : bool :=
  match e with
  | EvHook _ t => task_eqb t k
  | _ => false
  end.

Definition calls_of_execute (k : Task) (tr : list Event) : nat :=
  List.length (filter (is_execute_of k) tr).

Definition calls_of_hooks (k : Task) (tr : list Event) : nat :=
  List.length (filter (is_hook_of k) tr).

(** The unit went through [execute]: it is [COMPLETED] or [FAILED]. *)
Definition has_run (s : TaskStatus) : bool :=
  match s with
  | COMPLETED | FAILED => true
  | _ => false
  end.

(** The calls recorded since [w0] are one call of [execute] for each unit
    that has run and one hook call for each terminal unit. *)
Definition calls_inv (w0 w : World) : Prop :=
  forall k, In k (dict_keys (task_to_dependencies w0)) ->
    calls_of_execute k (trace w) =
      calls_of_execute k (trace w0)
      + (if has_run (status (obj w k)) then 1 else 0) /\
    calls_of_hooks k (trace w) =
      calls_of_hooks k (trace w0)
      + (if is_terminal (status (obj w k)) then 1 else 0).

(** * Properties *)

(** ** Equality of tasks, sets and dictionaries *)

Lemma task_eqb_eq (a b : Task) : task_eqb a b = true <-> task_id a = task_id b.
Proof. unfold task_eqb. apply String.eqb_eq. Qed.

Lemma task_eqb_refl (a : Task) : task_eqb a a = true.
Proof. apply task_eqb_eq. reflexivity. Qed.

Lemma task_eqb_sym (a b : Task) : task_eqb a b = task_eqb b a.
Proof. unfold task_eqb. apply String.eqb_sym. Qed.

Lemma task_eqb_trans (a b c : Task) :
  task_eqb a b = true -> task_eqb b c = true -> task_eqb a c = true.
Proof. rewrite !task_eqb_eq. congruence. Qed.

Lemma task_eqb_congr (a b c : Task) :
  task_eqb a b = true -> task_eqb a c = task_eqb b c.
Proof.
  intros Hab. destruct (task_eqb b c) eqn:Hbc.
  - eapply task_eqb_trans; eauto.
  - destruct (task_eqb a c) eqn:Hac; [|reflexivity].
    rewrite task_eqb_sym in Hab.
    rewrite (task_eqb_trans _ _ _ Hab Hac) in Hbc. discriminate.
Qed.

Lemma set_mem_true (t : Task) (s : TaskSet) :
  set_mem t s = true <-> exists x, In x s /\ task_id x = task_id t.
Proof.
  unfold set_mem. rewrite existsb_exists. split.
  - intros (x & Hx & E). exists x. split; [assumption|].
    symmetry. now apply task_eqb_eq.
  - intros (x & Hx & E). exists x. split; [assumption|].
    apply task_eqb_eq. now symmetry.
Qed.

Lemma set_mem_congr (a b : Task) (s : TaskSet) :
  task_eqb a b = true -> set_mem a s = set_mem b s.
Proof.
  intros E. unfold set_mem. induction s as [|y s IH]; simpl; [reflexivity|].
  now rewrite IH, (task_eqb_congr a b y E).
Qed.

Lemma set_mem_app (t : Task) (s1 s2 : TaskSet) :
  set_mem t (s1 ++ s2) = set_mem t s1 || set_mem t s2.
Proof. unfold set_mem. apply existsb_app. Qed.

Lemma set_mem_add (t x : Task) (s : TaskSet) :
  set_mem t (set_add x s) = task_eqb t x || set_mem t s.
Proof.
  unfold set_add. destruct (set_mem x s) eqn:Hx.
  - destruct (task_eqb t x) eqn:E; [|reflexivity].
    simpl. now rewrite (set_mem_congr t x s E).
  - rewrite set_mem_app. simpl. rewrite orb_false_r. apply orb_comm.
Qed.

Lemma dict_get_congr {V} (a b : Task) (d : TaskDict V) :
  task_eqb a b = true -> dict_get a d = dict_get b d.
Proof.
  intros E. induction d as [|[k v] d IH]; simpl; [reflexivity|].
  now rewrite IH, (task_eqb_congr a b k E).
Qed.

Lemma dict_get_set {V} (k k' : Task) (v : V) (d : TaskDict V) :
  dict_get k (dict_set k' v d) =
  if task_eqb k k' then Some v else dict_get k d.
Proof.
  induction d as [|[x y] d IH]; simpl.
  - destruct (task_eqb k k'); reflexivity.
  - destruct (task_eqb k' x) eqn:E; simpl.
    + destruct (task_eqb k k') eqn:E'.
      * now rewrite (task_eqb_trans _ _ _ E' E).
      * rewrite task_eqb_sym in E.
        destruct (task_eqb k x) eqn:E''; [|reflexivity].
        rewrite (task_eqb_trans _ _ _ E'' E) in E'. discriminate.
    + rewrite IH. destruct (task_eqb k x) eqn:E''; [|reflexivity].
      destruct (task_eqb k k') eqn:E'; [|reflexivity].
      rewrite task_eqb_sym in E'.
      rewrite (task_eqb_trans _ _ _ E' E'') in E. discriminate.
Qed.

Lemma dict_get_app_none {V} (k : Task) (d d' : TaskDict V) :
  dict_get k d = None -> dict_get k (d ++ d') = dict_get k d'.
Proof.
  induction d as [|[x y] d IH]; simpl; [reflexivity|].
  destruct (task_eqb k x); [discriminate|assumption].
Qed.

Lemma dict_get_app_some {V} (k : Task) (d d' : TaskDict V) (v : V) :
  dict_get k d = Some v -> dict_get k (d ++ d') = Some v.
Proof.
  induction d as [|[x y] d IH]; simpl; [discriminate|].
  destruct (task_eqb k x); [tauto|assumption].
Qed.

Lemma dict_get_some_in {V} (k : Task) (d : TaskDict V) (v : V) :
  dict_get k d = Some v -> exists k', In (k', v) d /\ task_id k' = task_id k.
Proof.
  induction d as [|[x y] d IH]; simpl; [discriminate|].
  destruct (task_eqb k x) eqn:E.
  - intros [= ->]. exists x. split; [now left|].
    symmetry. now apply task_eqb_eq.
  - intros H. destruct (IH H) as (k' & Hin & Hid).
    exists k'. split; [now right|assumption].
Qed.

Lemma dict_contains_true {V} (k : Task) (d : TaskDict V) :
  dict_contains k d = true <->
  exists k', In k' (dict_keys d) /\ task_id k' = task_id k.
Proof.
  unfold dict_contains, dict_keys. split.
  - destruct (dict_get k d) as [v|] eqn:G; [|discriminate]. intros _.
    destruct (dict_get_some_in _ _ _ G) as (k' & Hin & Hid).
    exists k'. split; [|assumption].
    apply in_map_iff. now exists (k', v).
  - intros (k' & Hin & Hid). apply in_map_iff in Hin.
    destruct Hin as ([x v] & Hx & Hin). simpl in Hx. subst x.
    induction d as [|[x y] d IH]; simpl in *; [contradiction|].
    destruct (task_eqb k x) eqn:E; [reflexivity|].
    destruct Hin as [[= -> ->]|Hin]; [|now apply IH].
    assert (task_eqb k k' = true) by (apply task_eqb_eq; now symmetry).
    congruence.
Qed.

Lemma defaultdict_get_fst (k : Task) (d : TaskDict TaskSet) :
  fst (defaultdict_get k d) = bucket k d.
Proof. unfold defaultdict_get, bucket. now destruct (dict_get k d). Qed.

Lemma defaultdict_get_bucket (k k' : Task) (d : TaskDict TaskSet) :
  bucket k' (snd (defaultdict_get k d)) = bucket k' d.
Proof.
  unfold defaultdict_get, bucket.
  destruct (dict_get k d) eqn:G; simpl; [reflexivity|].
  destruct (dict_get k' d) eqn:G'.
  - now rewrite (dict_get_app_some _ _ _ _ G').
  - rewrite (dict_get_app_none _ _ _ G'). simpl.
    now destruct (task_eqb k' k).
Qed.

Lemma bucket_set (k k' : Task) (s : TaskSet) (d : TaskDict TaskSet) :
  bucket k (dict_set k' s d) = if task_eqb k k' then s else bucket k d.
Proof. unfold bucket. rewrite dict_get_set. now destruct (task_eqb k k'). Qed.

(** ** Footprints of the primitive operations *)

Lemma obj_update_obj (t t' : Task) (f : TaskObj -> TaskObj) (w : World) :
  obj (update_obj t f w) t' =
  if Nat.eqb (addr t') (addr t) then f (obj w t') else obj w t'.
Proof. reflexivity. Qed.

Lemma obj_update_obj_same (t : Task) (f : TaskObj -> TaskObj) (w : World) :
  obj (update_obj t f w) t = f (obj w t).
Proof. rewrite obj_update_obj. now rewrite Nat.eqb_refl. Qed.

Lemma for_each_cancel (ds : list Task) (w : World) :
  for_each ds cancel w = Ok tt (cancel_all ds w).
Proof.
  revert w. induction ds as [|d ds IH]; intros w; [reflexivity|].
  unfold for_each in *. simpl. unfold bind at 1. simpl. apply IH.
Qed.

Lemma cancel_all_cons (d : Task) (ds : list Task) (w : World) :
  cancel_all (d :: ds) w = cancel_all ds (world_of (cancel d w)).
Proof. reflexivity. Qed.

Lemma cancel_all_trace (ds : list Task) (w : World) :
  trace (cancel_all ds w) = trace w ++ map EvCancel ds.
Proof.
  revert w. induction ds as [|d ds IH]; intros w.
  - simpl. now rewrite app_nil_r.
  - rewrite cancel_all_cons, IH. simpl. now rewrite <- app_assoc.
Qed.

Lemma cancel_all_dicts (ds : list Task) (w : World) :
  task_to_dependencies (cancel_all ds w) = task_to_dependencies w /\
  task_to_dependents (cancel_all ds w) = task_to_dependents w.
Proof.
  revert w. induction ds as [|d ds IH]; intros w; [simpl; tauto|].
  rewrite cancel_all_cons.
  destruct (IH (world_of (cancel d w))) as [E1 E2].
  rewrite E1, E2. simpl. tauto.
Qed.

Lemma same_but_flag_refl (o : TaskObj) : same_but_flag o o.
Proof. unfold same_but_flag. tauto. Qed.

Lemma same_but_flag_trans (a b c : TaskObj) :
  same_but_flag a b -> same_but_flag b c -> same_but_flag a c.
Proof.
  unfold same_but_flag.
  intros (?&?&?&?&?&?&?&?) (?&?&?&?&?&?&?&?).
  repeat split; try congruence; auto.
Qed.

Lemma cancel_all_heap (ds : list Task) (w : World) (a : nat) :
  same_but_flag (heap w a) (heap (cancel_all ds w) a).
Proof.
  revert w. induction ds as [|d ds IH]; intros w.
  - apply same_but_flag_refl.
  - rewrite cancel_all_cons. eapply same_but_flag_trans; [|apply IH].
    simpl. destruct (Nat.eqb a (addr d)).
    + unfold same_but_flag. simpl. tauto.
    + apply same_but_flag_refl.
Qed.

Lemma cancel_all_sets_flag (ds : list Task) (w : World) (d : Task) :
  In d ds -> canceled_event (obj (cancel_all ds w) d) = true.
Proof.
  revert w. induction ds as [|x ds IH]; intros w; [contradiction|].
  rewrite cancel_all_cons.
  intros [->|Hin]; [|now apply IH].
  pose proof (cancel_all_heap ds (world_of (cancel d w)) (addr d)) as H.
  apply H. simpl. now rewrite Nat.eqb_refl.
Qed.

(** ** The cascade callbacks *)

Lemma scheduler_on_task_failed_eq (u : Task) (w : World) :
  scheduler_on_task_failed u w =
  Ok tt (emit EvNotifyAll
           (cancel_all (dependents_of w u)
              (mkWorld (heap w) (task_to_dependencies w)
                       (snd (defaultdict_get u (task_to_dependents w)))
                       (trace w)))).
Proof.
  unfold scheduler_on_task_failed, bind, get_dependents, dependents_of.
  rewrite <- defaultdict_get_fst.
  destruct (defaultdict_get u (task_to_dependents w)) as [s d]. simpl.
  now rewrite for_each_cancel.
Qed.

Lemma scheduler_on_task_canceled_eq (u : Task) (w : World) :
  scheduler_on_task_canceled u w = scheduler_on_task_failed u w.
Proof. reflexivity. Qed.

(** C2. The failed and the canceled callback of the scheduler call
    [cancel()] on every unit of [dependents[u]] and then broadcast; the
    completed callback broadcasts and touches no unit. *)
Theorem cascade_callbacks_cancel_then_notify (u : Task) (w : World) :
  (exists w1 w2,
      scheduler_on_task_failed u w = Ok tt w1 /\
      scheduler_on_task_canceled u w = Ok tt w2 /\
      trace w1 = trace w ++ map EvCancel (dependents_of w u) ++ [EvNotifyAll] /\
      trace w2 = trace w ++ map EvCancel (dependents_of w u) ++ [EvNotifyAll] /\
      Forall (fun v => canceled_event (obj w1 v) = true
                       /\ canceled_event (obj w2 v) = true)
             (dependents_of w u)) /\
  (exists w3,
      scheduler_on_task_completed u w = Ok tt w3 /\
      trace w3 = trace w ++ [EvNotifyAll] /\
      heap w3 = heap w).
Proof.
  split.
  - change (scheduler_on_task_canceled u w) with (scheduler_on_task_failed u w).
    rewrite scheduler_on_task_failed_eq.
    eexists; eexists. split; [reflexivity|]. split; [reflexivity|].
    simpl. rewrite cancel_all_trace. simpl. rewrite <- app_assoc.
    split; [reflexivity|]. split; [reflexivity|].
    apply Forall_forall. intros v Hv.
    split; now apply cancel_all_sets_flag.
  - eexists. split; [reflexivity|]. split; reflexivity.
Qed.

(** ** What a hook call can change *)

Lemma same_but_flag_emit (e : Event) (w : World) (a : nat) :
  same_but_flag (heap w a) (heap (emit e w) a).
Proof. apply same_but_flag_refl. Qed.

Lemma call_hook_footprint (h : Hook) (t : Task) (w : World) :
  exists evs,
    trace (world_of (call_hook h t w)) = trace w ++ evs /\
    forallb is_cascade_event evs = true /\
    (forall a, same_but_flag (heap w a) (heap (world_of (call_hook h t w)) a)) /\
    task_to_dependencies (world_of (call_hook h t w)) = task_to_dependencies w /\
    (hook_truth h = true ->
     raised (call_hook h t w) = hook_raises (Some h)).
Proof.
  destruct h as [| | |name [e|]|name [e|]]; simpl.
  - exists [EvNotifyAll]. repeat split; apply same_but_flag_refl.
  - rewrite scheduler_on_task_failed_eq. simpl.
    exists (map EvCancel (dependents_of w t) ++ [EvNotifyAll]).
    rewrite cancel_all_trace. simpl. rewrite <- app_assoc.
    split; [reflexivity|]. split.
    { rewrite forallb_app. simpl. rewrite andb_true_r.
      apply forallb_forall. intros x Hx. apply in_map_iff in Hx.
      now destruct Hx as (d & <- & _). }
    split; [intros a; apply (cancel_all_heap _ (mkWorld _ _ _ _))|].
    split; [|reflexivity].
    apply (cancel_all_dicts _ (mkWorld _ _ _ _)).
  - change (scheduler_on_task_canceled t w) with (scheduler_on_task_failed t w).
    rewrite scheduler_on_task_failed_eq. simpl.
    exists (map EvCancel (dependents_of w t) ++ [EvNotifyAll]).
    rewrite cancel_all_trace. simpl. rewrite <- app_assoc.
    split; [reflexivity|]. split.
    { rewrite forallb_app. simpl. rewrite andb_true_r.
      apply forallb_forall. intros x Hx. apply in_map_iff in Hx.
      now destruct Hx as (d & <- & _). }
    split; [intros a; apply (cancel_all_heap _ (mkWorld _ _ _ _))|].
    split; [|reflexivity].
    apply (cancel_all_dicts _ (mkWorld _ _ _ _)).
  - exists [EvCallback name t]. repeat split; apply same_but_flag_refl.
  - exists [EvCallback name t]. repeat split; apply same_but_flag_refl.
  - exists [EvCallback name t].
    repeat split; try apply same_but_flag_refl. discriminate.
  - exists [EvCallback name t].
    repeat split; try apply same_but_flag_refl.
Qed.

(** The guarded call of a hook slot: a slot that fails the truth test adds
    nothing to the trace and changes nothing. *)
Lemma fire_footprint (s : Slot) (t : Task) (w : World) :
  exists evs,
    trace (world_of (fire s t w)) = trace w ++ hook_call s t w ++ evs /\
    forallb is_cascade_event evs = true /\
    (forall a, same_but_flag (heap w a) (heap (world_of (fire s t w)) a)) /\
    task_to_dependencies (world_of (fire s t w)) = task_to_dependencies w /\
    raised (fire s t w) = hook_raises (hook_of s (obj w t)).
Proof.
  unfold fire, hook_call, passes_truth_test.
  destruct (hook_of s (obj w t)) as [h|].
  - destruct (hook_truth h) eqn:Htruth.
    + destruct (call_hook_footprint h t (emit (EvHook s t) w))
        as (evs & Ht & Hc & Hh & Hd & Hr).
      exists evs. rewrite Ht. simpl. rewrite <- app_assoc.
      split; [reflexivity|]. split; [assumption|].
      split; [exact Hh|]. split; [assumption|now apply Hr].
    + exists []. simpl. rewrite app_nil_r.
      destruct h; try discriminate.
      repeat split; apply same_but_flag_refl.
  - exists []. simpl. rewrite app_nil_r. repeat split; apply same_but_flag_refl.
Qed.

Lemma fire_skipped (s : Slot) (t : Task) (w : World) :
  passes_truth_test (hook_of s (obj w t)) = false -> fire s t w = Ok tt w.
Proof.
  unfold fire, passes_truth_test. destruct (hook_of s (obj w t)) as [h|];
    [|reflexivity].
  now intros ->.
Qed.

(** ** Task.execute_task *)

Lemma hook_of_set_status (s : Slot) (t t' : Task) (st : TaskStatus) (w : World) :
  hook_of s (obj (world_of (set_status t st w)) t') = hook_of s (obj w t').
Proof.
  unfold obj. simpl. destruct (Nat.eqb (addr t') (addr t)); [|reflexivity].
  now destruct s.
Qed.

Lemma hook_of_set_result (s : Slot) (t t' : Task) (v : Value) (w : World) :
  hook_of s (obj (world_of (set_result t v w)) t') = hook_of s (obj w t').
Proof.
  unfold obj. simpl. destruct (Nat.eqb (addr t') (addr t)); [|reflexivity].
  now destruct s.
Qed.

Lemma hook_of_emit (s : Slot) (t : Task) (e : Event) (w : World) :
  hook_of s (obj (emit e w) t) = hook_of s (obj w t).
Proof. reflexivity. Qed.

Lemma execute_task_canceled_eq (self : Task) (w : World) :
  canceled_event (obj w self) = true ->
  execute_task self w =
  fire OnCanceled self (world_of (set_status self CANCELED w)).
Proof.
  intros H. unfold execute_task, bind, is_set. now rewrite H.
Qed.

Lemma execute_task_canceled_spec (self : Task) (w : World) :
  canceled_event (obj w self) = true ->
  exists evs,
    trace (world_of (execute_task self w)) =
      trace w ++ [EvStatus self CANCELED]
              ++ hook_call OnCanceled self w ++ evs /\
    forallb is_cascade_event evs = true /\
    status (obj (world_of (execute_task self w)) self) = CANCELED /\
    result (obj (world_of (execute_task self w)) self) = result (obj w self) /\
    raised (execute_task self w) = hook_raises (on_task_canceled (obj w self)).
Proof.
  intros H. rewrite (execute_task_canceled_eq _ _ H).
  set (w1 := world_of (set_status self CANCELED w)).
  destruct (fire_footprint OnCanceled self w1) as (evs & Ht & Hc & Hh & _ & Hr).
  exists evs. split; [|split; [assumption|]].
  - rewrite Ht. unfold hook_call. subst w1. rewrite hook_of_set_status.
    simpl. now rewrite <- app_assoc.
  - destruct (Hh (addr self)) as (Hs & _ & Hres & _). unfold obj.
    rewrite Hs, Hres, Hr. subst w1. rewrite hook_of_set_status.
    simpl. rewrite Nat.eqb_refl. simpl. tauto.
Qed.

Lemma execute_task_returns_eq (self : Task) (w : World) (v : Value) :
  canceled_event (obj w self) = false ->
  execute (obj w self) = Returns v ->
  execute_task self w =
  try_except (fire OnCompleted self)
    (fun exception =>
       set_result self (VExc exception) ;;;
       set_status self FAILED ;;;
       fire OnFailed self)
    (world_of (set_status self COMPLETED
       (world_of (set_result self v
          (emit (EvExecute self)
             (world_of (set_status self RUNNING w))))))).
Proof.
  intros Hc He. unfold execute_task, bind at 1, is_set. rewrite Hc.
  unfold bind at 1. simpl. unfold try_except, bind at 1, call_execute.
  replace (execute (obj (emit (EvStatus self RUNNING)
             (update_obj self (with_status RUNNING) w)) self))
    with (execute (obj w self))
    by (unfold obj; simpl; now rewrite Nat.eqb_refl).
  rewrite He. reflexivity.
Qed.

Lemma execute_task_raises_eq (self : Task) (w : World) (e : PyExc) :
  canceled_event (obj w self) = false ->
  execute (obj w self) = Raises e ->
  is_Exception e = true ->
  execute_task self w =
  fire OnFailed self
    (world_of (set_status self FAILED
       (world_of (set_result self (VExc e)
          (emit (EvExecute self)
             (world_of (set_status self RUNNING w))))))).
Proof.
  intros Hc He Hx. unfold execute_task, bind at 1, is_set. rewrite Hc.
  unfold bind at 1. simpl. unfold try_except, bind at 1, call_execute.
  replace (execute (obj (emit (EvStatus self RUNNING)
             (update_obj self (with_status RUNNING) w)) self))
    with (execute (obj w self))
    by (unfold obj; simpl; now rewrite Nat.eqb_refl).
  rewrite He, Hx. reflexivity.
Qed.

Lemma execute_task_returns_spec (self : Task) (w : World) (v : Value) :
  canceled_event (obj w self) = false ->
  execute (obj w self) = Returns v ->
  exists evs,
    trace (world_of (execute_task self w)) =
      trace w ++ [EvStatus self RUNNING; EvExecute self;
                  EvResult self v; EvStatus self COMPLETED]
              ++ hook_call OnCompleted self w ++ evs /\
    (hook_raises (on_task_completed (obj w self)) = None ->
       raised (execute_task self w) = None /\
       forallb is_cascade_event evs = true /\
       status (obj (world_of (execute_task self w)) self) = COMPLETED /\
       result (obj (world_of (execute_task self w)) self) = v).
Proof.
  intros Hc He.
  rewrite (execute_task_returns_eq _ _ _ Hc He).
  set (w4 := world_of (set_status self COMPLETED _)).
  assert (Htr : trace w4 = trace w ++ [EvStatus self RUNNING; EvExecute self;
                   EvResult self v; EvStatus self COMPLETED]).
  { subst w4. simpl. now rewrite <- !app_assoc. }
  assert (Hhk : forall s, hook_of s (obj w4 self) = hook_of s (obj w self)).
  { intros s. subst w4.
    now rewrite hook_of_set_status, hook_of_set_result, hook_of_emit,
      hook_of_set_status. }
  destruct (fire_footprint OnCompleted self w4)
    as (evs & Ht & Hcas & Hh & _ & Hr).
  unfold try_except.
  destruct (fire OnCompleted self w4) as [[] w5|e' w5] eqn:F.
  - exists evs. simpl in *. rewrite Ht, Htr. unfold hook_call.
    rewrite Hhk. rewrite <- !app_assoc. split; [reflexivity|].
    intros _. split; [reflexivity|]. split; [assumption|].
    destruct (Hh (addr self)) as (Hs & _ & Hres & _). unfold obj.
    rewrite Hs, Hres. subst w4. simpl. rewrite !Nat.eqb_refl. simpl. tauto.
  - cbn [world_of] in Ht. cbn [raised] in Hr.
    rewrite (Hhk OnCompleted) in Hr. cbn [hook_of] in Hr.
    destruct (is_Exception e').
    + set (r := (set_result self (VExc e') ;;; _) w5).
      assert (Hext : exists evs', trace (world_of r) = trace w5 ++ evs').
      { subst r. unfold bind. simpl.
        destruct (fire_footprint OnFailed self
                    (emit (EvStatus self FAILED)
                       (update_obj self (with_status FAILED)
                          (emit (EvResult self (VExc e'))
                             (update_obj self (with_result (VExc e')) w5)))))
          as (evs' & Ht' & _).
        eexists. rewrite Ht'. simpl. rewrite <- !app_assoc. reflexivity. }
      destruct Hext as (evs' & Hext). exists (evs ++ evs').
      rewrite Hext, Ht, Htr. unfold hook_call. rewrite Hhk.
      rewrite <- !app_assoc. split; [reflexivity|].
      intros Hq. rewrite Hq in Hr. discriminate.
    + exists evs. simpl. rewrite Ht, Htr. unfold hook_call. rewrite Hhk.
      rewrite <- !app_assoc. split; [reflexivity|].
      intros Hq. rewrite Hq in Hr. discriminate.
Qed.

Lemma execute_task_raises_spec (self : Task) (w : World) (e : PyExc) :
  canceled_event (obj w self) = false ->
  execute (obj w self) = Raises e ->
  is_Exception e = true ->
  exists evs,
    trace (world_of (execute_task self w)) =
      trace w ++ [EvStatus self RUNNING; EvExecute self;
                  EvResult self (VExc e); EvStatus self FAILED]
              ++ hook_call OnFailed self w ++ evs /\
    forallb is_cascade_event evs = true /\
    status (obj (world_of (execute_task self w)) self) = FAILED /\
    result (obj (world_of (execute_task self w)) self) = VExc e /\
    raised (execute_task self w) = hook_raises (on_task_failed (obj w self)).
Proof.
  intros Hc He Hx.
  rewrite (execute_task_raises_eq _ _ _ Hc He Hx).
  set (w4 := world_of (set_status self FAILED _)).
  assert (Htr : trace w4 = trace w ++ [EvStatus self RUNNING; EvExecute self;
                   EvResult self (VExc e); EvStatus self FAILED]).
  { subst w4. simpl. now rewrite <- !app_assoc. }
  assert (Hhk : forall s, hook_of s (obj w4 self) = hook_of s (obj w self)).
  { intros s. subst w4.
    now rewrite hook_of_set_status, hook_of_set_result, hook_of_emit,
      hook_of_set_status. }
  destruct (fire_footprint OnFailed self w4)
    as (evs & Ht & Hcas & Hh & _ & Hr).
  exists evs. rewrite Ht, Htr, Hr. unfold hook_call. rewrite !Hhk.
  rewrite <- !app_assoc. split; [reflexivity|]. split; [assumption|].
  destruct (Hh (addr self)) as (Hs & _ & Hres & _). unfold obj.
  rewrite Hs, Hres. subst w4. simpl. rewrite !Nat.eqb_refl. simpl. tauto.
Qed.

Lemma execute_task_base_exception_eq (self : Task) (w : World) (e : PyExc) :
  canceled_event (obj w self) = false ->
  execute (obj w self) = Raises e ->
  is_Exception e = false ->
  execute_task self w =
  Raise e (emit (EvExecute self) (world_of (set_status self RUNNING w))).
Proof.
  intros Hc He Hx. unfold execute_task, bind at 1, is_set. rewrite Hc.
  unfold bind at 1. simpl. unfold try_except, bind at 1, call_execute.
  replace (execute (obj (emit (EvStatus self RUNNING)
             (update_obj self (with_status RUNNING) w)) self))
    with (execute (obj w self))
    by (unfold obj; simpl; now rewrite Nat.eqb_refl).
  rewrite He, Hx. reflexivity.
Qed.

(** ** A hook slot that fails the truth test *)

Lemma execute_task_canceled_skipped (self : Task) (w : World) :
  canceled_event (obj w self) = true ->
  passes_truth_test (on_task_canceled (obj w self)) = false ->
  execute_task self w = Ok tt (world_of (set_status self CANCELED w)).
Proof.
  intros Hc Hp. rewrite (execute_task_canceled_eq self w Hc).
  apply fire_skipped. now rewrite hook_of_set_status.
Qed.

Lemma execute_task_returns_skipped (self : Task) (w : World) (v : Value) :
  canceled_event (obj w self) = false ->
  execute (obj w self) = Returns v ->
  passes_truth_test (on_task_completed (obj w self)) = false ->
  execute_task self w =
  Ok tt (world_of (set_status self COMPLETED
           (world_of (set_result self v
              (emit (EvExecute self)
                 (world_of (set_status self RUNNING w))))))).
Proof.
  intros Hc He Hp. rewrite (execute_task_returns_eq self w v Hc He).
  unfold try_except. rewrite fire_skipped; [reflexivity|].
  now rewrite hook_of_set_status, hook_of_set_result, hook_of_emit,
    hook_of_set_status.
Qed.

Lemma execute_task_raises_skipped (self : Task) (w : World) (e : PyExc) :
  canceled_event (obj w self) = false ->
  execute (obj w self) = Raises e ->
  is_Exception e = true ->
  passes_truth_test (on_task_failed (obj w self)) = false ->
  execute_task self w =
  Ok tt (world_of (set_status self FAILED
           (world_of (set_result self (VExc e)
              (emit (EvExecute self)
                 (world_of (set_status self RUNNING w))))))).
Proof.
  intros Hc He Hx Hp. rewrite (execute_task_raises_eq self w e Hc He Hx).
  apply fire_skipped.
  now rewrite hook_of_set_status, hook_of_set_result, hook_of_emit,
    hook_of_set_status.
Qed.

Lemma hook_call_skipped (s : Slot) (t : Task) (w : World) :
  passes_truth_test (hook_of s (obj w t)) = false -> hook_call s t w = [].
Proof. unfold hook_call. now intros ->. Qed.

Lemma hook_call_made (s : Slot) (t : Task) (w : World) :
  passes_truth_test (hook_of s (obj w t)) = true ->
  hook_call s t w = [EvHook s t].
Proof. unfold hook_call. now intros ->. Qed.

(** C3, as stated, fails: with the cancel flag set and a callable that is
    false installed as canceled hook through [register_on_task_canceled],
    [execute_task] sets [CANCELED] and returns without calling the hook. *)
Lemma execute_task_skips_false_canceled_hook :
  canceled_event (obj (false_hooks_world true (Returns value_1)) unit_a) = true /\
  on_task_canceled (obj (false_hooks_world true (Returns value_1)) unit_a) =
    Some (FalsyCallback "on_canceled" None) /\
  execute_task unit_a (false_hooks_world true (Returns value_1)) =
    Ok tt (world_of (set_status unit_a CANCELED
                       (false_hooks_world true (Returns value_1)))) /\
  trace (world_of (execute_task unit_a
                     (false_hooks_world true (Returns value_1)))) =
    [EvStatus unit_a CANCELED] /\
  ~ (forall self w h,
       canceled_event (obj w self) = true ->
       on_task_canceled (obj w self) = Some h ->
       In (EvHook OnCanceled self) (trace (world_of (execute_task self w)))).
Proof.
  split; [reflexivity|]. split; [reflexivity|]. split; [reflexivity|].
  split; [reflexivity|].
  intros H.
  specialize (H unit_a (false_hooks_world true (Returns value_1))
                (FalsyCallback "on_canceled" None) eq_refl eq_refl).
  simpl in H. destruct H as [H|[]]. discriminate H.
Qed.

(** C3, amended. With the cancel flag set when it starts, [execute_task]
    sets the status to [CANCELED], calls the canceled hook exactly when the
    slot passes the truth test of line 58, that is when it holds a callable
    that is true, as the scheduler's callback is, and does nothing else:
    [execute] is not called, neither of the other two hooks is called, and
    the result is left as it was. A slot that holds [None] or a callable
    that is false is skipped, and the call then consists of the status
    write alone. *)
Theorem execute_task_cancel_requested (self : Task) (w : World) :
  canceled_event (obj w self) = true ->
  exists evs,
    trace (world_of (execute_task self w)) =
      trace w ++ [EvStatus self CANCELED]
              ++ hook_call OnCanceled self w ++ evs /\
    forallb is_cascade_event evs = true /\
    status (obj (world_of (execute_task self w)) self) = CANCELED /\
    result (obj (world_of (execute_task self w)) self) = result (obj w self) /\
    (passes_truth_test (on_task_canceled (obj w self)) = true ->
     hook_call OnCanceled self w = [EvHook OnCanceled self]) /\
    (passes_truth_test (on_task_canceled (obj w self)) = false ->
     hook_call OnCanceled self w = [] /\ evs = [] /\
     execute_task self w = Ok tt (world_of (set_status self CANCELED w))).
Proof.
  intros H.
  destruct (passes_truth_test (on_task_canceled (obj w self))) eqn:Hp.
  - destruct (execute_task_canceled_spec self w H)
      as (evs & Ht & Hc & Hs & Hr & _).
    exists evs. repeat split; try assumption; try discriminate.
    intros _. now apply (hook_call_made OnCanceled).
  - pose proof (execute_task_canceled_skipped self w H Hp) as E.
    exists []. rewrite E, (hook_call_skipped OnCanceled self w Hp).
    cbn [world_of]. unfold obj. simpl. rewrite Nat.eqb_refl. simpl.
    repeat split; try discriminate.
Qed.

Lemma execute_task_cancel_requested_witness :
  canceled_event (obj (world_of_obj (scheduled_obj true (Returns value_1))) unit_a)
    = true /\
  exists evs,
    trace (world_of (execute_task unit_a
             (world_of_obj (scheduled_obj true (Returns value_1))))) =
      [EvStatus unit_a CANCELED; EvHook OnCanceled unit_a] ++ evs /\
    forallb is_cascade_event evs = true /\
    status (obj (world_of (execute_task unit_a
             (world_of_obj (scheduled_obj true (Returns value_1))))) unit_a)
      = CANCELED /\
    result (obj (world_of (execute_task unit_a
             (world_of_obj (scheduled_obj true (Returns value_1))))) unit_a)
      = VNone.
Proof.
  split; [reflexivity|].
  destruct (execute_task_cancel_requested unit_a
              (world_of_obj (scheduled_obj true (Returns value_1))) eq_refl)
    as (evs & Ht & Hc & Hs & Hr & _).
  exists evs. split; [exact Ht|]. split; [exact Hc|]. split; [exact Hs|exact Hr].
Defined.

(** C4, as stated, fails: with the cancel flag not set and callables that
    are false installed as completed and as failed hook, [execute_task]
    ends [COMPLETED], or [FAILED], without calling the hook. *)
Lemma execute_task_skips_false_terminal_hooks :
  on_task_completed (obj (false_hooks_world false (Returns value_1)) unit_a) =
    Some (FalsyCallback "on_completed" None) /\
  trace (world_of (execute_task unit_a
                     (false_hooks_world false (Returns value_1)))) =
    [EvStatus unit_a RUNNING; EvExecute unit_a;
     EvResult unit_a value_1; EvStatus unit_a COMPLETED] /\
  on_task_failed (obj (false_hooks_world false (Raises failure_1)) unit_a) =
    Some (FalsyCallback "on_failed" None) /\
  trace (world_of (execute_task unit_a
                     (false_hooks_world false (Raises failure_1)))) =
    [EvStatus unit_a RUNNING; EvExecute unit_a;
     EvResult unit_a (VExc failure_1); EvStatus unit_a FAILED] /\
  ~ (forall self w h v,
       canceled_event (obj w self) = false ->
       execute (obj w self) = Returns v ->
       on_task_completed (obj w self) = Some h ->
       In (EvHook OnCompleted self) (trace (world_of (execute_task self w)))).
Proof.
  split; [reflexivity|]. split; [reflexivity|]. split; [reflexivity|].
  split; [reflexivity|].
  intros H.
  specialize (H unit_a (false_hooks_world false (Returns value_1))
                (FalsyCallback "on_completed" None) value_1
                eq_refl eq_refl eq_refl).
  simpl in H. repeat (destruct H as [H|H]; [discriminate H|]). exact H.
Qed.

(** C4, amended. With the cancel flag not set when it starts,
    [execute_task] sets [RUNNING] and calls [execute]. When that returns
    [v], it stores [v], sets [COMPLETED] and calls the completed hook, in
    this order, and when the hook returns the call returns with that status
    and result. When [execute] raises an exception [e], it stores [e], sets
    [FAILED] and calls the failed hook, and the call ends as the hook does:
    [e] does not reach the caller. In both cases the hook is called exactly
    when its slot passes the truth test of line 66 or 71, that is when it
    holds a callable that is true, as the scheduler's callbacks are; a slot
    that holds [None] or a callable that is false is skipped, and the call
    then returns right after the status write. *)
Theorem execute_task_not_cancelled (self : Task) (w : World) :
  canceled_event (obj w self) = false ->
  (forall v, execute (obj w self) = Returns v ->
     exists evs,
       trace (world_of (execute_task self w)) =
         trace w ++ [EvStatus self RUNNING; EvExecute self;
                     EvResult self v; EvStatus self COMPLETED]
                 ++ hook_call OnCompleted self w ++ evs /\
       (hook_raises (on_task_completed (obj w self)) = None ->
          raised (execute_task self w) = None /\
          forallb is_cascade_event evs = true /\
          status (obj (world_of (execute_task self w)) self) = COMPLETED /\
          result (obj (world_of (execute_task self w)) self) = v) /\
       (passes_truth_test (on_task_completed (obj w self)) = true ->
        hook_call OnCompleted self w = [EvHook OnCompleted self]) /\
       (passes_truth_test (on_task_completed (obj w self)) = false ->
        hook_call OnCompleted self w = [] /\ evs = [] /\
        raised (execute_task self w) = None)) /\
  (forall e, execute (obj w self) = Raises e -> is_Exception e = true ->
     exists evs,
       trace (world_of (execute_task self w)) =
         trace w ++ [EvStatus self RUNNING; EvExecute self;
                     EvResult self (VExc e); EvStatus self FAILED]
                 ++ hook_call OnFailed self w ++ evs /\
       forallb is_cascade_event evs = true /\
       status (obj (world_of (execute_task self w)) self) = FAILED /\
       result (obj (world_of (execute_task self w)) self) = VExc e /\
       raised (execute_task self w) = hook_raises (on_task_failed (obj w self)) /\
       (passes_truth_test (on_task_failed (obj w self)) = true ->
        hook_call OnFailed self w = [EvHook OnFailed self]) /\
       (passes_truth_test (on_task_failed (obj w self)) = false ->
        hook_call OnFailed self w = [] /\ evs = [] /\
        raised (execute_task self w) = None)).
Proof.
  intros Hc. split.
  - intros v He.
    destruct (passes_truth_test (on_task_completed (obj w self))) eqn:Hp.
    + destruct (execute_task_returns_spec self w v Hc He) as (evs & Ht & Hq).
      exists evs. split; [exact Ht|]. split; [exact Hq|].
      split; [intros _; now apply (hook_call_made OnCompleted)|discriminate].
    + pose proof (execute_task_returns_skipped self w v Hc He Hp) as E.
      exists []. rewrite E, (hook_call_skipped OnCompleted self w Hp).
      cbn [world_of raised]. unfold obj. simpl. rewrite !Nat.eqb_refl. simpl.
      rewrite <- !app_assoc. simpl.
      repeat split; try discriminate.
  - intros e He Hx.
    destruct (passes_truth_test (on_task_failed (obj w self))) eqn:Hp.
    + destruct (execute_task_raises_spec self w e Hc He Hx)
        as (evs & Ht & Hcas & Hs & Hr & Hraise).
      exists evs. repeat split; try assumption; try discriminate.
      intros _. now apply (hook_call_made OnFailed).
    + pose proof (execute_task_raises_skipped self w e Hc He Hx Hp) as E.
      assert (Hn : hook_raises (on_task_failed (obj w self)) = None).
      { unfold passes_truth_test in Hp.
        destruct (on_task_failed (obj w self)) as [[]|]; try discriminate;
          reflexivity. }
      exists []. rewrite E, Hn, (hook_call_skipped OnFailed self w Hp).
      cbn [world_of raised]. unfold obj. simpl. rewrite !Nat.eqb_refl. simpl.
      rewrite <- !app_assoc. simpl.
      repeat split; try discriminate.
Qed.

Lemma execute_task_not_cancelled_witness :
  canceled_event (obj (world_of_obj (scheduled_obj false (Raises failure_1))) unit_a)
    = false /\
  exists evs,
    trace (world_of (execute_task unit_a
             (world_of_obj (scheduled_obj false (Raises failure_1))))) =
      [EvStatus unit_a RUNNING; EvExecute unit_a;
       EvResult unit_a (VExc failure_1); EvStatus unit_a FAILED]
      ++ [EvHook OnFailed unit_a] ++ evs /\
    forallb is_cascade_event evs = true /\
    status (obj (world_of (execute_task unit_a
             (world_of_obj (scheduled_obj false (Raises failure_1))))) unit_a)
      = FAILED /\
    result (obj (world_of (execute_task unit_a
             (world_of_obj (scheduled_obj false (Raises failure_1))))) unit_a)
      = VExc failure_1 /\
    raised (execute_task unit_a
              (world_of_obj (scheduled_obj false (Raises failure_1)))) = None.
Proof.
  split; [reflexivity|].
  destruct (proj2 (execute_task_not_cancelled unit_a
                     (world_of_obj (scheduled_obj false (Raises failure_1)))
                     eq_refl) failure_1 eq_refl eq_refl)
    as (evs & Ht & Hc & Hs & Hr & Hraise & _).
  exists evs. split; [exact Ht|]. split; [exact Hc|]. split; [exact Hs|].
  split; [exact Hr|exact Hraise].
Defined.

(** C5, as stated, fails: with the cancel flag set, a canceled hook that
    raises makes [execute_task] raise; and an exception of [execute] that is
    not an instance of [Exception] passes through the [except] clause. *)
Lemma execute_task_can_raise :
  raised (execute_task unit_a (world_of_obj raising_hook_obj)) = Some failure_1 /\
  raised (execute_task unit_a (world_of_obj interrupted_obj)) =
    Some (UserBaseException "KeyboardInterrupt" "") /\
  ~ (forall self w, raised (execute_task self w) = None).
Proof.
  split; [reflexivity|]. split; [reflexivity|].
  intros H. specialize (H unit_a (world_of_obj raising_hook_obj)).
  discriminate H.
Qed.

(** C5, amended. [execute_task] returns normally whenever none of the three
    installed hooks raises, which holds for the scheduler's callbacks, and
    [execute] returns or raises an instance of [Exception]. *)
Theorem execute_task_returns_when_hooks_return (self : Task) (w : World) :
  hook_raises (on_task_completed (obj w self)) = None ->
  hook_raises (on_task_canceled (obj w self)) = None ->
  hook_raises (on_task_failed (obj w self)) = None ->
  (forall e, execute (obj w self) = Raises e -> is_Exception e = true) ->
  exists w', execute_task self w = Ok tt w'.
Proof.
  intros H1 H2 H3 Hx.
  assert (R : raised (execute_task self w) = None).
  { destruct (canceled_event (obj w self)) eqn:Hc.
    - destruct (execute_task_canceled_spec self w Hc) as (evs & _ & _ & _ & _ & Hr).
      congruence.
    - destruct (execute (obj w self)) as [v|e] eqn:He.
      + destruct (execute_task_returns_spec self w v Hc He) as (evs & _ & Hq).
        now apply Hq.
      + destruct (execute_task_raises_spec self w e Hc He (Hx e eq_refl))
          as (evs & _ & _ & _ & _ & Hr).
        congruence. }
  destruct (execute_task self w) as [[] w'|e w']; [|discriminate].
  now exists w'.
Qed.

Lemma execute_task_returns_when_hooks_return_witness :
  exists w', execute_task unit_a
               (world_of_obj (scheduled_obj false (Raises failure_1))) = Ok tt w'.
Proof.
  apply (execute_task_returns_when_hooks_return unit_a
           (world_of_obj (scheduled_obj false (Raises failure_1))));
    try reflexivity.
  intros e [= <-]. reflexivity.
Defined.

(** ** Scheduler.schedule *)

Lemma set_mem_set_of_aux (l : list Task) (acc : TaskSet) (p : Task) :
  set_mem p (fold_left (fun s t => set_add t s) l acc) =
  set_mem p acc || set_mem p l.
Proof.
  revert acc. induction l as [|x l IH]; intros acc; simpl.
  - now rewrite orb_false_r.
  - rewrite IH, set_mem_add. unfold set_mem at 3. simpl.
    fold (set_mem p l). rewrite (orb_comm (task_eqb p x)).
    now rewrite orb_assoc.
Qed.

Lemma set_mem_set_of (l : list Task) (p : Task) :
  set_mem p (set_of l) = set_mem p l.
Proof. unfold set_of. now rewrite set_mem_set_of_aux. Qed.

Lemma for_each_total {A} (body : A -> M unit) (f : World -> A -> World)
    (l : list A) (w : World) :
  (forall x w, body x w = Ok tt (f w x)) ->
  for_each l body w = Ok tt (fold_left f l w).
Proof.
  intros H. revert w. induction l as [|x l IH]; intros w; [reflexivity|].
  unfold for_each in *. simpl. unfold bind at 1. rewrite H. apply IH.
Qed.

Lemma for_each_add_dependent (deps : list Task) (task : Task) (w : World) :
  for_each deps (fun dependency => add_dependent dependency task) w =
  Ok tt (add_dependents deps task w).
Proof.
  apply for_each_total. intros x w0. unfold add_dependent.
  now destruct (defaultdict_get x (task_to_dependents w0)).
Qed.

Lemma add_dependent_world (p task : Task) (w : World) :
  let w' := world_of (add_dependent p task w) in
  heap w' = heap w /\ task_to_dependencies w' = task_to_dependencies w /\
  trace w' = trace w /\
  forall q, dependents_of w' q =
            if task_eqb q p then set_add task (dependents_of w p)
            else dependents_of w q.
Proof.
  unfold add_dependent, dependents_of.
  pose proof (defaultdict_get_fst p (task_to_dependents w)) as Hf.
  pose proof (fun q => defaultdict_get_bucket p q (task_to_dependents w)) as Hb.
  destruct (defaultdict_get p (task_to_dependents w)) as [s dd]. simpl in *.
  repeat split. intros q. rewrite bucket_set, Hb. now subst s.
Qed.

Lemma add_dependents_cons (d : Task) (deps : list Task) (task : Task) (w : World) :
  add_dependents (d :: deps) task w =
  add_dependents deps task (world_of (add_dependent d task w)).
Proof. reflexivity. Qed.

Lemma add_dependents_world (deps : list Task) (task : Task) (w : World) :
  let w' := add_dependents deps task w in
  heap w' = heap w /\ task_to_dependencies w' = task_to_dependencies w /\
  trace w' = trace w /\
  forall q d, set_mem d (dependents_of w' q) =
              set_mem d (dependents_of w q)
              || (task_eqb d task && set_mem q deps).
Proof.
  revert w. induction deps as [|p deps IH]; intros w.
  - simpl. repeat split. intros q d.
    now rewrite andb_false_r, orb_false_r.
  - rewrite add_dependents_cons.
    destruct (add_dependent_world p task w) as (Hh & Hd & Ht & Hq).
    destruct (IH (world_of (add_dependent p task w))) as (Hh' & Hd' & Ht' & Hq').
    cbv zeta. rewrite Hh', Hd', Ht'. repeat split; try assumption.
    intros q d. rewrite Hq', Hq. unfold set_mem at 4. simpl.
    fold (set_mem q deps).
    destruct (task_eqb q p) eqn:E.
    + assert (Hqp : dependents_of w q = dependents_of w p).
      { unfold dependents_of, bucket. now rewrite (dict_get_congr q p). }
      rewrite set_mem_add, Hqp.
      destruct (task_eqb d task), (set_mem d (dependents_of w p)),
        (set_mem q deps); reflexivity.
    + reflexivity.
Qed.

Lemma schedule_fresh_eq (task : Task) (w : World) :
  dict_contains task (task_to_dependencies w) = false ->
  schedule task w =
  Ok tt (add_dependents (dependencies (obj w task)) task
           (world_of (set_dependencies_entry task
                        (set_of (dependencies (obj w task)))
              (world_of (register OnCanceled task SchedulerOnCanceled
                 (world_of (register OnFailed task SchedulerOnFailed
                    (world_of (register OnCompleted task SchedulerOnCompleted
                                 w))))))))).
Proof.
  intros H. unfold schedule, bind at 1, is_registered. rewrite H.
  unfold bind at 1. simpl. unfold bind at 1. simpl. unfold bind at 1. simpl.
  unfold bind at 1, get_dependencies. simpl.
  unfold bind at 1. simpl. rewrite for_each_add_dependent.
  unfold obj. simpl. rewrite !Nat.eqb_refl. simpl. reflexivity.
Qed.

(** C6. [schedule] raises [SchedulingException] exactly when a unit with
    the same id is registered, and then changes nothing. Otherwise it
    returns, the three hooks of the unit are the scheduler's callbacks,
    [deps[unit]] is the set of the unit's prerequisites, and the unit is in
    [dependents[p]] for each prerequisite [p]. *)
Theorem schedule_registers_once (task : Task) (w : World) :
  (dict_contains task (task_to_dependencies w) = true <-> registered w task) /\
  if dict_contains task (task_to_dependencies w)
  then schedule task w = Raise (SchedulingException (AlreadyExists task)) w
  else exists w',
      schedule task w = Ok tt w' /\
      on_task_completed (obj w' task) = Some SchedulerOnCompleted /\
      on_task_failed (obj w' task) = Some SchedulerOnFailed /\
      on_task_canceled (obj w' task) = Some SchedulerOnCanceled /\
      dict_get task (task_to_dependencies w') =
        Some (set_of (dependencies (obj w task))) /\
      Forall (fun p => set_mem p (deps_of w' task) = true
                       /\ set_mem task (dependents_of w' p) = true)
             (dependencies (obj w task)).
Proof.
  split; [apply dict_contains_true|].
  destruct (dict_contains task (task_to_dependencies w)) eqn:H.
  - unfold schedule, bind, is_registered. now rewrite H.
  - pose proof (schedule_fresh_eq task w H) as Hs.
    set (l := dependencies (obj w task)) in *.
    set (w0 := world_of (set_dependencies_entry task (set_of l) _)) in Hs.
    exists (add_dependents l task w0). split; [exact Hs|].
    destruct (add_dependents_world l task w0) as (Hh & Hd & _ & Hq).
    cbv zeta in Hh, Hd, Hq.
    assert (Hobj : obj (add_dependents l task w0) task = obj w0 task)
      by (unfold obj; now rewrite Hh).
    assert (Hget : dict_get task (task_to_dependencies (add_dependents l task w0))
                   = Some (set_of l)).
    { rewrite Hd. subst w0. simpl. now rewrite dict_get_set, task_eqb_refl. }
    rewrite Hobj, Hget.
    repeat split;
      try (subst w0; unfold obj; simpl; rewrite !Nat.eqb_refl; reflexivity).
    apply Forall_forall. intros p Hp.
    assert (Hm : set_mem p l = true) by (apply set_mem_true; now exists p).
    split.
    + unfold deps_of, bucket. rewrite Hget. now rewrite set_mem_set_of.
    + rewrite Hq, task_eqb_refl, Hm. apply orb_true_r.
Qed.

(** ** Scheduler.__has_cycles: the loop ends *)

Lemma count_positive_set (d : Task) (n : Z) (od : TaskDict Z) :
  dict_get d od = Some n ->
  count_positive (dict_set d (n - 1)%Z od)
  + (if (n - 1 =? 0)%Z then 1 else 0) = count_positive od.
Proof.
  unfold count_positive. induction od as [|[k v] od IH]; simpl; [discriminate|].
  destruct (task_eqb d k) eqn:E.
  - intros [= ->]. simpl.
    destruct (1 <=? n - 1)%Z eqn:A, (1 <=? n)%Z eqn:B, (n - 1 =? 0)%Z eqn:C;
      simpl; lia.
  - intros H. specialize (IH H). simpl.
    destruct (1 <=? v)%Z; simpl; lia.
Qed.

Lemma relax_measure (d : Task) (od od' : TaskDict Z) (q q' : list Task) :
  relax d (od, q) = inr (od', q') ->
  count_positive od' + List.length q' = count_positive od + List.length q.
Proof.
  unfold relax. destruct (dict_get d od) as [n|] eqn:G; [|discriminate].
  intros [= <- <-]. pose proof (count_positive_set d n od G) as H.
  destruct (n - 1 =? 0)%Z; [rewrite length_app; simpl|]; lia.
Qed.

Lemma relax_all_measure (ds : list Task) (od od' : TaskDict Z) (q q' : list Task) :
  relax_all ds (od, q) = inr (od', q') ->
  count_positive od' + List.length q' = count_positive od + List.length q.
Proof.
  revert od q. induction ds as [|d ds IH]; intros od q; cbn [relax_all].
  - now intros [= <- <-].
  - destruct (relax d (od, q)) as [e|[od1 q1]] eqn:R; [discriminate|].
    intros H. rewrite (IH _ _ H). now apply (relax_measure d).
Qed.

Lemma kahn_loop_terminates (fuel : nat) (dd : TaskDict TaskSet)
    (od : TaskDict Z) (q : list Task) (n : nat) :
  count_positive od + List.length q < fuel ->
  kahn_loop fuel dd od q n <> None.
Proof.
  revert dd od q n. induction fuel as [|fuel IH]; intros dd od q n H; [lia|].
  cbn [kahn_loop]. destruct q as [|task q]; [discriminate|].
  destruct (defaultdict_get task dd) as [ds dd'].
  destruct (relax_all ds (od, q)) as [e|[od' q']] eqn:R; [discriminate|].
  apply IH. apply relax_all_measure in R. simpl in H. lia.
Qed.

Lemma initial_measure (od : TaskDict Z) :
  count_positive od + List.length (initial_queue od) <= List.length od.
Proof.
  unfold count_positive, initial_queue. rewrite length_map.
  induction od as [|[k v] od IH]; simpl; [lia|].
  destruct (1 <=? v)%Z eqn:A, (v =? 0)%Z eqn:B; simpl; lia.
Qed.

(** [has_cycles] always gives its loop enough fuel. *)
Lemma has_cycles_fuel (w : World) :
  kahn_loop (S (List.length (out_degree_of (task_to_dependencies w))))
            (task_to_dependents w)
            (out_degree_of (task_to_dependencies w))
            (initial_queue (out_degree_of (task_to_dependencies w))) 0
  <> None.
Proof.
  apply kahn_loop_terminates.
  pose proof (initial_measure (out_degree_of (task_to_dependencies w))). lia.
Qed.

(** ** Lists of units without two equal members *)

Lemma set_mem_in_ids (x : Task) (l : list Task) :
  set_mem x l = true <-> In (task_id x) (ids l).
Proof.
  rewrite set_mem_true. unfold ids. rewrite in_map_iff.
  split; intros (y & H1 & H2); exists y; tauto.
Qed.

Lemma set_mem_false_ids (x : Task) (l : list Task) :
  set_mem x l = false <-> ~ In (task_id x) (ids l).
Proof.
  rewrite <- set_mem_in_ids. destruct (set_mem x l); split; congruence.
Qed.

Lemma set_mem_cons (x y : Task) (l : list Task) :
  set_mem x (y :: l) = task_eqb x y || set_mem x l.
Proof. reflexivity. Qed.

Lemma set_mem_in (x : Task) (l : list Task) : In x l -> set_mem x l = true.
Proof. intros H. apply set_mem_true. now exists x. Qed.

Lemma NoDup_ids_filter (f : Task -> bool) (l : list Task) :
  NoDup (ids l) -> NoDup (ids (filter f l)).
Proof.
  induction l as [|x l IH]; simpl; [trivial|].
  intros H. inversion H as [|? ? Hn Hd]; subst.
  destruct (f x); [|now apply IH]. simpl. constructor; [|now apply IH].
  intros Hin. apply Hn. unfold ids in *. apply in_map_iff in Hin.
  destruct Hin as (y & Hy & Hin). apply filter_In in Hin.
  apply in_map_iff. exists y. tauto.
Qed.

Lemma bucket_congr (a b : Task) (d : TaskDict TaskSet) :
  task_eqb a b = true -> bucket a d = bucket b d.
Proof. intros E. unfold bucket. now rewrite (dict_get_congr a b). Qed.

Lemma dict_contains_congr {V} (a b : Task) (d : TaskDict V) :
  task_eqb a b = true -> dict_contains a d = dict_contains b d.
Proof. intros E. unfold dict_contains. now rewrite (dict_get_congr a b). Qed.

Lemma dict_contains_keys {V} (k : Task) (d : TaskDict V) :
  dict_contains k d = set_mem k (dict_keys d).
Proof.
  unfold dict_contains. induction d as [|[x v] d IH]; simpl; [reflexivity|].
  destruct (task_eqb k x); [reflexivity|assumption].
Qed.

Lemma dict_get_in_nodup {V} (k : Task) (v : V) (d : TaskDict V) :
  NoDup (ids (dict_keys d)) -> In (k, v) d -> dict_get k d = Some v.
Proof.
  induction d as [|[x y] d IH]; simpl; [contradiction|].
  intros H. inversion H as [|? ? Hn Hd]; subst.
  intros [[= -> ->]|Hin].
  - now rewrite task_eqb_refl.
  - destruct (task_eqb k x) eqn:E; [|now apply IH].
    exfalso. apply Hn. apply task_eqb_eq in E. rewrite <- E.
    unfold ids, dict_keys. rewrite map_map. apply in_map_iff.
    now exists (k, v).
Qed.

Lemma dict_set_keys {V} (k : Task) (v : V) (d : TaskDict V) :
  dict_get k d <> None -> dict_keys (dict_set k v d) = dict_keys d.
Proof.
  unfold dict_keys. induction d as [|[x y] d IH]; simpl; [congruence|].
  destruct (task_eqb k x); simpl; [reflexivity|].
  intros H. now rewrite IH.
Qed.

Lemma out_degree_keys (deps : TaskDict TaskSet) :
  dict_keys (out_degree_of deps) = dict_keys deps.
Proof. unfold dict_keys, out_degree_of. rewrite map_map. reflexivity. Qed.

Lemma out_degree_get (deps : TaskDict TaskSet) (d : Task) :
  dict_get d (out_degree_of deps) =
  option_map (fun s => Z.of_nat (List.length s)) (dict_get d deps).
Proof.
  induction deps as [|[k s] deps IH]; simpl; [reflexivity|].
  destruct (task_eqb d k); [reflexivity|assumption].
Qed.

(** ** The inner loop of [has_cycles] *)

Lemma relax_all_spec (B : list Task) :
  forall (od : TaskDict Z) (q : list Task),
    NoDup (ids B) ->
    (forall d, In d B -> dict_contains d od = true) ->
    exists od',
      relax_all B (od, q) = inr (od', q ++ filter (hits_zero od) B) /\
      dict_keys od' = dict_keys od /\
      forall d, dict_get d od' =
                if set_mem d B
                then option_map (fun n => (n - 1)%Z) (dict_get d od)
                else dict_get d od.
Proof.
  induction B as [|b B IH]; intros od q Hnd Hin.
  - exists od. simpl. rewrite app_nil_r. repeat split.
  - inversion Hnd as [|? ? Hn Hd]; subst.
    assert (Hb : dict_contains b od = true) by (apply Hin; now left).
    unfold dict_contains in Hb.
    destruct (dict_get b od) as [n|] eqn:G; [|discriminate].
    assert (Hother : forall d, set_mem d B = true ->
              dict_get d (dict_set b (n - 1)%Z od) = dict_get d od).
    { intros d Hd'. rewrite dict_get_set.
      destruct (task_eqb d b) eqn:E; [|reflexivity].
      exfalso. apply Hn. apply set_mem_in_ids.
      now rewrite <- (set_mem_congr d b B E). }
    destruct (IH (dict_set b (n - 1)%Z od)
                 (if (n - 1 =? 0)%Z then q ++ [b] else q) Hd)
      as (od' & HR & HK & HG).
    { intros d Hd'. unfold dict_contains.
      rewrite Hother by now apply set_mem_in.
      apply Hin. now right. }
    exists od'. split; [|split].
    + cbn [relax_all]. unfold relax. rewrite G. rewrite HR. f_equal. f_equal.
      assert (HF : filter (hits_zero (dict_set b (n - 1)%Z od)) B
                   = filter (hits_zero od) B).
      { apply filter_ext_in. intros d Hd'. unfold hits_zero.
        rewrite Hother by now apply set_mem_in. reflexivity. }
      rewrite HF. simpl. unfold hits_zero at 2. rewrite G.
      destruct (n - 1 =? 0)%Z; [|reflexivity].
      now rewrite <- app_assoc.
    + rewrite HK. apply dict_set_keys. congruence.
    + intros d. rewrite HG, set_mem_cons, dict_get_set.
      destruct (task_eqb d b) eqn:E; simpl.
      * assert (HdB : set_mem d B = false).
        { rewrite (set_mem_congr d b B E). now apply set_mem_false_ids. }
        rewrite HdB. rewrite (dict_get_congr d b od E), G. reflexivity.
      * reflexivity.
Qed.

(** ** The units Kahn's algorithm never processes *)

Lemma deps_of_congr (w : World) (a b : Task) :
  task_eqb a b = true -> deps_of w a = deps_of w b.
Proof. apply bucket_congr. Qed.

Lemma remaining_congr (w : World) (done : list Task) (a b : Task) :
  task_eqb a b = true -> remaining w done a = remaining w done b.
Proof. intros E. unfold remaining. now rewrite (deps_of_congr w a b E). Qed.

Lemma remaining_nonneg (w : World) (done : list Task) (d : Task) :
  (0 <= remaining w done d)%Z.
Proof. unfold remaining. lia. Qed.

Lemma remaining_positive (w : World) (done : list Task) (d r : Task) :
  In r (deps_of w d) -> set_mem r done = false ->
  (1 <= remaining w done d)%Z.
Proof.
  intros Hin Hr. unfold remaining.
  assert (H : In r (filter (fun x => negb (set_mem x done)) (deps_of w d))).
  { apply filter_In. split; [assumption|]. now rewrite Hr. }
  destruct (filter _ (deps_of w d)); [contradiction|]. simpl. lia.
Qed.

Lemma filter_step (t : Task) (done L : list Task) :
  NoDup (ids L) -> set_mem t done = false ->
  List.length (filter (fun x => negb (set_mem x (done ++ [t]))) L)
  + (if set_mem t L then 1 else 0)
  = List.length (filter (fun x => negb (set_mem x done)) L).
Proof.
  intros Hnd Ht. induction L as [|x L IH]; [reflexivity|].
  inversion Hnd as [|? ? Hn Hd]; subst. specialize (IH Hd).
  cbn [filter]. rewrite set_mem_app, set_mem_cons.
  unfold set_mem at 2. simpl. rewrite orb_false_r.
  destruct (task_eqb x t) eqn:E.
  - rewrite (set_mem_congr x t done E), Ht. simpl.
    rewrite (task_eqb_sym t x), E. simpl.
    assert (HtL : set_mem t L = false).
    { rewrite task_eqb_sym in E. rewrite (set_mem_congr t x L E).
      now apply set_mem_false_ids. }
    rewrite HtL in IH. lia.
  - rewrite orb_false_r. rewrite (task_eqb_sym t x), E. simpl.
    destruct (set_mem x done); simpl; lia.
Qed.

Lemma remaining_step (w : World) (t : Task) (done : list Task) (d : Task) :
  NoDup (ids (deps_of w d)) -> set_mem t done = false ->
  remaining w (done ++ [t]) d =
  (remaining w done d - (if set_mem t (deps_of w d) then 1 else 0))%Z.
Proof.
  intros Hnd Ht. unfold remaining.
  pose proof (filter_step t done (deps_of w d) Hnd Ht) as H.
  destruct (set_mem t (deps_of w d)); lia.
Qed.

Lemma filter_all {A} (f : A -> bool) (l : list A) :
  (forall x, f x = true) -> filter f l = l.
Proof.
  intros H. induction l as [|x l IH]; simpl; [reflexivity|].
  now rewrite H, IH.
Qed.

Lemma NoDup_keys_filter {V} (g : Task * V -> bool) (d : TaskDict V) :
  NoDup (ids (dict_keys d)) -> NoDup (ids (dict_keys (filter g d))).
Proof.
  unfold dict_keys. induction d as [|kv d IH]; simpl; [trivial|].
  intros H. inversion H as [|? ? Hn Hd]; subst.
  destruct (g kv); [|now apply IH]. simpl. constructor; [|now apply IH].
  intros Hin. apply Hn. unfold ids in *. rewrite map_map in *.
  apply in_map_iff in Hin. destruct Hin as (y & Hy & Hin).
  apply filter_In in Hin. apply in_map_iff. exists y. tauto.
Qed.

Lemma registered_in_keys (w : World) (t : Task) :
  dict_contains t (task_to_dependencies w) = true ->
  In (task_id t) (ids (dict_keys (task_to_dependencies w))).
Proof. rewrite dict_contains_keys. apply set_mem_in_ids. Qed.

Section Kahn.
Variable w : World.
Variable U : list Task.
Hypothesis Hok : graph_ok w.
Hypothesis Hstuck : Forall (stuck_in w U) U.

(** A stuck unit always has a prerequisite left. *)
Lemma stuck_remaining (done : list Task) (s : Task) :
  In s U ->
  (forall t, In t done -> dict_contains t (task_to_dependencies w) = true) ->
  (forall x, In x U -> set_mem x done = false) ->
  (1 <= remaining w done s)%Z.
Proof.
  intros Hs Hreg Hdis.
  rewrite Forall_forall in Hstuck.
  destruct (Hstuck s Hs) as (_ & r & Hr & Hcase).
  apply (remaining_positive w done s r Hr).
  destruct (set_mem r done) eqn:E; [exfalso|reflexivity].
  apply set_mem_true in E. destruct E as (z & Hz & Hid).
  assert (Ezr : task_eqb z r = true) by now apply task_eqb_eq.
  destruct Hcase as [Hun|HrS].
  - rewrite <- (dict_contains_congr z r _ Ezr) in Hun.
    rewrite (Hreg z Hz) in Hun. discriminate.
  - apply set_mem_true in HrS. destruct HrS as (s' & Hs' & Hid').
    specialize (Hdis s' Hs').
    apply set_mem_false_ids in Hdis. apply Hdis.
    rewrite Hid', <- Hid. unfold ids. now apply in_map.
Qed.

Lemma kahn_inv_initial :
  kahn_inv w U [] (out_degree_of (task_to_dependencies w)) (initial_queue (out_degree_of (task_to_dependencies w))).
Proof.
  pose proof (keys_distinct w Hok) as Hkeys.
  assert (Hq : forall t, In t (initial_queue (out_degree_of (task_to_dependencies w))) ->
             In (t, 0%Z) (out_degree_of (task_to_dependencies w))).
  { intros t Ht. unfold initial_queue in Ht. apply in_map_iff in Ht.
    destruct Ht as ([k v] & <- & Hf). apply filter_In in Hf.
    destruct Hf as (Hin & Hv). simpl in *. apply Z.eqb_eq in Hv.
    now subst v. }
  assert (Hdeg : forall d, dict_contains d (task_to_dependencies w) = true ->
             dict_get d (out_degree_of (task_to_dependencies w)) = Some (remaining w [] d)).
  { intros d Hd. rewrite out_degree_get. unfold remaining, deps_of, bucket.
    unfold dict_contains in Hd.
    destruct (dict_get d (task_to_dependencies w)) as [s|]; [|discriminate]. simpl.
    do 3 f_equal. symmetry. now apply filter_all. }
  assert (Hcont : forall t, In t (initial_queue (out_degree_of (task_to_dependencies w))) ->
             dict_contains t (task_to_dependencies w) = true).
  { intros t Ht. rewrite dict_contains_keys, <- out_degree_keys.
    apply set_mem_in. apply Hq in Ht.
    unfold dict_keys. apply in_map_iff. now exists (t, 0%Z). }
  assert (Hzero : forall t, In t (initial_queue (out_degree_of (task_to_dependencies w))) ->
             remaining w [] t = 0%Z).
  { intros t Ht. pose proof (Hdeg t (Hcont t Ht)) as Hg.
    rewrite (dict_get_in_nodup t 0%Z (out_degree_of (task_to_dependencies w))) in Hg.
    - now injection Hg.
    - now rewrite out_degree_keys.
    - now apply Hq. }
  constructor; simpl.
  - unfold initial_queue. apply NoDup_keys_filter.
    now rewrite out_degree_keys.
  - assumption.
  - apply out_degree_keys.
  - assumption.
  - assumption.
  - intros s Hs. destruct (set_mem s _) eqn:E; [exfalso|reflexivity].
    apply set_mem_true in E. destruct E as (y & Hy & Hid).
    assert (Eys : task_eqb y s = true) by now apply task_eqb_eq.
    pose proof (Hzero y Hy) as Hz.
    rewrite (remaining_congr w [] y s Eys) in Hz.
    pose proof (stuck_remaining [] s Hs) as Hp.
    assert ((1 <= remaining w [] s)%Z)
      by (apply Hp; [intros ? []|reflexivity]).
    lia.
Qed.
End Kahn.

Section KahnLoop.
Variable w : World.
Variable U : list Task.
Hypothesis Hok : graph_ok w.
Hypothesis Hstuck : Forall (stuck_in w U) U.

Lemma kahn_inv_step (done : list Task) (od : TaskDict Z) (t : Task)
    (q : list Task) :
  kahn_inv w U done od (t :: q) ->
  exists od',
    relax_all (dependents_of w t) (od, q) =
      inr (od', q ++ filter (hits_zero od) (dependents_of w t)) /\
    kahn_inv w U (done ++ [t]) od'
             (q ++ filter (hits_zero od) (dependents_of w t)).
Proof.
  intros [Hnd Hreg Hkeys Hdeg Hzero Hst].
  set (B := dependents_of w t).
  set (new := filter (hits_zero od) B).
  set (L := done ++ t :: q) in *.
  assert (HL : (done ++ [t]) ++ q ++ new = L ++ new).
  { subst L. rewrite <- !app_assoc. reflexivity. }
  assert (Htd : set_mem t done = false).
  { apply set_mem_false_ids. subst L. unfold ids in Hnd.
    rewrite map_app in Hnd. simpl in Hnd.
    apply NoDup_remove_2 in Hnd. intros Hin. apply Hnd.
    apply in_or_app. now left. }
  assert (HBreg : forall d, set_mem d B = true ->
             dict_contains d (task_to_dependencies w) = true).
  { intros d Hd. now apply (dependents_registered w Hok t). }
  assert (Hcont : forall d, dict_contains d od
                            = dict_contains d (task_to_dependencies w)).
  { intros d. now rewrite !dict_contains_keys, Hkeys. }
  destruct (relax_all_spec B od q (dependents_distinct w Hok t))
    as (od' & HR & HK & HG).
  { intros d Hd. rewrite Hcont. apply HBreg. now apply set_mem_in. }
  exists od'. split; [exact HR|].
  assert (Hnew : forall x, In x new ->
             set_mem x B = true /\ remaining w done x = 1%Z).
  { intros x Hx. subst new. apply filter_In in Hx. destruct Hx as (HxB & Hh).
    apply set_mem_in in HxB. split; [assumption|].
    unfold hits_zero in Hh. rewrite (Hdeg x (HBreg x HxB)) in Hh.
    apply Z.eqb_eq in Hh. lia. }
  assert (Hdeg' : forall d, dict_contains d (task_to_dependencies w) = true ->
             dict_get d od' = Some (remaining w (done ++ [t]) d)).
  { intros d Hd. rewrite HG, (Hdeg d Hd).
    rewrite (remaining_step w t done d (deps_distinct w Hok d) Htd).
    fold B. unfold B. rewrite (edges_agree w Hok t d Hd).
    destruct (set_mem t (deps_of w d)); simpl; do 2 f_equal; lia. }
  assert (Hzero' : forall x, In x (L ++ new) ->
             remaining w (done ++ [t]) x = 0%Z).
  { intros x Hx.
    rewrite (remaining_step w t done x (deps_distinct w Hok x) Htd).
    apply in_app_or in Hx. destruct Hx as [Hx|Hx].
    - pose proof (Hzero x Hx) as Hz.
      pose proof (remaining_nonneg w (done ++ [t]) x) as Hp.
      rewrite (remaining_step w t done x (deps_distinct w Hok x) Htd) in Hp.
      destruct (set_mem t (deps_of w x)); lia.
    - destruct (Hnew x Hx) as (HxB & Hone).
      unfold B in HxB. rewrite (edges_agree w Hok t x (HBreg x HxB)) in HxB.
      rewrite HxB, Hone. reflexivity. }
  assert (Hreg' : forall x, In x (L ++ new) ->
             dict_contains x (task_to_dependencies w) = true).
  { intros x Hx. apply in_app_or in Hx. destruct Hx as [Hx|Hx].
    - now apply Hreg.
    - now apply HBreg, Hnew. }
  constructor; rewrite ?HL.
  - unfold ids. rewrite map_app. apply NoDup_app.
    + exact Hnd.
    + apply NoDup_ids_filter. apply (dependents_distinct w Hok t).
    + intros a Ha Hb. apply in_map_iff in Ha. destruct Ha as (y & <- & Hy).
      apply in_map_iff in Hb. destruct Hb as (x & Hid & Hx).
      assert (E : task_eqb x y = true) by now apply task_eqb_eq.
      pose proof (Hzero y Hy) as Hz.
      destruct (Hnew x Hx) as (_ & Hone).
      rewrite (remaining_congr w done x y E) in Hone. lia.
  - exact Hreg'.
  - now rewrite HK.
  - exact Hdeg'.
  - exact Hzero'.
  - intros s Hs. destruct (set_mem s (L ++ new)) eqn:E; [exfalso|reflexivity].
    apply set_mem_true in E. destruct E as (y & Hy & Hid).
    assert (Eys : task_eqb y s = true) by now apply task_eqb_eq.
    pose proof (Hzero' y Hy) as Hz.
    rewrite (remaining_congr w _ y s Eys) in Hz.
    assert (Hp : (1 <= remaining w (done ++ [t]) s)%Z).
    { apply (stuck_remaining w U Hstuck); [assumption| |].
      - intros x Hx. apply Hreg. subst L. apply in_app_or in Hx.
        apply in_or_app. destruct Hx as [Hx|[<-|[]]]; [now left|].
        right. now left.
      - intros x Hx. specialize (Hst x Hx). subst L.
        rewrite set_mem_app in *. rewrite set_mem_cons in Hst.
        unfold set_mem at 2. simpl.
        destruct (set_mem x done), (task_eqb x t); simpl in *;
          congruence. }
    lia.
Qed.

Lemma kahn_loop_stuck (fuel : nat) :
  forall dd done od q res dd',
    U <> [] ->
    (forall k, bucket k dd = dependents_of w k) ->
    kahn_inv w U done od q ->
    kahn_loop fuel dd od q (List.length done) = Some (res, dd') ->
    (exists m, res = inr m /\ m < List.length (task_to_dependencies w)) /\
    (forall k, bucket k dd' = dependents_of w k).
Proof.
  induction fuel as [|fuel IH]; intros dd done od q res dd' HS Hdd Hinv;
    [discriminate|].
  cbn [kahn_loop]. destruct q as [|t q].
  - intros [= <- <-]. split; [|assumption].
    exists (List.length done). split; [reflexivity|].
    destruct U as [|s U'] eqn:ES; [congruence|]. rewrite <- ES in *.
    assert (Hs : In s U) by (rewrite ES; now left).
    destruct Hinv as [Hnd Hreg _ _ _ Hst]. rewrite app_nil_r in *.
    rewrite Forall_forall in Hstuck. destruct (Hstuck s Hs) as (Hsreg & _).
    assert (Hlen : List.length (task_id s :: ids done)
                   <= List.length (ids (dict_keys (task_to_dependencies w)))).
    { apply NoDup_incl_length.
      - constructor; [|assumption]. now apply set_mem_false_ids, Hst.
      - intros a [<-|Ha]; [now apply registered_in_keys|].
        unfold ids in Ha. apply in_map_iff in Ha.
        destruct Ha as (y & <- & Hy). now apply registered_in_keys, Hreg. }
    unfold ids, dict_keys in Hlen. simpl in Hlen.
    rewrite !length_map in Hlen. lia.
  - pose proof (defaultdict_get_fst t dd) as Hf.
    pose proof (fun k => defaultdict_get_bucket t k dd) as Hb.
    destruct (defaultdict_get t dd) as [B dd1]. simpl in Hf, Hb.
    rewrite Hdd in Hf. subst B.
    destruct (kahn_inv_step done od t q Hinv) as (od' & HR & Hinv').
    rewrite HR. intros Hloop.
    apply (IH dd1 (done ++ [t]) od'
             (q ++ filter (hits_zero od) (dependents_of w t)) res dd' HS).
    + intros k. now rewrite Hb.
    + exact Hinv'.
    + rewrite length_app. simpl. now rewrite Nat.add_1_r.
Qed.

(** With a stuck set, the cycle check answers [True]. *)
Lemma has_cycles_stuck :
  U <> [] ->
  exists w', has_cycles w = Ok true w' /\
             heap w' = heap w /\
             task_to_dependencies w' = task_to_dependencies w /\
             trace w' = trace w.
Proof.
  intros HS. unfold has_cycles.
  pose proof (has_cycles_fuel w) as Hfuel.
  destruct (kahn_loop _ _ _ _ 0) as [[res dd']|] eqn:E; [|congruence].
  destruct (kahn_loop_stuck _ _ [] _ _ res dd' HS (fun k => eq_refl)
              (kahn_inv_initial w U Hok Hstuck) E) as ((m & -> & Hm) & _).
  exists (mkWorld (heap w) (task_to_dependencies w) dd' (trace w)).
  split; [|repeat split].
  replace (negb (Nat.eqb m (List.length (task_to_dependencies w)))) with true;
    [reflexivity|].
  symmetry. apply negb_true_iff, Nat.eqb_neq. lia.
Qed.
End KahnLoop.

(** ** The graph built by [schedule] *)

Lemma distinct_ids_NoDup (l : list Task) :
  distinct_ids l = true -> NoDup (ids l).
Proof.
  induction l as [|x l IH]; simpl; [constructor|].
  intros H. apply andb_true_iff in H. destruct H as (Hx & Hl).
  constructor; [|now apply IH].
  apply set_mem_false_ids. now apply negb_true_iff.
Qed.

Lemma bucket_in (k : Task) (d : TaskDict TaskSet) (x : Task) :
  In x (bucket k d) ->
  exists k' s, In (k', s) d /\ task_eqb k' k = true /\ bucket k d = s.
Proof.
  unfold bucket. destruct (dict_get k d) as [s|] eqn:G; [|contradiction].
  intros _. destruct (dict_get_some_in _ _ _ G) as (k' & Hin & Hid).
  exists k', s. repeat split; [assumption|]. now apply task_eqb_eq.
Qed.

Lemma bucket_contains (k : Task) (d : TaskDict TaskSet) (x : Task) :
  In x (bucket k d) -> dict_contains k d = true.
Proof.
  unfold bucket, dict_contains. now destruct (dict_get k d).
Qed.

Lemma bool_eq_iff (a b : bool) : (a = true <-> b = true) -> a = b.
Proof. destruct a, b; intuition congruence. Qed.

Lemma graph_okb_sound (w : World) : graph_okb w = true -> graph_ok w.
Proof.
  unfold graph_okb. rewrite !andb_true_iff, !forallb_forall.
  intros ((HK & HD) & HE).
  assert (HD' : forall k ds, In (k, ds) (task_to_dependencies w) ->
            distinct_ids ds = true /\
            forall p, In p ds -> set_mem k (dependents_of w p) = true).
  { intros k ds Hin. specialize (HD _ Hin). simpl in HD.
    apply andb_true_iff in HD. rewrite forallb_forall in HD. exact HD. }
  assert (HE' : forall p s, In (p, s) (task_to_dependents w) ->
            distinct_ids s = true /\
            forall d, In d s ->
                      dict_contains d (task_to_dependencies w) = true /\
                      set_mem p (deps_of w d) = true).
  { intros p s Hin. specialize (HE _ Hin). simpl in HE.
    apply andb_true_iff in HE. rewrite forallb_forall in HE.
    destruct HE as (H1 & H2). split; [assumption|].
    intros d Hd. now apply andb_true_iff, H2. }
  clear HD HE.
  assert (Hfwd : forall p d, set_mem d (dependents_of w p) = true ->
            dict_contains d (task_to_dependencies w) = true /\
            set_mem p (deps_of w d) = true).
  { intros p d Hd. apply set_mem_true in Hd. destruct Hd as (x & Hx & Hid).
    assert (Exd : task_eqb x d = true) by now apply task_eqb_eq.
    destruct (bucket_in _ _ _ Hx) as (k' & s & Hin & Ek & Hs).
    unfold dependents_of in Hx. rewrite Hs in Hx.
    destruct (HE' _ _ Hin) as (_ & H2). destruct (H2 x Hx) as (Hc & Hm).
    rewrite <- (dict_contains_congr x d _ Exd).
    rewrite <- (deps_of_congr w x d Exd).
    now rewrite <- (set_mem_congr k' p _ Ek). }
  constructor.
  - now apply distinct_ids_NoDup.
  - intros d. unfold deps_of, bucket.
    destruct (dict_get d (task_to_dependencies w)) as [ds|] eqn:G;
      [|constructor].
    destruct (dict_get_some_in _ _ _ G) as (k' & Hin & _).
    now apply distinct_ids_NoDup, (HD' k').
  - intros p. unfold dependents_of, bucket.
    destruct (dict_get p (task_to_dependents w)) as [s|] eqn:G;
      [|constructor].
    destruct (dict_get_some_in _ _ _ G) as (k' & Hin & _).
    now apply distinct_ids_NoDup, (HE' k').
  - intros p d Hd. now apply (Hfwd p d).
  - intros p d Hreg. apply bool_eq_iff. split.
    + intros Hd. now apply (Hfwd p d).
    + intros Hp. apply set_mem_true in Hp. destruct Hp as (x & Hx & Hid).
      assert (Exp : task_eqb x p = true) by now apply task_eqb_eq.
      destruct (bucket_in _ _ _ Hx) as (k' & ds & Hin & Ek & Hs).
      unfold deps_of in Hx. rewrite Hs in Hx.
      destruct (HD' _ _ Hin) as (_ & H2). specialize (H2 x Hx).
      unfold dependents_of in *.
      rewrite <- (bucket_congr x p _ Exp).
      now rewrite <- (set_mem_congr k' d _ Ek).
Qed.

Lemma set_add_NoDup (t : Task) (s : TaskSet) :
  NoDup (ids s) -> NoDup (ids (set_add t s)).
Proof.
  intros H. unfold set_add. destruct (set_mem t s) eqn:E; [assumption|].
  unfold ids. rewrite map_app. simpl. apply NoDup_app.
  - exact H.
  - constructor; [intros []|constructor].
  - intros a Ha [<-|[]]. apply set_mem_false_ids in E. now apply E.
Qed.

Lemma set_of_NoDup (l : list Task) : NoDup (ids (set_of l)).
Proof.
  unfold set_of.
  assert (H : forall acc, NoDup (ids acc) ->
            NoDup (ids (fold_left (fun s t => set_add t s) l acc))).
  { induction l as [|x l IH]; intros acc Hacc; simpl; [assumption|].
    apply IH. now apply set_add_NoDup. }
  apply H. constructor.
Qed.

Lemma dict_set_keys_fresh {V} (k : Task) (v : V) (d : TaskDict V) :
  dict_contains k d = false -> dict_keys (dict_set k v d) = dict_keys d ++ [k].
Proof.
  unfold dict_contains, dict_keys.
  induction d as [|[x y] d IH]; simpl; [reflexivity|].
  destruct (task_eqb k x); [discriminate|]. intros H. simpl. now rewrite IH.
Qed.

Lemma add_dependents_distinct (deps : list Task) (task : Task) (w : World) :
  (forall q, NoDup (ids (dependents_of w q))) ->
  forall q, NoDup (ids (dependents_of (add_dependents deps task w) q)).
Proof.
  revert w. induction deps as [|p deps IH]; intros w H; [assumption|].
  rewrite add_dependents_cons. apply IH. intros q.
  destruct (add_dependent_world p task w) as (_ & _ & _ & Hq). rewrite Hq.
  destruct (task_eqb q p); [|apply H]. apply set_add_NoDup, H.
Qed.

Lemma schedule_preserves_graph_ok (task : Task) (w w' : World) :
  graph_ok w -> schedule task w = Ok tt w' -> graph_ok w'.
Proof.
  intros [HK HD HE HR HA] Hs.
  destruct (dict_contains task (task_to_dependencies w)) eqn:Hc.
  { unfold schedule, bind, is_registered in Hs. rewrite Hc in Hs.
    discriminate. }
  rewrite (schedule_fresh_eq task w Hc) in Hs.
  set (l := dependencies (obj w task)) in Hs.
  set (w0 := world_of (set_dependencies_entry task (set_of l) _)) in Hs.
  injection Hs as <-.
  destruct (add_dependents_world l task w0) as (_ & Hd & _ & Hq).
  cbv zeta in Hd, Hq.
  assert (Hdeps : task_to_dependencies (add_dependents l task w0)
                  = dict_set task (set_of l) (task_to_dependencies w))
    by (rewrite Hd; reflexivity).
  assert (Hdo : forall d, deps_of (add_dependents l task w0) d =
                          if task_eqb d task then set_of l else deps_of w d).
  { intros d. unfold deps_of. rewrite Hdeps. apply bucket_set. }
  assert (Hco : forall d, dict_contains d (task_to_dependencies
                                             (add_dependents l task w0)) =
                          task_eqb d task
                          || dict_contains d (task_to_dependencies w)).
  { intros d. rewrite Hdeps. unfold dict_contains. rewrite dict_get_set.
    now destruct (task_eqb d task). }
  assert (Hmem : forall q d, set_mem d (dependents_of (add_dependents l task w0) q)
                 = set_mem d (dependents_of w q)
                   || (task_eqb d task && set_mem q l))
    by (intros q d; now rewrite Hq).
  constructor.
  - rewrite Hdeps, (dict_set_keys_fresh _ _ _ Hc). unfold ids.
    rewrite map_app. simpl. apply NoDup_app.
    + exact HK.
    + constructor; [intros []|constructor].
    + intros a Ha [<-|[]].
      rewrite dict_contains_keys in Hc. apply set_mem_false_ids in Hc.
      now apply Hc.
  - intros d. rewrite Hdo. destruct (task_eqb d task); [|apply HD].
    apply set_of_NoDup.
  - apply add_dependents_distinct. exact HE.
  - intros q d. rewrite Hmem, Hco. intros H.
    apply orb_true_iff in H. destruct H as [H|H].
    + rewrite (HR q d H). apply orb_true_r.
    + apply andb_true_iff in H. destruct H as (-> & _). reflexivity.
  - intros q d. rewrite Hmem, Hco, Hdo.
    destruct (task_eqb d task) eqn:E; simpl.
    + intros _. rewrite set_mem_set_of.
      destruct (set_mem d (dependents_of w q)) eqn:M; [|reflexivity].
      apply HR in M. rewrite (dict_contains_congr d task _ E) in M.
      congruence.
    + intros Hreg. rewrite orb_false_r. now apply HA.
Qed.

Lemma new_scheduler_graph_ok (h : nat -> TaskObj) : graph_ok (new_scheduler h).
Proof.
  constructor; simpl; try (intros; constructor); try discriminate.
Qed.

Lemma for_each_schedule_graph_ok (tasks : list Task) (w w' : World) :
  graph_ok w -> for_each tasks schedule w = Ok tt w' -> graph_ok w'.
Proof.
  revert w. induction tasks as [|t tasks IH]; intros w Hok.
  - unfold for_each. simpl. unfold ret. now intros [= <-].
  - unfold for_each in *. simpl. unfold bind at 1.
    destruct (schedule t w) as [[] w1|e w1] eqn:Hs; [|discriminate].
    apply IH. now apply (schedule_preserves_graph_ok t w).
Qed.

(** Every scheduler built by registering units has a well-formed graph. *)
Lemma scheduler_init_graph_ok (h : nat -> TaskObj) (tasks : list Task) (w : World) :
  scheduler_init h tasks = Ok tt w -> graph_ok w.
Proof.
  apply for_each_schedule_graph_ok, new_scheduler_graph_ok.
Qed.

(** ** Cycles and missing prerequisites *)

Lemma is_path_next (w : World) (z : Task) (l : list Task) :
  is_path w (l ++ [z]) = true ->
  forall x, In x l ->
            exists y, In y (l ++ [z]) /\ set_mem y (deps_of w x) = true.
Proof.
  induction l as [|a l IH]; [intros _ x []|].
  intros Hp x Hx. destruct l as [|b l].
  - simpl in Hp. rewrite andb_true_r in Hp. destruct Hx as [<-|[]].
    exists z. split; [right; now left|assumption].
  - cbn [app is_path] in Hp. apply andb_true_iff in Hp.
    destruct Hp as (Hab & Hp). destruct Hx as [<-|Hx].
    + exists b. split; [right; now left|assumption].
    + destruct (IH Hp x Hx) as (y & Hy & Hm).
      exists y. split; [now right|assumption].
Qed.

Lemma has_prerequisite_registered (w : World) (x y : Task) :
  set_mem y (deps_of w x) = true ->
  dict_contains x (task_to_dependencies w) = true.
Proof.
  intros H. apply set_mem_true in H. destruct H as (r & Hr & _).
  now apply (bucket_contains x _ r).
Qed.

Lemma cycle_is_stuck (w : World) (c : list Task) :
  is_cycle w c = true -> c <> [] /\ Forall (stuck_in w c) c.
Proof.
  destruct c as [|a c]; [discriminate|]. unfold is_cycle. intros Hp.
  split; [discriminate|]. apply Forall_forall. intros x Hx.
  destruct (is_path_next w a (a :: c) Hp x Hx) as (y & Hy & Hm).
  split; [now apply (has_prerequisite_registered w x y)|].
  pose proof Hm as Hm'. apply set_mem_true in Hm'.
  destruct Hm' as (r & Hr & Hid).
  exists r. split; [assumption|]. right.
  assert (Ery : task_eqb r y = true) by now apply task_eqb_eq.
  rewrite (set_mem_congr r y _ Ery). apply set_mem_in.
  apply in_app_or in Hy. destruct Hy as [Hy|[<-|[]]]; [assumption|now left].
Qed.

Lemma missing_prerequisite_is_stuck (w : World) (d p : Task) :
  dict_contains d (task_to_dependencies w) = true ->
  set_mem p (deps_of w d) = true ->
  dict_contains p (task_to_dependencies w) = false ->
  [d] <> [] /\ Forall (stuck_in w [d]) [d].
Proof.
  intros Hd Hp Hun. split; [discriminate|].
  constructor; [|constructor]. split; [assumption|].
  apply set_mem_true in Hp. destruct Hp as (r & Hr & Hid).
  exists r. split; [assumption|]. left.
  assert (Erp : task_eqb r p = true) by now apply task_eqb_eq.
  now rewrite (dict_contains_congr r p _ Erp).
Qed.

Lemma resume_new_stuck (w : World) (U : list Task) :
  graph_ok w -> U <> [] -> Forall (stuck_in w U) U ->
  exists w',
    resume ready_tasks w =
      (Throws (SchedulingException CircularDependencies), GDone, w') /\
    heap w' = heap w /\
    task_to_dependencies w' = task_to_dependencies w.
Proof.
  intros Hok HU Hst.
  destruct (has_cycles_stuck w U Hok Hst HU) as (w' & Hc & Hh & Hd & _).
  exists w'. unfold ready_tasks, resume. rewrite Hc. tauto.
Qed.

Lemma has_cycles_counts (w : World) (b : bool) (w' : World) :
  has_cycles w = Ok b w' ->
  exists processed_count dd,
    kahn_loop (S (List.length (out_degree_of (task_to_dependencies w))))
              (task_to_dependents w)
              (out_degree_of (task_to_dependencies w))
              (initial_queue (out_degree_of (task_to_dependencies w))) 0
      = Some (inr processed_count, dd) /\
    (b = true <-> processed_count <> List.length (task_to_dependencies w)).
Proof.
  unfold has_cycles.
  destruct (kahn_loop _ _ _ _ 0) as [[[e|n] dd]|]; try discriminate.
  intros [= <- _]. exists n, dd. split; [reflexivity|].
  rewrite negb_true_iff. apply Nat.eqb_neq.
Qed.

(** C7. In a graph built by [schedule] that has a dependency cycle, the
    first [next] on the readiness iterator raises the [SchedulingException]
    whose text mentions circular dependencies. The check is the loop of
    [has_cycles], started from the units with no prerequisite, and it
    answers [True] exactly when the number of processed units differs from
    the number of registered units. *)
Theorem cycle_raises_on_first_use (w : World) (c : list Task) :
  graph_ok w ->
  is_cycle w c = true ->
  (exists w',
      resume ready_tasks w =
        (Throws (SchedulingException CircularDependencies), GDone, w') /\
      heap w' = heap w) /\
  mentions_circular (SchedulingException CircularDependencies) = true /\
  (forall b w', has_cycles w = Ok b w' ->
     exists processed_count dd,
       kahn_loop (S (List.length (out_degree_of (task_to_dependencies w))))
                 (task_to_dependents w)
                 (out_degree_of (task_to_dependencies w))
                 (initial_queue (out_degree_of (task_to_dependencies w))) 0
         = Some (inr processed_count, dd) /\
       (b = true <-> processed_count <> List.length (task_to_dependencies w))).
Proof.
  intros Hok Hc. destruct (cycle_is_stuck w c Hc) as (Hne & Hst).
  split; [|split].
  - destruct (resume_new_stuck w c Hok Hne Hst) as (w' & Hr & Hh & _).
    now exists w'.
  - reflexivity.
  - apply has_cycles_counts.
Qed.

Lemma cycle_raises_on_first_use_witness :
  is_cycle cycle_world [unit_a; unit_c; unit_b] = true /\
  exists w',
    resume ready_tasks cycle_world =
      (Throws (SchedulingException CircularDependencies), GDone, w') /\
    heap w' = heap cycle_world.
Proof.
  split; [reflexivity|].
  apply (cycle_raises_on_first_use cycle_world [unit_a; unit_c; unit_b]).
  - apply graph_okb_sound. reflexivity.
  - reflexivity.
Defined.

(** C10. In a graph built by [schedule] where a registered unit has a
    prerequisite that is not registered, the first [next] on the readiness
    iterator raises the [SchedulingException] about circular dependencies,
    whether or not the graph has a cycle. *)
Theorem unregistered_prerequisite_raises (w : World) (d p : Task) :
  graph_ok w ->
  dict_contains d (task_to_dependencies w) = true ->
  set_mem p (deps_of w d) = true ->
  dict_contains p (task_to_dependencies w) = false ->
  exists w',
    resume ready_tasks w =
      (Throws (SchedulingException CircularDependencies), GDone, w') /\
    heap w' = heap w.
Proof.
  intros Hok Hd Hp Hun.
  destruct (missing_prerequisite_is_stuck w d p Hd Hp Hun) as (Hne & Hst).
  destruct (resume_new_stuck w [d] Hok Hne Hst) as (w' & Hr & Hh & _).
  now exists w'.
Qed.

Lemma unregistered_prerequisite_raises_witness :
  (forall c, is_cycle dangling_world c = false) /\
  exists w',
    resume ready_tasks dangling_world =
      (Throws (SchedulingException CircularDependencies), GDone, w') /\
    heap w' = heap dangling_world.
Proof.
  split.
  - intros [|x c]; [reflexivity|].
    destruct (is_cycle dangling_world (x :: c)) eqn:E; [exfalso|reflexivity].
    unfold is_cycle in E.
    assert (H : forall l, is_path dangling_world l = true ->
              Datatypes.length l <= 2).
    { intros l. destruct l as [|a [|b [|b' l]]]; simpl; try lia.
      unfold deps_of, bucket. simpl.
      destruct (task_eqb a unit_b); simpl; try discriminate.
      rewrite orb_false_r. destruct (task_eqb b unit_a) eqn:Eb; simpl;
        try discriminate.
      assert (Hbb : task_eqb b unit_b = false).
      { apply task_eqb_eq in Eb. unfold task_eqb. rewrite Eb. reflexivity. }
      rewrite Hbb. simpl. discriminate. }
    specialize (H _ E). destruct c as [|y c]; simpl in *.
    + unfold deps_of, bucket in E. simpl in E.
      destruct (task_eqb x unit_b) eqn:Ex; simpl in E; try discriminate.
      rewrite !orb_false_r, andb_true_r in E.
      apply task_eqb_eq in Ex, E. simpl in *. congruence.
    + rewrite length_app in H. simpl in H. lia.
  - apply (unregistered_prerequisite_raises dangling_world unit_b unit_a);
      try reflexivity.
    apply graph_okb_sound. reflexivity.
Defined.

(** ** Scheduler.ready_tasks *)

Lemma status_eqb_eq (a b : TaskStatus) : status_eqb a b = true <-> a = b.
Proof. destruct a, b; simpl; split; congruence. Qed.

Lemma collect_ready_spec (w : World) (t : Task) :
  In t (collect_ready w) <-> ready w t.
Proof.
  unfold collect_ready, ready, all_dependencies_completed. split.
  - intros H. apply in_map_iff in H. destruct H as ([k ds] & <- & H).
    apply filter_In in H. destruct H as (Hin & Hb). simpl in *.
    apply andb_true_iff in Hb. destruct Hb as (Hs & Hd).
    exists ds. split; [assumption|]. split; [now apply status_eqb_eq|].
    now apply forallb_forall.
  - intros (ds & Hin & Hs & Hd). apply in_map_iff. exists (t, ds).
    split; [reflexivity|]. apply filter_In. split; [assumption|]. simpl.
    apply andb_true_iff. split; [now apply status_eqb_eq|].
    now apply forallb_forall.
Qed.

Lemma has_pending_tasks_false (w : World) :
  has_pending_tasks w = false <-> no_pending w.
Proof.
  unfold has_pending_tasks, no_pending. split.
  - intros H t Ht Hs.
    assert (E : existsb (fun task => status_eqb (status (obj w task)) PENDING)
                        (dict_keys (task_to_dependencies w)) = true).
    { apply existsb_exists. exists t. split; [assumption|].
      now apply status_eqb_eq. }
    congruence.
  - intros H. destruct (existsb _ _) eqn:E; [exfalso|reflexivity].
    apply existsb_exists in E. destruct E as (t & Ht & Hs).
    apply status_eqb_eq in Hs. now apply (H t).
Qed.

Lemma ready_registered (w : World) (t : Task) :
  ready w t -> In t (dict_keys (task_to_dependencies w)).
Proof.
  intros (ds & Hin & _). unfold dict_keys. apply in_map_iff. now exists (t, ds).
Qed.

Lemma ready_same_units (w w' : World) (t : Task) :
  same_units w w' -> (ready w' t <-> ready w t).
Proof.
  intros (Hh & Hd & _). unfold ready, obj. rewrite Hh, Hd. reflexivity.
Qed.

Lemma no_pending_same_units (w w' : World) :
  same_units w w' -> (no_pending w' <-> no_pending w).
Proof.
  intros (Hh & Hd & _). unfold no_pending, obj. rewrite Hh, Hd. reflexivity.
Qed.

Lemma has_cycles_same_units (w : World) : same_units w (world_of (has_cycles w)).
Proof.
  unfold has_cycles, same_units.
  destruct (kahn_loop _ _ _ _ 0) as [[[e|n] dd]|]; simpl; tauto.
Qed.

Lemma collect_ready_distinct (w : World) :
  distinct_objects w -> NoDup (map addr (collect_ready w)).
Proof.
  unfold distinct_objects, collect_ready, dict_keys.
  generalize (fun kv : Task * TaskSet =>
                status_eqb (status (obj w (fst kv))) PENDING
                && all_dependencies_completed w (snd kv)).
  intros f. induction (task_to_dependencies w) as [|kv l IH]; simpl; [trivial|].
  intros H. inversion H as [|? ? Hn Hd]; subst.
  destruct (f kv); [|now apply IH]. simpl. constructor; [|now apply IH].
  intros Hin. apply Hn. rewrite map_map in *. apply in_map_iff in Hin.
  destruct Hin as (y & Hy & Hin). apply filter_In in Hin.
  apply in_map_iff. exists y. tauto.
Qed.

(** Marking one ready unit leaves the other units of the batch ready. *)
Lemma mark_keeps_batch (w w' : World) (t : Task) (rest : list Task) :
  heap w' = heap (world_of (mark_as_scheduled t w)) ->
  task_to_dependencies w' = task_to_dependencies w ->
  NoDup (map addr (t :: rest)) ->
  Forall (ready w) (t :: rest) ->
  NoDup (map addr rest) /\ Forall (ready w') rest.
Proof.
  intros Hh Hd Hnd Hall. inversion Hnd as [|? ? Hn Hnd']; subst.
  inversion Hall as [|? ? Ht Hrest]; subst.
  split; [assumption|]. rewrite Forall_forall in *. intros u Hu.
  destruct (Hrest u Hu) as (ds & Hin & Hs & Hds).
  destruct Ht as (_ & _ & Hts & _).
  assert (Hobj : forall x, addr x <> addr t -> obj w' x = obj w x).
  { intros x Hx. unfold obj. rewrite Hh. simpl.
    apply Nat.eqb_neq in Hx. now rewrite Hx. }
  exists ds. rewrite Hd. split; [assumption|]. split.
  - rewrite Hobj; [assumption|]. intros E. apply Hn. rewrite <- E.
    now apply in_map.
  - intros d Hdin. rewrite Hobj; [now apply Hds|]. intros E.
    specialize (Hds d Hdin). unfold obj in Hds, Hts. rewrite E, Hts in Hds.
    discriminate.
Qed.

Lemma loop_head_spec (w : World) :
  distinct_objects w ->
  match loop_head w with
  | (Yield t, g', w') =>
      ready w t /\ w' = world_of (mark_as_scheduled t w) /\ batch_ready w' g'
  | (StopIteration, g', w') => no_pending w /\ g' = GDone /\ w' = w
  | (Blocks, g', w') =>
      ~ no_pending w /\ (forall t, ~ ready w t) /\ g' = GWaiting /\ w' = w
  | (Throws _, _, _) => False
  end.
Proof.
  intros Hdis. unfold loop_head.
  destruct (has_pending_tasks w) eqn:Hp; simpl.
  - assert (Hnp : ~ no_pending w).
    { intros H. apply has_pending_tasks_false in H. congruence. }
    pose proof (collect_ready_distinct w Hdis) as Hnd.
    pose proof (collect_ready_spec w) as Hspec.
    destruct (collect_ready w) as [|t rest].
    + repeat split; try assumption. intros t Ht. now apply (Hspec t).
    + split; [apply Hspec; now left|]. split; [reflexivity|].
      apply (mark_keeps_batch w _ t rest); try reflexivity; [assumption|].
      apply Forall_forall. intros u Hu. now apply Hspec.
  - repeat split. now apply has_pending_tasks_false.
Qed.

Lemma same_units_refl (w : World) : same_units w w.
Proof. unfold same_units. tauto. Qed.

Lemma mark_same_units (w w1 : World) (t : Task) :
  same_units w w1 ->
  same_units (world_of (mark_as_scheduled t w))
             (world_of (mark_as_scheduled t w1)).
Proof.
  intros (Hh & Hd & Ht). unfold same_units. simpl. rewrite Hh, Hd, Ht. tauto.
Qed.

Lemma marked_status (w w' : World) (t : Task) :
  same_units (world_of (mark_as_scheduled t w)) w' ->
  status (obj w' t) = SCHEDULED.
Proof.
  intros (Hh & _). unfold obj. rewrite Hh. simpl. now rewrite Nat.eqb_refl.
Qed.

Lemma loop_head_from (w w1 : World) :
  same_units w w1 -> distinct_objects w ->
  match loop_head w1 with
  | (Yield t, g', w') =>
      ready w t /\ status (obj w' t) = SCHEDULED /\
      same_units (world_of (mark_as_scheduled t w)) w' /\ batch_ready w' g'
  | (StopIteration, g', w') => no_pending w /\ g' = GDone /\ same_units w w'
  | (Blocks, g', w') =>
      ~ no_pending w /\ (forall t, ~ ready w t) /\ g' = GWaiting /\
      same_units w w'
  | (Throws _, _, _) => False
  end.
Proof.
  intros Hsame Hdis.
  assert (Hdis1 : distinct_objects w1).
  { unfold distinct_objects in *. destruct Hsame as (_ & Hd & _).
    now rewrite Hd. }
  pose proof (loop_head_spec w1 Hdis1) as H.
  destruct (loop_head w1) as [[[t| | |e] g'] w'].
  - destruct H as (Hr & -> & Hb).
    pose proof (mark_same_units w w1 t Hsame) as Hm.
    split; [now apply (ready_same_units w w1)|].
    split; [now apply (marked_status w)|]. tauto.
  - destruct H as (Hn & -> & ->).
    split; [now apply (no_pending_same_units w w1)|]. tauto.
  - destruct H as (Hn & Hr & -> & ->).
    split; [now rewrite <- (no_pending_same_units w w1)|].
    split; [|tauto]. intros t Ht. apply (Hr t).
    now apply (ready_same_units w w1).
  - contradiction.
Qed.

Lemma resume_spec (g : Generator) (w : World) :
  g <> GDone -> distinct_objects w -> batch_ready w g ->
  match resume g w with
  | (Yield t, g', w') =>
      ready w t /\ status (obj w' t) = SCHEDULED /\
      same_units (world_of (mark_as_scheduled t w)) w' /\ batch_ready w' g'
  | (StopIteration, g', w') => no_pending w /\ g' = GDone /\ same_units w w'
  | (Blocks, g', w') =>
      ~ no_pending w /\ (forall t, ~ ready w t) /\ g' = GWaiting /\
      same_units w w'
  | (Throws _, g', w') => g = GNew /\ g' = GDone /\ same_units w w'
  end.
Proof.
  intros Hg Hdis Hb. destruct g as [|[|t rest]| |]; cbn [resume].
  - pose proof (has_cycles_same_units w) as Hs.
    destruct (has_cycles w) as [[|] w1|e w1]; cbn [world_of] in Hs.
    + tauto.
    + pose proof (loop_head_from w w1 Hs Hdis) as H.
      destruct (loop_head w1) as [[[t| | |e] g'] w']; tauto.
    + tauto.
  - pose proof (loop_head_from w w (same_units_refl w) Hdis) as H.
    destruct (loop_head w) as [[[t| | |e] g'] w']; tauto.
  - destruct Hb as (Hnd & Hall).
    destruct (mark_keeps_batch w (world_of (mark_as_scheduled t w)) t rest
                eq_refl eq_refl Hnd Hall) as (Hnd' & Hall').
    inversion Hall as [|? ? Ht _]; subst.
    split; [assumption|].
    split; [apply (marked_status w), same_units_refl|].
    split; [apply same_units_refl|]. split; assumption.
  - pose proof (loop_head_from w w (same_units_refl w) Hdis) as H.
    destruct (loop_head w) as [[[t| | |e] g'] w']; tauto.
  - congruence.
Qed.

(** C1. Inside its loop, the readiness iterator yields a unit only when
    the unit is registered, [PENDING], and has every prerequisite terminal;
    the unit is [SCHEDULED] when the consumer receives it; and the iterator
    stops exactly when no registered unit is [PENDING]. With pending units
    of which none is ready it blocks in [wait()]. The scan collects exactly
    the ready units, and the units of a scan not yet yielded stay ready. *)
Theorem ready_tasks_yields_ready_units (g : Generator) (w : World) :
  g <> GDone -> distinct_objects w -> batch_ready w g ->
  (forall t, In t (collect_ready w) <-> ready w t) /\
  match resume g w with
  | (Yield t, g', w') =>
      ready w t /\ status (obj w' t) = SCHEDULED /\
      same_units (world_of (mark_as_scheduled t w)) w' /\ batch_ready w' g'
  | (StopIteration, g', w') => no_pending w /\ g' = GDone /\ same_units w w'
  | (Blocks, g', w') =>
      ~ no_pending w /\ (forall t, ~ ready w t) /\ g' = GWaiting /\
      same_units w w'
  | (Throws _, g', w') => g = GNew /\ g' = GDone /\ same_units w w'
  end /\
  (g <> GNew ->
   (fst (fst (resume g w)) = StopIteration <-> no_pending w)).
Proof.
  intros Hg Hdis Hb. split; [apply collect_ready_spec|].
  pose proof (resume_spec g w Hg Hdis Hb) as H. split; [exact H|].
  intros Hnew. destruct (resume g w) as [[[t| | |e] g'] w']; simpl.
  - split; [discriminate|]. intros Hn. exfalso.
    destruct H as (Hr & _). destruct Hr as (ds & Hin & Hs & _).
    apply (Hn t); [|assumption].
    unfold dict_keys. apply in_map_iff. now exists (t, ds).
  - tauto.
  - split; [discriminate|]. tauto.
  - destruct H as (H & _). contradiction.
Qed.

Lemma ready_tasks_yields_ready_units_witness :
  match resume GWaiting (chain_world (Returns value_1)) with
  | (Yield t, g', w') =>
      t = unit_a /\ status (obj w' t) = SCHEDULED /\ g' = GYielded []
  | _ => False
  end.
Proof.
  assert (Hdis : distinct_objects (chain_world (Returns value_1))).
  { unfold distinct_objects. simpl. repeat constructor; simpl; intuition lia. }
  pose proof (ready_tasks_yields_ready_units GWaiting
                (chain_world (Returns value_1))
                ltac:(discriminate) Hdis I) as (_ & H & _).
  assert (E : resume GWaiting (chain_world (Returns value_1)) =
              (Yield unit_a, GYielded [],
               world_of (mark_as_scheduled unit_a
                           (chain_world (Returns value_1)))))
    by reflexivity.
  rewrite E in H. rewrite E. destruct H as (_ & Hs & _).
  split; [reflexivity|]. split; [exact Hs|reflexivity].
Defined.

(** ** Running a yielded unit leaves the rest of a scan ready *)

Lemma same_others_refl (self : Task) (w : World) : same_others self w w.
Proof. split; [intros; apply same_but_flag_refl|reflexivity]. Qed.

Lemma same_others_trans (self : Task) (w1 w2 w3 : World) :
  same_others self w1 w2 -> same_others self w2 w3 -> same_others self w1 w3.
Proof.
  intros (H1 & D1) (H2 & D2). split; [|congruence].
  intros x Hx. eapply same_but_flag_trans; [apply H1|apply H2]; assumption.
Qed.

Lemma same_others_update (self : Task) (f : TaskObj -> TaskObj) (e : Event)
    (w : World) :
  same_others self w (emit e (update_obj self f w)).
Proof.
  split; [|reflexivity]. intros x Hx. unfold obj. simpl.
  apply Nat.eqb_neq in Hx. rewrite Hx. apply same_but_flag_refl.
Qed.

Lemma same_others_emit (self : Task) (e : Event) (w : World) :
  same_others self w (emit e w).
Proof. split; [intros; apply same_but_flag_refl|reflexivity]. Qed.

Lemma same_others_fire (self : Task) (s : Slot) (w : World) :
  same_others self w (world_of (fire s self w)).
Proof.
  destruct (fire_footprint s self w) as (_ & _ & _ & Hh & Hd & _).
  split; [|assumption]. intros x _. apply Hh.
Qed.

Lemma same_others_handler (self : Task) (e : PyExc) (w : World) :
  same_others self w
    (world_of ((set_result self (VExc e) ;;;
                set_status self FAILED ;;;
                fire OnFailed self) w)).
Proof.
  unfold bind. simpl.
  eapply same_others_trans; [apply same_others_update|].
  eapply same_others_trans; [apply same_others_update|].
  apply same_others_fire.
Qed.

Lemma execute_task_others (self : Task) (w : World) :
  same_others self w (world_of (execute_task self w)).
Proof.
  destruct (canceled_event (obj w self)) eqn:Hc.
  - rewrite (execute_task_canceled_eq self w Hc).
    eapply same_others_trans; [apply same_others_update|].
    apply same_others_fire.
  - destruct (execute (obj w self)) as [v|e] eqn:He.
    + rewrite (execute_task_returns_eq self w v Hc He).
      set (w4 := world_of (set_status self COMPLETED _)).
      assert (H4 : same_others self w w4).
      { subst w4. simpl.
        eapply same_others_trans; [apply same_others_update|].
        eapply same_others_trans; [apply (same_others_emit _ (EvExecute self))|].
        eapply same_others_trans; [apply same_others_update|].
        apply same_others_update. }
      eapply same_others_trans; [exact H4|].
      unfold try_except.
      pose proof (same_others_fire self OnCompleted w4) as Hf.
      destruct (fire OnCompleted self w4) as [[] w5|e' w5]; [exact Hf|].
      destruct (is_Exception e'); [|exact Hf].
      eapply same_others_trans; [exact Hf|]. apply same_others_handler.
    + destruct (is_Exception e) eqn:Hx.
      * rewrite (execute_task_raises_eq self w e Hc He Hx). simpl.
        eapply same_others_trans; [apply same_others_update|].
        eapply same_others_trans; [apply (same_others_emit _ (EvExecute self))|].
        eapply same_others_trans; [apply same_others_update|].
        eapply same_others_trans; [apply same_others_update|].
        apply same_others_fire.
      * rewrite (execute_task_base_exception_eq self w e Hc He Hx). simpl.
        eapply same_others_trans; [apply same_others_update|].
        apply (same_others_emit _ (EvExecute self)).
Qed.

Lemma batch_ready_stable (w w' : World) (g : Generator) :
  (forall x, status (obj w x) = PENDING -> status (obj w' x) = PENDING) ->
  (forall x, is_terminal (status (obj w x)) = true ->
             is_terminal (status (obj w' x)) = true) ->
  task_to_dependencies w' = task_to_dependencies w ->
  batch_ready w g -> batch_ready w' g.
Proof.
  intros Hp Ht Hd. destruct g as [|rest| |]; simpl; trivial.
  intros (Hnd & Hall). split; [assumption|].
  rewrite Forall_forall in *. intros u Hu.
  destruct (Hall u Hu) as (ds & Hin & Hs & Hds).
  exists ds. rewrite Hd. repeat split; [assumption|now apply Hp|].
  intros d Hdin. now apply Ht, Hds.
Qed.

(** The consumer runs a unit it was handed: the units of the same scan
    that are not yet yielded stay ready. *)
Lemma execute_task_keeps_batch (self : Task) (w : World) (g : Generator) :
  status (obj w self) = SCHEDULED ->
  batch_ready w g -> batch_ready (world_of (execute_task self w)) g.
Proof.
  intros Hs. destruct (execute_task_others self w) as (Ho & Hd).
  assert (Hsame : forall x, status (obj w x) <> SCHEDULED ->
            status (obj (world_of (execute_task self w)) x) = status (obj w x)).
  { intros x Hx. destruct (Nat.eq_dec (addr x) (addr self)) as [E|E].
    - exfalso. apply Hx. unfold obj in *. now rewrite E.
    - now destruct (Ho x E) as (H & _). }
  apply batch_ready_stable; [| |assumption].
  - intros x Hx. rewrite Hsame; [assumption|congruence].
  - intros x Hx. rewrite Hsame; [assumption|].
    intros E. rewrite E in Hx. discriminate.
Qed.

(** ** Executor.run *)

Lemma pools_get_set (tg k : string) (p : ThreadPoolExecutor) (d : PoolDict) :
  pools_get tg (pools_set k p d) =
  if String.eqb tg k then Some p else pools_get tg d.
Proof.
  induction d as [|[x q] d IH]; simpl.
  - destruct (String.eqb tg k); reflexivity.
  - destruct (String.eqb k x) eqn:E; simpl.
    + apply String.eqb_eq in E. subst x.
      destruct (String.eqb tg k); reflexivity.
    + rewrite IH. destruct (String.eqb tg x) eqn:E'; [|reflexivity].
      apply String.eqb_eq in E'. subst x.
      rewrite String.eqb_sym, E. reflexivity.
Qed.

Lemma pools_set_keys (k : string) (p : ThreadPoolExecutor) (d : PoolDict) :
  map fst (pools_set k p d) =
  match pools_get k d with
  | Some _ => map fst d
  | None => map fst d ++ [k]
  end.
Proof.
  induction d as [|[x q] d IH]; simpl; [reflexivity|].
  destruct (String.eqb k x); simpl; [reflexivity|].
  rewrite IH. now destruct (pools_get k d).
Qed.

Lemma pools_get_none (k : string) (d : PoolDict) :
  pools_get k d = None -> ~ In k (map fst d).
Proof.
  induction d as [|[x q] d IH]; simpl; [tauto|].
  destruct (String.eqb k x) eqn:E; [discriminate|].
  apply String.eqb_neq in E. intros H [Hx|Hin]; [congruence|].
  now apply IH.
Qed.

Lemma pools_in_get (k : string) (p : ThreadPoolExecutor) (d : PoolDict) :
  NoDup (map fst d) -> In (k, p) d -> pools_get k d = Some p.
Proof.
  induction d as [|[x q] d IH]; simpl; [contradiction|].
  intros H. inversion H as [|? ? Hn Hd]; subst.
  intros [[= -> ->]|Hin].
  - now rewrite String.eqb_refl.
  - destruct (String.eqb k x) eqn:E; [|now apply IH].
    apply String.eqb_eq in E. subst x. exfalso. apply Hn.
    apply in_map_iff. now exists (k, p).
Qed.

Lemma pools_get_shutdown (wait : bool) (tg : string) (d : PoolDict) :
  pools_get tg (map (fun kp => (fst kp, pool_shutdown wait (snd kp))) d) =
  option_map (pool_shutdown wait) (pools_get tg d).
Proof.
  induction d as [|[x q] d IH]; simpl; [reflexivity|].
  destruct (String.eqb tg x); [reflexivity|assumption].
Qed.

Lemma with_tag_app (tg : string) (l1 l2 : list Task) :
  with_tag tg (l1 ++ l2) = with_tag tg l1 ++ with_tag tg l2.
Proof. apply filter_app. Qed.

Lemma with_tag_one (tg : string) (t : Task) :
  with_tag tg [t] = if String.eqb (tag t) tg then [t] else [].
Proof. reflexivity. Qed.

Lemma new_executor_pools (n : Z) : pools_for n [] (new_executor n).
Proof.
  unfold pools_for. simpl. repeat split. constructor.
Qed.

Lemma dispatch_pools (n : Z) (done : list Task) (task : Task) (ex : Executor) :
  (0 < n)%Z -> pools_for n done ex ->
  exists ex', dispatch task ex = (ex', None) /\
              pools_for n (done ++ [task]) ex'.
Proof.
  intros Hn (Hw & Hnd & Hp). unfold dispatch, ensure_thread_pool.
  pose proof (Hp (tag task)) as Ht.
  destruct (pools_get (tag task) (tag_to_thread_pool ex)) as [p|] eqn:G.
  - destruct Ht as (Hm & Hpre & Hsh & Hsub & Hne).
    unfold pool_submit. rewrite Hsh. eexists. split; [reflexivity|].
    unfold pools_for. simpl. split; [assumption|]. split.
    + now rewrite pools_set_keys, G.
    + intros tg. rewrite pools_get_set, with_tag_app, with_tag_one.
      destruct (String.eqb tg (tag task)) eqn:E.
      * apply String.eqb_eq in E. subst tg. simpl.
        rewrite String.eqb_refl, Hsub. repeat split; try assumption.
        intros H. now apply app_eq_nil in H.
      * rewrite String.eqb_sym, E, app_nil_r. apply Hp.
  - unfold new_thread_pool.
    assert (Hz : (workers_per_tag ex <=? 0)%Z = false) by (apply Z.leb_gt; lia).
    rewrite Hz. unfold pool_submit. simpl.
    eexists. split; [reflexivity|].
    unfold pools_for. simpl. split; [assumption|]. split.
    + rewrite pools_set_keys, pools_get_set, String.eqb_refl.
      rewrite pools_set_keys, G. apply NoDup_app; [assumption| |].
      * constructor; [intros []|constructor].
      * intros a Ha [<-|[]]. now apply (pools_get_none _ _ G).
    + intros tg. rewrite !pools_get_set, with_tag_app, with_tag_one.
      destruct (String.eqb tg (tag task)) eqn:E.
      * apply String.eqb_eq in E. subst tg. simpl.
        rewrite String.eqb_refl, Ht. simpl.
        repeat split; try assumption. discriminate.
      * rewrite String.eqb_sym, E, app_nil_r. apply Hp.
Qed.

Lemma run_loop_pools (n : Z) (ending : option PyExc) (yielded : list Task) :
  (0 < n)%Z ->
  forall done ex,
    pools_for n done ex ->
    exists ex', run_loop yielded ending ex = (ex', ending) /\
                pools_for n (done ++ yielded) ex'.
Proof.
  intros Hn. induction yielded as [|t ys IH]; intros done ex Hp.
  - exists ex. rewrite app_nil_r. split; [reflexivity|assumption].
  - destruct (dispatch_pools n done t ex Hn Hp) as (ex1 & Hd & Hp1).
    destruct (IH _ _ Hp1) as (ex' & Hr & Hp').
    exists ex'. cbn [run_loop]. rewrite Hd, Hr. split; [reflexivity|].
    now rewrite <- app_assoc in Hp'.
Qed.

(** C9. [run], on an executor just built with a positive [workers_per_tag],
    submits every unit the readiness sequence yields to the pool stored
    under the unit's tag; that pool is created at the first unit of the
    tag, with [max_workers] equal to [workers_per_tag]; no tag gets a second
    pool; and when the sequence ends, every pool created has received one
    [shutdown(wait=True)]. *)
Theorem run_dispatches_by_tag (n : Z) (yielded : list Task)
    (ending : option PyExc) :
  (0 < n)%Z ->
  exists ex,
    run yielded ending (new_executor n) = (ex, ending) /\
    NoDup (map fst (tag_to_thread_pool ex)) /\
    (forall t, In t yielded ->
       exists p, pools_get (tag t) (tag_to_thread_pool ex) = Some p /\
                 In t (submitted p)) /\
    (forall tg p, In (tg, p) (tag_to_thread_pool ex) ->
       max_workers p = n /\ thread_name_prefix p = tg /\
       submitted p = with_tag tg yielded /\ submitted p <> [] /\
       shutdown_calls p = [true]).
Proof.
  intros Hn.
  destruct (run_loop_pools n ending yielded Hn [] (new_executor n)
              (new_executor_pools n)) as (ex1 & Hr & Hw & Hnd & Hp).
  simpl in Hp. unfold run. rewrite Hr. eexists. split; [reflexivity|].
  assert (Hkeys : map fst (tag_to_thread_pool (shutdown true ex1))
                  = map fst (tag_to_thread_pool ex1)).
  { unfold shutdown. simpl. rewrite map_map. reflexivity. }
  assert (Hget : forall tg,
            match pools_get tg (tag_to_thread_pool (shutdown true ex1)) with
            | Some p =>
                max_workers p = n /\ thread_name_prefix p = tg /\
                submitted p = with_tag tg yielded /\ submitted p <> [] /\
                shutdown_calls p = [true]
            | None => with_tag tg yielded = []
            end).
  { intros tg. unfold shutdown. simpl. rewrite pools_get_shutdown.
    specialize (Hp tg).
    destruct (pools_get tg (tag_to_thread_pool ex1)) as [p|]; simpl;
      [|assumption].
    destruct Hp as (H1 & H2 & H3 & H4 & H5). rewrite H3. tauto. }
  split; [now rewrite Hkeys|]. split.
  - intros t Ht. specialize (Hget (tag t)).
    assert (Hin : In t (with_tag (tag t) yielded)).
    { apply filter_In. split; [assumption|apply String.eqb_refl]. }
    destruct (pools_get (tag t) _) as [p|].
    + exists p. split; [reflexivity|].
      destruct Hget as (_ & _ & -> & _). assumption.
    + rewrite Hget in Hin. contradiction.
  - intros tg p Hin. specialize (Hget tg).
    rewrite (pools_in_get tg p _) in Hget; [assumption| |assumption].
    now rewrite Hkeys.
Qed.

Lemma run_dispatches_by_tag_witness :
  exists ex,
    run [unit_a; unit_b] None (new_executor 3) = (ex, None) /\
    tag_to_thread_pool ex =
      [("default", mkPool 3 "default" [unit_a; unit_b] [true])].
Proof.
  destruct (run_dispatches_by_tag 3 [unit_a; unit_b] None ltac:(lia))
    as (ex & Hr & _).
  exists ex. split; [exact Hr|].
  vm_compute in Hr. now injection Hr as <-.
Defined.

(** ** The statements of a worker add up to [execute_task] *)

Lemma worker_run_finished (n : nat) (self : Task) (e : option PyExc) (w : World) :
  worker_run n self (Finished e) w = (Finished e, w).
Proof. destruct n; reflexivity. Qed.

Lemma worker_run_step (n : nat) (self : Task) (pc pc' : Pc) (w w' : World) :
  worker_step true self pc w = Some (pc', w') ->
  worker_run (S n) self pc w = worker_run n self pc' w'.
Proof. intros H. cbn [worker_run]. now rewrite H. Qed.

Lemma cancel_loop_run (self : Task) (ds : list Task) :
  forall w n,
    worker_run (List.length ds + 2 + n) self (InCancelLoop ds) w =
    (Finished None, world_of (notify_all (cancel_all ds w))).
Proof.
  induction ds as [|d ds IH]; intros w n.
  - change (List.length (@nil Task) + 2 + n) with (S (S n)).
    rewrite (worker_run_step _ _ _ AtNotify w w) by reflexivity.
    rewrite (worker_run_step _ _ _ (Finished None) w
               (world_of (notify_all w))) by reflexivity.
    apply worker_run_finished.
  - change (List.length (d :: ds) + 2 + n)
      with (S (List.length ds + 2 + n)).
    rewrite (worker_run_step _ _ _ (InCancelLoop ds) w
               (world_of (cancel d w))) by reflexivity.
    rewrite IH. reflexivity.
Qed.

Lemma scheduler_hook_run (self : Task) (s : Slot) (w : World) (n : nat) :
  hook_of s (obj w self) = Some SchedulerOnFailed \/
  hook_of s (obj w self) = Some SchedulerOnCanceled ->
  worker_run (S (List.length (dependents_of w self) + 2 + n)) self (AtFire s) w =
  (Finished None, world_of (fire s self w)).
Proof.
  intros H.
  assert (E : worker_step true self (AtFire s) w =
              Some (InCancelLoop (dependents_of w self),
                    mkWorld (heap w) (task_to_dependencies w)
                      (snd (defaultdict_get self (task_to_dependents w)))
                      (trace w ++ [EvHook s self]))).
  { cbn [worker_step]. unfold get_dependents, dependents_of.
    rewrite <- defaultdict_get_fst. simpl.
    destruct H as [-> | ->];
      now destruct (defaultdict_get self (task_to_dependents w)). }
  rewrite (worker_run_step _ _ _ _ _ _ E), cancel_loop_run.
  unfold fire.
  destruct H as [-> | ->]; cbn [call_hook];
    try change (scheduler_on_task_canceled self (emit (EvHook s self) w))
      with (scheduler_on_task_failed self (emit (EvHook s self) w));
    rewrite scheduler_on_task_failed_eq; reflexivity.
Qed.

(** A hook called outside the [try] block (lines 58-59 and 71-72). *)
Lemma fire_run (self : Task) (s : Slot) (w : World) :
  s <> OnCompleted ->
  exists k, forall n,
    worker_run (k + n) self (AtFire s) w =
    (Finished (raised (fire s self w)), world_of (fire s self w)).
Proof.
  intros Hs.
  destruct (hook_of s (obj w self)) as [[| | |name [e|]|name r]|] eqn:H.
  - exists 2. intros n. change (2 + n) with (S (S n)).
    rewrite (worker_run_step _ _ _ AtNotify w (emit (EvHook s self) w))
      by (cbn [worker_step]; now rewrite H).
    rewrite (worker_run_step _ _ _ (Finished None) _
               (world_of (notify_all (emit (EvHook s self) w))))
      by reflexivity.
    rewrite worker_run_finished. unfold fire. now rewrite H.
  - exists (S (List.length (dependents_of w self) + 2)). intros n.
    replace (S (List.length (dependents_of w self) + 2) + n)
      with (S (List.length (dependents_of w self) + 2 + n)) by lia.
    rewrite scheduler_hook_run by tauto.
    destruct (fire_footprint s self w) as (_ & _ & _ & _ & _ & Hr).
    rewrite Hr, H. reflexivity.
  - exists (S (List.length (dependents_of w self) + 2)). intros n.
    replace (S (List.length (dependents_of w self) + 2) + n)
      with (S (List.length (dependents_of w self) + 2 + n)) by lia.
    rewrite scheduler_hook_run by tauto.
    destruct (fire_footprint s self w) as (_ & _ & _ & _ & _ & Hr).
    rewrite Hr, H. reflexivity.
  - exists 1. intros n. change (1 + n) with (S n).
    rewrite (worker_run_step _ _ _ (Finished (Some e)) w
               (emit (EvCallback name self) (emit (EvHook s self) w)))
      by (cbn [worker_step]; rewrite H; now destruct s).
    rewrite worker_run_finished. unfold fire. now rewrite H.
  - exists 1. intros n. change (1 + n) with (S n).
    rewrite (worker_run_step _ _ _ (Finished None) w
               (emit (EvCallback name self) (emit (EvHook s self) w)))
      by (cbn [worker_step]; now rewrite H).
    rewrite worker_run_finished. unfold fire. now rewrite H.
  - exists 1. intros n. change (1 + n) with (S n).
    rewrite (worker_run_step _ _ _ (Finished None) w w)
      by (cbn [worker_step]; now rewrite H).
    rewrite worker_run_finished. unfold fire. now rewrite H.
  - exists 1. intros n. change (1 + n) with (S n).
    rewrite (worker_run_step _ _ _ (Finished None) w w)
      by (cbn [worker_step]; now rewrite H).
    rewrite worker_run_finished. unfold fire. now rewrite H.
Qed.

Lemma result_eta {A} (r : Result A) (a : A) :
  raised r = None -> (forall x y : A, x = y) -> r = Ok a (world_of r).
Proof.
  destruct r as [x w|e w]; simpl; [|discriminate].
  intros _ H. now rewrite (H x a).
Qed.

(** The [except] block (lines 68-72). *)
Lemma except_run (self : Task) (e : PyExc) (w : World) :
  exists k, forall n,
    worker_run (k + n) self (AtExcept e) w =
    (Finished (raised ((set_result self (VExc e) ;;;
                        set_status self FAILED ;;;
                        fire OnFailed self) w)),
     world_of ((set_result self (VExc e) ;;;
                set_status self FAILED ;;;
                fire OnFailed self) w)).
Proof.
  set (w2 := world_of (set_status self FAILED
                         (world_of (set_result self (VExc e) w)))).
  destruct (fire_run self OnFailed w2 ltac:(discriminate)) as (k & Hk).
  exists (S (S k)). intros n. change (S (S k) + n) with (S (S (k + n))).
  rewrite (worker_run_step _ _ _ AtSetFailed w
             (world_of (set_result self (VExc e) w))) by reflexivity.
  rewrite (worker_run_step _ _ _ (AtFire OnFailed) _ w2) by reflexivity.
  rewrite Hk. reflexivity.
Qed.

(** The hook called inside the [try] block (lines 66-67). *)
Lemma completed_run (self : Task) (w : World) :
  exists k, forall n,
    worker_run (k + n) self (AtFire OnCompleted) w =
    (Finished (raised (try_except (fire OnCompleted self)
                         (fun exception =>
                            set_result self (VExc exception) ;;;
                            set_status self FAILED ;;;
                            fire OnFailed self) w)),
     world_of (try_except (fire OnCompleted self)
                 (fun exception =>
                    set_result self (VExc exception) ;;;
                    set_status self FAILED ;;;
                    fire OnFailed self) w)).
Proof.
  unfold try_except.
  destruct (hook_of OnCompleted (obj w self)) as [[| | |name [e|]|name r]|] eqn:H.
  - exists 2. intros n. change (2 + n) with (S (S n)).
    rewrite (worker_run_step _ _ _ AtNotify w (emit (EvHook OnCompleted self) w))
      by (cbn [worker_step]; now rewrite H).
    rewrite (worker_run_step _ _ _ (Finished None) _
               (world_of (notify_all (emit (EvHook OnCompleted self) w))))
      by reflexivity.
    rewrite worker_run_finished. unfold fire. now rewrite H.
  - exists (S (List.length (dependents_of w self) + 2)). intros n.
    replace (S (List.length (dependents_of w self) + 2) + n)
      with (S (List.length (dependents_of w self) + 2 + n)) by lia.
    rewrite scheduler_hook_run by tauto.
    destruct (fire_footprint OnCompleted self w) as (_ & _ & _ & _ & _ & Hr).
    rewrite H in Hr.
    rewrite (result_eta (fire OnCompleted self w) tt Hr)
      by (now intros [] []).
    reflexivity.
  - exists (S (List.length (dependents_of w self) + 2)). intros n.
    replace (S (List.length (dependents_of w self) + 2) + n)
      with (S (List.length (dependents_of w self) + 2 + n)) by lia.
    rewrite scheduler_hook_run by tauto.
    destruct (fire_footprint OnCompleted self w) as (_ & _ & _ & _ & _ & Hr).
    rewrite H in Hr.
    rewrite (result_eta (fire OnCompleted self w) tt Hr)
      by (now intros [] []).
    reflexivity.
  - unfold fire. rewrite H. cbn [hook_truth call_hook].
    destruct (is_Exception e) eqn:Hx.
    + destruct (except_run self e
                  (emit (EvCallback name self) (emit (EvHook OnCompleted self) w)))
        as (k & Hk).
      exists (S k). intros n. change (S k + n) with (S (k + n)).
      rewrite (worker_run_step _ _ _ (AtExcept e) w
                 (emit (EvCallback name self)
                    (emit (EvHook OnCompleted self) w)))
        by (cbn [worker_step]; now rewrite H, Hx).
      apply Hk.
    + exists 1. intros n. change (1 + n) with (S n).
      rewrite (worker_run_step _ _ _ (Finished (Some e)) w
                 (emit (EvCallback name self)
                    (emit (EvHook OnCompleted self) w)))
        by (cbn [worker_step]; now rewrite H, Hx).
      apply worker_run_finished.
  - exists 1. intros n. change (1 + n) with (S n).
    rewrite (worker_run_step _ _ _ (Finished None) w
               (emit (EvCallback name self) (emit (EvHook OnCompleted self) w)))
      by (cbn [worker_step]; now rewrite H).
    rewrite worker_run_finished. unfold fire. now rewrite H.
  - exists 1. intros n. change (1 + n) with (S n).
    rewrite (worker_run_step _ _ _ (Finished None) w w)
      by (cbn [worker_step]; now rewrite H).
    rewrite worker_run_finished. unfold fire. now rewrite H.
  - exists 1. intros n. change (1 + n) with (S n).
    rewrite (worker_run_step _ _ _ (Finished None) w w)
      by (cbn [worker_step]; now rewrite H).
    rewrite worker_run_finished. unfold fire. now rewrite H.
Qed.

(** A worker that runs alone, statement by statement, does what
    [execute_task] does. *)
Lemma worker_run_execute_task (self : Task) (w : World) :
  exists k, forall n,
    worker_run (k + n) self AtEntry w =
    (Finished (raised (execute_task self w)), world_of (execute_task self w)).
Proof.
  destruct (canceled_event (obj w self)) eqn:Hc.
  - rewrite (execute_task_canceled_eq self w Hc).
    destruct (fire_run self OnCanceled
                (world_of (set_status self CANCELED w)) ltac:(discriminate))
      as (k & Hk).
    exists (S k). intros n. change (S k + n) with (S (k + n)).
    rewrite (worker_run_step _ _ _ (AtFire OnCanceled) w
               (world_of (set_status self CANCELED w)))
      by (cbn [worker_step]; now rewrite Hc).
    apply Hk.
  - set (w1 := world_of (set_status self RUNNING w)).
    assert (S1 : worker_step true self AtEntry w = Some (AtExecute, w1))
      by (cbn [worker_step]; now rewrite Hc).
    assert (Hex : execute (obj w1 self) = execute (obj w self))
      by (unfold w1, obj; simpl; now rewrite Nat.eqb_refl).
    destruct (execute (obj w self)) as [v|e] eqn:He.
    + rewrite (execute_task_returns_eq self w v Hc He). fold w1.
      set (w3 := world_of (set_result self v (emit (EvExecute self) w1))).
      destruct (completed_run self (world_of (set_status self COMPLETED w3)))
        as (k & Hk).
      exists (S (S (S k))). intros n.
      change (S (S (S k)) + n) with (S (S (S (k + n)))).
      rewrite (worker_run_step _ _ _ _ _ _ S1).
      rewrite (worker_run_step _ _ _ AtSetCompleted w1 w3)
        by (cbn [worker_step]; unfold call_execute; now rewrite Hex).
      rewrite (worker_run_step _ _ _ (AtFire OnCompleted) w3
                 (world_of (set_status self COMPLETED w3))) by reflexivity.
      apply Hk.
    + destruct (is_Exception e) eqn:Hx.
      * rewrite (execute_task_raises_eq self w e Hc He Hx). fold w1.
        destruct (except_run self e (emit (EvExecute self) w1)) as (k & Hk).
        exists (S (S k)). intros n. change (S (S k) + n) with (S (S (k + n))).
        rewrite (worker_run_step _ _ _ _ _ _ S1).
        rewrite (worker_run_step _ _ _ (AtExcept e) w1
                   (emit (EvExecute self) w1))
          by (cbn [worker_step]; unfold call_execute; now rewrite Hex, Hx).
        apply Hk.
      * rewrite (execute_task_base_exception_eq self w e Hc He Hx). fold w1.
        exists 2. intros n. change (2 + n) with (S (S n)).
        rewrite (worker_run_step _ _ _ _ _ _ S1).
        rewrite (worker_run_step _ _ _ (Finished (Some e)) w1
                   (emit (EvExecute self) w1))
          by (cbn [worker_step]; unfold call_execute; now rewrite Hex, Hx).
        apply worker_run_finished.
Qed.

(** ** A dependent that completes after its prerequisite failed *)

(** C8 does not hold of the code. In the run [race_schedule] of the two
    units of [race_init], [Executor.run] returns normally with [unit_a]
    [FAILED] and [unit_b], which has [unit_a] as its only prerequisite,
    [COMPLETED]: the failed hook cancels [unit_b] after [unit_b] has passed
    the test of its cancel flag. *)
Theorem dependent_completes_after_failed_prerequisite :
  graph_ok (world race_init) /\
  (forall t, In t [unit_a; unit_b] ->
             status (obj (world race_init) t) = PENDING /\
             canceled_event (obj (world race_init) t) = false /\
             hook_of OnFailed (obj (world race_init) t) = Some SchedulerOnFailed) /\
  match system_run race_schedule race_init with
  | Some s =>
      dispatcher s = DReturned None /\
      Forall (fun k => worker_pc k = Finished None) (workers s) /\
      deps_of (world s) unit_b = [unit_a] /\
      status (obj (world s) unit_a) = FAILED /\
      status (obj (world s) unit_b) = COMPLETED /\
      result (obj (world s) unit_b) = value_1
  | None => False
  end.
Proof.
  split; [apply graph_okb_sound; reflexivity|]. split.
  - intros t [<-|[<-|[]]]; repeat split.
  - vm_compute. repeat split; repeat constructor.
Qed.

(** ** The scenarios of the tests *)

(** [test_failure_propagation_1/2/3]: the unit that fails is [FAILED], the
    units downstream are [CANCELED], the others [COMPLETED]. *)
Example failure_propagation_1 :
  let r := drive 20 ready_tasks (seven_world 1) [] in
  snd (fst r) = Some StopIteration /\
  statuses (snd r) seven_units =
    [FAILED; COMPLETED; CANCELED; CANCELED; CANCELED; CANCELED; CANCELED].
Proof. vm_compute. split; reflexivity. Qed.

Example failure_propagation_2 :
  let r := drive 20 ready_tasks (seven_world 3) [] in
  snd (fst r) = Some StopIteration /\
  statuses (snd r) seven_units =
    [COMPLETED; COMPLETED; FAILED; CANCELED; CANCELED; CANCELED; CANCELED].
Proof. vm_compute. split; reflexivity. Qed.

Example failure_propagation_3 :
  let r := drive 20 ready_tasks (seven_world 4) [] in
  snd (fst r) = Some StopIteration /\
  statuses (snd r) seven_units =
    [COMPLETED; COMPLETED; COMPLETED; FAILED; CANCELED; CANCELED; CANCELED].
Proof. vm_compute. split; reflexivity. Qed.

(** [test_task_execution_order_1]: the order in which the units come. *)
Example execution_order_1 :
  fst (fst (drive 20 ready_tasks (seven_world 0) [])) = seven_units.
Proof. vm_compute. reflexivity. Qed.

(** Run by one thread, the two units of [race_init] end [FAILED] and
    [CANCELED]. *)
Example chain_failure_sequential :
  statuses (snd (drive 20 ready_tasks (chain_world (Raises failure_1)) []))
           [unit_a; unit_b] = [FAILED; CANCELED].
Proof. vm_compute. reflexivity. Qed.

(** ** What the cycle check answers, exactly *)

Lemma kahn_loop_buckets (fuel : nat) :
  forall dd od q n res dd',
    kahn_loop fuel dd od q n = Some (res, dd') ->
    forall k, bucket k dd' = bucket k dd.
Proof.
  induction fuel as [|fuel IH]; intros dd od q n res dd'; [discriminate|].
  cbn [kahn_loop]. destruct q as [|t q]; [now intros [= _ <-]|].
  pose proof (fun k => defaultdict_get_bucket t k dd) as Hb.
  destruct (defaultdict_get t dd) as [B dd1]. simpl in Hb.
  destruct (relax_all B (od, q)) as [e|[od' q']].
  - intros [= _ <-]. exact Hb.
  - intros H k. rewrite (IH _ _ _ _ _ _ H k). apply Hb.
Qed.

Lemma remaining_zero_all (w : World) (done : list Task) (t : Task) :
  remaining w done t = 0%Z ->
  forall r, In r (deps_of w t) -> set_mem r done = true.
Proof.
  unfold remaining. intros H r Hr.
  destruct (set_mem r done) eqn:E; [reflexivity|exfalso].
  assert (Hin : In r (filter (fun x => negb (set_mem x done)) (deps_of w t))).
  { apply filter_In. split; [assumption|]. now rewrite E. }
  destruct (filter _ (deps_of w t)); [contradiction|]. simpl in H. lia.
Qed.

Lemma hits_zero_congr (od : TaskDict Z) (a b : Task) :
  task_eqb a b = true -> hits_zero od a = hits_zero od b.
Proof. intros E. unfold hits_zero. now rewrite (dict_get_congr a b). Qed.

Lemma set_mem_filter (f : Task -> bool) (l : list Task) (d : Task) :
  (forall a b, task_eqb a b = true -> f a = f b) ->
  set_mem d (filter f l) = f d && set_mem d l.
Proof.
  intros Hf. induction l as [|x l IH]; simpl.
  - now rewrite andb_false_r.
  - destruct (f x) eqn:Fx; simpl; rewrite !IH.
    + unfold set_mem at 2. simpl. fold (set_mem d l).
      destruct (task_eqb d x) eqn:E; simpl; [|reflexivity].
      rewrite (Hf d x E), Fx. reflexivity.
    + unfold set_mem at 2. simpl. fold (set_mem d l).
      destruct (task_eqb d x) eqn:E; simpl; [|reflexivity].
      rewrite (Hf d x E), Fx. reflexivity.
Qed.

Section KahnExact.
Variable w : World.
Hypothesis Hok : graph_ok w.

Lemma kahn_order_initial :
  kahn_order w [] (initial_queue (out_degree_of (task_to_dependencies w))).
Proof.
  constructor; [|constructor].
  intros d Hd Hz. simpl.
  unfold dict_contains in Hd.
  destruct (dict_get d (task_to_dependencies w)) as [s|] eqn:G; [|discriminate].
  destruct (dict_get_some_in _ _ _ G) as (k & Hin & Hid).
  assert (Ekd : task_eqb k d = true) by now apply task_eqb_eq.
  rewrite <- (set_mem_congr k d _ Ekd). apply set_mem_in.
  unfold initial_queue. apply in_map_iff.
  exists (k, Z.of_nat (List.length s)). split; [reflexivity|].
  apply filter_In. split.
  - unfold out_degree_of. apply in_map_iff. now exists (k, s).
  - simpl. unfold remaining, deps_of, bucket in Hz. rewrite G in Hz.
    rewrite filter_all in Hz by reflexivity. now apply Z.eqb_eq.
Qed.

Lemma kahn_order_step (done : list Task) (od : TaskDict Z) (t : Task)
    (q : list Task) :
  kahn_inv w [] done od (t :: q) ->
  kahn_order w done (t :: q) ->
  kahn_order w (done ++ [t]) (q ++ filter (hits_zero od) (dependents_of w t)).
Proof.
  intros Hinv [Hc Ht].
  pose proof (inv_distinct _ _ _ _ _ Hinv) as Hnd.
  assert (Htd : set_mem t done = false).
  { apply set_mem_false_ids. unfold ids in Hnd.
    rewrite map_app in Hnd. simpl in Hnd.
    apply NoDup_remove_2 in Hnd. intros Hin. apply Hnd.
    apply in_or_app. now left. }
  constructor.
  - intros d Hd Hz.
    rewrite <- app_assoc. simpl.
    rewrite !set_mem_app, set_mem_cons, set_mem_app.
    rewrite (remaining_step w t done d (deps_distinct w Hok d) Htd) in Hz.
    destruct (Z.eq_dec (remaining w done d) 0) as [E|E].
    + specialize (Hc d Hd E). rewrite set_mem_app, set_mem_cons in Hc.
      destruct (set_mem d done), (task_eqb d t), (set_mem d q);
        simpl in *; congruence.
    + assert (Hone : remaining w done d = 1%Z /\
                     set_mem t (deps_of w d) = true).
      { pose proof (remaining_nonneg w done d).
        destruct (set_mem t (deps_of w d)); split; try reflexivity; lia. }
      destruct Hone as (Hone & Hm).
      rewrite <- (edges_agree w Hok t d Hd) in Hm.
      rewrite (set_mem_filter _ _ d (hits_zero_congr od)), Hm.
      unfold hits_zero. rewrite (inv_degree _ _ _ _ _ Hinv d Hd), Hone.
      simpl. now rewrite !orb_true_r.
  - constructor; [assumption|].
    apply remaining_zero_all.
    apply (inv_zero _ _ _ _ _ Hinv). apply in_or_app. right. now left.
Qed.

Lemma no_stuck_in_nil : Forall (stuck_in w []) [].
Proof. constructor. Qed.

Lemma kahn_loop_order (fuel : nat) :
  forall dd done od q res dd',
    (forall k, bucket k dd = dependents_of w k) ->
    kahn_inv w [] done od q ->
    kahn_order w done q ->
    kahn_loop fuel dd od q (List.length done) = Some (res, dd') ->
    exists done' od',
      res = inr (List.length done') /\
      kahn_inv w [] done' od' [] /\
      kahn_order w done' [].
Proof.
  induction fuel as [|fuel IH]; intros dd done od q res dd' Hdd Hinv Hord;
    [discriminate|].
  cbn [kahn_loop]. destruct q as [|t q].
  - intros [= <- _]. now exists done, od.
  - pose proof (defaultdict_get_fst t dd) as Hf.
    pose proof (fun k => defaultdict_get_bucket t k dd) as Hb.
    destruct (defaultdict_get t dd) as [B dd1]. simpl in Hf, Hb.
    rewrite Hdd in Hf. subst B.
    destruct (kahn_inv_step w [] Hok no_stuck_in_nil done od t q Hinv)
      as (od1 & HR & Hinv').
    rewrite HR. intros Hloop.
    apply (IH dd1 (done ++ [t]) od1
             (q ++ filter (hits_zero od) (dependents_of w t)) res dd').
    + intros k. now rewrite Hb.
    + exact Hinv'.
    + now apply kahn_order_step.
    + rewrite length_app. simpl. now rewrite Nat.add_1_r.
Qed.

(** The run of the loop of [has_cycles] in a well-formed graph: it ends
    without a [KeyError], and the units it processed are distinct registered
    units in topological order, every other registered unit having a
    prerequisite that was not processed. *)
Lemma kahn_run :
  exists done dd',
    kahn_loop (S (List.length (out_degree_of (task_to_dependencies w))))
              (task_to_dependents w)
              (out_degree_of (task_to_dependencies w))
              (initial_queue (out_degree_of (task_to_dependencies w))) 0
      = Some (inr (List.length done), dd') /\
    NoDup (ids done) /\
    (forall t, In t done -> dict_contains t (task_to_dependencies w) = true) /\
    topological w done /\
    (forall d, dict_contains d (task_to_dependencies w) = true ->
               set_mem d done = false ->
               exists r, In r (deps_of w d) /\ set_mem r done = false).
Proof.
  pose proof (has_cycles_fuel w) as Hfuel.
  destruct (kahn_loop _ _ _ _ 0) as [[res dd']|] eqn:E; [|congruence].
  destruct (kahn_loop_order _ _ [] _ _ res dd' (fun k => eq_refl)
              (kahn_inv_initial w [] Hok no_stuck_in_nil)
              kahn_order_initial E)
    as (done & od' & -> & [Hnd Hreg _ _ _ _] & [Hc Ht]).
  rewrite app_nil_r in *.
  exists done, dd'. split; [reflexivity|]. repeat split; try assumption.
  intros d Hd Hm.
  destruct (Z.eq_dec (remaining w done d) 0) as [Hz|Hz].
  { specialize (Hc d Hd Hz). congruence. }
  unfold remaining in Hz.
  destruct (filter (fun x => negb (set_mem x done)) (deps_of w d))
    as [|r l] eqn:F; [contradiction|].
  assert (Hr : In r (filter (fun x => negb (set_mem x done)) (deps_of w d)))
    by (rewrite F; now left).
  apply filter_In in Hr. destruct Hr as (Hr & Hn).
  exists r. split; [assumption|]. now apply negb_true_iff.
Qed.
End KahnExact.

Lemma has_cycles_exact (w : World) :
  graph_ok w ->
  exists b w',
    has_cycles w = Ok b w' /\
    same_units w w' /\
    (forall k, dependents_of w' k = dependents_of w k) /\
    (b = true <-> exists U, U <> [] /\ Forall (stuck_in w U) U) /\
    (b = false ->
     exists order,
       topological w order /\ NoDup (ids order) /\
       forall d, dict_contains d (task_to_dependencies w) = true <->
                 set_mem d order = true).
Proof.
  intros Hok.
  destruct (kahn_run w Hok) as (done & dd' & Hrun & Hnd & Hreg & Htop & Hleft).
  pose proof (kahn_loop_buckets _ _ _ _ _ _ _ Hrun) as Hb.
  assert (Hincl : incl (ids done) (ids (dict_keys (task_to_dependencies w)))).
  { intros a Ha. unfold ids in Ha. apply in_map_iff in Ha.
    destruct Ha as (t & <- & Ht). now apply registered_in_keys, Hreg. }
  assert (Hlen : List.length done <= List.length (task_to_dependencies w)).
  { pose proof (NoDup_incl_length Hnd Hincl) as H.
    unfold ids, dict_keys in H. now rewrite !length_map in H. }
  exists (negb (Nat.eqb (List.length done)
                        (List.length (task_to_dependencies w)))),
         (mkWorld (heap w) (task_to_dependencies w) dd' (trace w)).
  split; [unfold has_cycles; now rewrite Hrun|].
  split; [repeat split|]. split; [exact Hb|]. split; [split|].
  - intros Hneq. apply negb_true_iff, Nat.eqb_neq in Hneq.
    exists (unprocessed w done).
    assert (HU : forall u, In u (unprocessed w done) ->
              dict_contains u (task_to_dependencies w) = true /\
              set_mem u done = false).
    { intros u Hu. apply filter_In in Hu. destruct Hu as (Hk & Hn).
      split; [|now apply negb_true_iff].
      rewrite dict_contains_keys. now apply set_mem_in. }
    split.
    + intros Hnil.
      assert (Hall : incl (ids (dict_keys (task_to_dependencies w))) (ids done)).
      { intros a Ha. unfold ids in Ha. apply in_map_iff in Ha.
        destruct Ha as (k & <- & Hk).
        destruct (set_mem k done) eqn:E; [now apply set_mem_in_ids|].
        assert (Hin : In k (unprocessed w done)).
        { apply filter_In. split; [assumption|]. now rewrite E. }
        rewrite Hnil in Hin. contradiction. }
      pose proof (NoDup_incl_length (keys_distinct w Hok) Hall) as H.
      unfold ids, dict_keys in H. rewrite !length_map in H. lia.
    + apply Forall_forall. intros u Hu. destruct (HU u Hu) as (Hur & Hud).
      split; [assumption|].
      destruct (Hleft u Hur Hud) as (r & Hr & Hrd).
      exists r. split; [assumption|].
      destruct (dict_contains r (task_to_dependencies w)) eqn:Er; [right|now left].
      apply dict_contains_true in Er. destruct Er as (k & Hk & Hid).
      assert (Ekr : task_eqb k r = true) by now apply task_eqb_eq.
      rewrite <- (set_mem_congr k r _ Ekr). apply set_mem_in.
      apply filter_In. split; [assumption|].
      now rewrite (set_mem_congr k r _ Ekr), Hrd.
  - intros (U & HU & Hst).
    destruct (has_cycles_stuck w U Hok Hst HU) as (w1 & H1 & _).
    unfold has_cycles in H1. rewrite Hrun in H1. now injection H1.
  - intros Hb0. apply negb_false_iff, Nat.eqb_eq in Hb0.
    exists done. split; [assumption|]. split; [assumption|].
    intros d. split.
    + intros Hd. apply set_mem_in_ids.
      assert (Hlen' : List.length (ids (dict_keys (task_to_dependencies w)))
                      <= List.length (ids done)).
      { unfold ids, dict_keys. rewrite !length_map. lia. }
      apply (NoDup_length_incl Hnd Hlen' Hincl).
      now apply registered_in_keys.
    + intros Hd. apply set_mem_true in Hd. destruct Hd as (x & Hx & Hid).
      assert (E : task_eqb x d = true) by now apply task_eqb_eq.
      rewrite <- (dict_contains_congr x d _ E). now apply Hreg.
Qed.

(** ** A stuck set holds a cycle or a unit with a missing prerequisite *)

Lemma is_path_cons (w : World) (a b : Task) (l : list Task) :
  is_path w (a :: b :: l) = set_mem b (deps_of w a) && is_path w (b :: l).
Proof. reflexivity. Qed.

Lemma is_path_tail (w : World) (l1 l2 : list Task) :
  is_path w (l1 ++ l2) = true -> is_path w l2 = true.
Proof.
  induction l1 as [|a l1 IH]; [trivial|].
  destruct l1 as [|b l1].
  - destruct l2 as [|c l2]; [reflexivity|]. simpl app.
    rewrite is_path_cons. intros H. now apply andb_true_iff in H.
  - change ((a :: b :: l1) ++ l2) with (a :: b :: (l1 ++ l2)).
    rewrite is_path_cons. intros H. apply andb_true_iff in H.
    now apply IH.
Qed.

Lemma is_path_head (w : World) (l1 l2 : list Task) :
  is_path w (l1 ++ l2) = true -> is_path w l1 = true.
Proof.
  induction l1 as [|a l1 IH]; [reflexivity|].
  destruct l1 as [|b l1]; [reflexivity|].
  change ((a :: b :: l1) ++ l2) with (a :: b :: (l1 ++ l2)).
  rewrite !is_path_cons. intros H. apply andb_true_iff in H.
  destruct H as (H1 & H2). rewrite H1. now apply IH.
Qed.

Lemma is_path_last_congr (w : World) (l : list Task) (a b : Task) :
  task_eqb a b = true ->
  is_path w (l ++ [a]) = is_path w (l ++ [b]).
Proof.
  intros E. induction l as [|x l IH]; [reflexivity|].
  destruct l as [|y l].
  - simpl. now rewrite (set_mem_congr a b _ E).
  - change ((x :: y :: l) ++ [a]) with (x :: y :: (l ++ [a])).
    change ((x :: y :: l) ++ [b]) with (x :: y :: (l ++ [b])).
    rewrite !is_path_cons. cbn [app] in IH. now rewrite IH.
Qed.

Lemma repeated_unit (p : list Task) :
  NoDup (ids p) \/
  exists l1 a l2 b l3, p = l1 ++ a :: l2 ++ b :: l3 /\ task_eqb a b = true.
Proof.
  induction p as [|x p IH]; [left; constructor|].
  destruct (set_mem x p) eqn:E.
  - right. apply set_mem_true in E. destruct E as (b & Hb & Hid).
    apply in_split in Hb. destruct Hb as (l2 & l3 & ->).
    exists [], x, l2, b, l3. split; [reflexivity|].
    apply task_eqb_eq. now symmetry.
  - destruct IH as [Hnd|(l1 & a & l2 & b & l3 & -> & Hab)].
    + left. simpl. constructor; [now apply set_mem_false_ids|assumption].
    + right. now exists (x :: l1), a, l2, b, l3.
Qed.

Lemma stuck_walk (w : World) (U : list Task) :
  (forall u, In u U ->
     exists r, In r (deps_of w u) /\ set_mem r U = true) ->
  forall n u, In u U ->
    exists l, List.length l = n /\ is_path w (u :: l) = true /\
              forall x, In x (u :: l) -> set_mem x U = true.
Proof.
  intros Hnext. induction n as [|n IH]; intros u Hu.
  - exists []. repeat split. intros x [<-|[]]. now apply set_mem_in.
  - destruct (Hnext u Hu) as (r & Hr & HrU).
    apply set_mem_true in HrU. destruct HrU as (u' & Hu' & Hid).
    destruct (IH u' Hu') as (l & Hlen & Hp & Hall).
    exists (u' :: l). split; [simpl; now rewrite Hlen|]. split.
    + rewrite is_path_cons, Hp, andb_true_r.
      apply set_mem_true. exists r. split; [assumption|]. now symmetry.
    + intros x [<-|Hx]; [now apply set_mem_in|now apply Hall].
Qed.

Lemma stuck_cycle (w : World) (U : list Task) :
  U <> [] ->
  (forall u, In u U ->
     exists r, In r (deps_of w u) /\ set_mem r U = true) ->
  exists c, is_cycle w c = true.
Proof.
  intros HU Hnext. destruct U as [|u0 U'] eqn:EU; [congruence|].
  rewrite <- EU in *.
  assert (Hu0 : In u0 U) by (rewrite EU; now left).
  destruct (stuck_walk w U Hnext (List.length U) u0 Hu0)
    as (l & Hlen & Hp & Hall).
  destruct (repeated_unit (u0 :: l))
    as [Hnd|(l1 & a & l2 & b & l3 & Heq & Hab)].
  - exfalso.
    assert (Hincl : incl (ids (u0 :: l)) (ids U)).
    { intros x Hx. unfold ids in Hx. apply in_map_iff in Hx.
      destruct Hx as (t & <- & Ht). now apply set_mem_in_ids, Hall. }
    pose proof (NoDup_incl_length Hnd Hincl) as H.
    unfold ids in H. rewrite !length_map in H. simpl in H. lia.
  - exists (a :: l2). unfold is_cycle.
    rewrite Heq in Hp. apply is_path_tail in Hp.
    replace (a :: l2 ++ b :: l3) with ((a :: l2 ++ [b]) ++ l3) in Hp
      by (simpl; now rewrite <- app_assoc).
    apply is_path_head in Hp.
    rewrite task_eqb_sym in Hab.
    change (a :: l2 ++ [b]) with ((a :: l2) ++ [b]) in Hp.
    now rewrite (is_path_last_congr w (a :: l2) b a Hab) in Hp.
Qed.

Lemma stuck_split (w : World) (U V : list Task) :
  Forall (stuck_in w U) V ->
  (exists d p, dict_contains d (task_to_dependencies w) = true /\
               In p (deps_of w d) /\
               dict_contains p (task_to_dependencies w) = false) \/
  (forall u, In u V -> exists r, In r (deps_of w u) /\ set_mem r U = true).
Proof.
  induction V as [|v V IH]; intros H; [right; intros u []|].
  inversion H as [|? ? (Hv & r & Hr & Hcase) HV]; subst.
  destruct Hcase as [Hun|HrU]; [left; now exists v, r|].
  destruct (IH HV) as [Hl|Hr']; [now left|right].
  intros u [<-|Hu]; [now exists r|now apply Hr'].
Qed.

Lemma stuck_iff_cycle_or_missing (w : World) :
  (exists U, U <> [] /\ Forall (stuck_in w U) U) <->
  (exists c, is_cycle w c = true) \/
  (exists d p, dict_contains d (task_to_dependencies w) = true /\
               set_mem p (deps_of w d) = true /\
               dict_contains p (task_to_dependencies w) = false).
Proof.
  split.
  - intros (U & HU & Hst). destruct (stuck_split w U U Hst) as [Hm|Hc].
    + right. destruct Hm as (d & p & Hd & Hp & Hun).
      exists d, p. split; [assumption|]. split; [now apply set_mem_in|assumption].
    + left. now apply (stuck_cycle w U).
  - intros [(c & Hc)|(d & p & Hd & Hp & Hun)].
    + exists c. now apply cycle_is_stuck.
    + exists [d]. now apply (missing_prerequisite_is_stuck w d p).
Qed.

(** ** What the operations keep *)

Lemma kept_refl (o : TaskObj) : kept o o.
Proof. unfold kept. tauto. Qed.

Lemma kept_trans (a b c : TaskObj) : kept a b -> kept b c -> kept a c.
Proof.
  unfold kept. intros (?&?&?&?&?&?) (?&?&?&?&?&?).
  repeat split; try congruence; auto.
Qed.

Lemma same_but_flag_kept (o o' : TaskObj) : same_but_flag o o' -> kept o o'.
Proof. unfold same_but_flag, kept. tauto. Qed.

Lemma same_graph_refl (w : World) : same_graph w w.
Proof. split; reflexivity. Qed.

Lemma same_graph_trans (w1 w2 w3 : World) :
  same_graph w1 w2 -> same_graph w2 w3 -> same_graph w1 w3.
Proof.
  intros (D1 & B1) (D2 & B2). split; [congruence|].
  intros k. now rewrite B2, B1.
Qed.

Lemma preserved_refl (w : World) : preserved w w.
Proof. split; [intros; apply kept_refl|apply same_graph_refl]. Qed.

Lemma preserved_trans (w1 w2 w3 : World) :
  preserved w1 w2 -> preserved w2 w3 -> preserved w1 w3.
Proof.
  intros (K1 & G1) (K2 & G2). split.
  - intros a. eapply kept_trans; [apply K1|apply K2].
  - eapply same_graph_trans; eassumption.
Qed.

Lemma preserved_set_status (t : Task) (s : TaskStatus) (w : World) :
  preserved w (world_of (set_status t s w)).
Proof.
  split; [|split; reflexivity]. intros a. simpl.
  destruct (Nat.eqb a (addr t)); [|apply kept_refl].
  unfold kept. simpl. tauto.
Qed.

Lemma preserved_set_result (t : Task) (v : Value) (w : World) :
  preserved w (world_of (set_result t v w)).
Proof.
  split; [|split; reflexivity]. intros a. simpl.
  destruct (Nat.eqb a (addr t)); [|apply kept_refl].
  unfold kept. simpl. tauto.
Qed.

Lemma preserved_emit (e : Event) (w : World) : preserved w (emit e w).
Proof. split; [intros; apply kept_refl|split; reflexivity]. Qed.

Lemma cancel_all_dependents (ds : list Task) (w : World) (k : Task) :
  dependents_of (cancel_all ds w) k = dependents_of w k.
Proof.
  unfold dependents_of. now destruct (cancel_all_dicts ds w) as (_ & ->).
Qed.

Lemma preserved_call_hook (h : Hook) (t : Task) (w : World) :
  preserved w (world_of (call_hook h t w)).
Proof.
  destruct (call_hook_footprint h t w) as (_ & _ & _ & Hh & Hd & _).
  split; [intros a; apply same_but_flag_kept, Hh|]. split; [assumption|].
  intros k. destruct h as [| | |name [e|]|name [e|]]; try reflexivity.
  - cbn [call_hook]. rewrite scheduler_on_task_failed_eq. cbn [world_of].
    unfold emit, dependents_of at 1. cbn [task_to_dependents].
    fold (dependents_of (cancel_all (dependents_of w t)
            (mkWorld (heap w) (task_to_dependencies w)
               (snd (defaultdict_get t (task_to_dependents w))) (trace w))) k).
    rewrite cancel_all_dependents. unfold dependents_of at 1.
    cbn [task_to_dependents]. apply defaultdict_get_bucket.
  - cbn [call_hook].
    change (scheduler_on_task_canceled t w) with (scheduler_on_task_failed t w).
    rewrite scheduler_on_task_failed_eq. cbn [world_of].
    unfold emit, dependents_of at 1. cbn [task_to_dependents].
    fold (dependents_of (cancel_all (dependents_of w t)
            (mkWorld (heap w) (task_to_dependencies w)
               (snd (defaultdict_get t (task_to_dependents w))) (trace w))) k).
    rewrite cancel_all_dependents. unfold dependents_of at 1.
    cbn [task_to_dependents]. apply defaultdict_get_bucket.
Qed.

Lemma preserved_fire (s : Slot) (t : Task) (w : World) :
  preserved w (world_of (fire s t w)).
Proof.
  unfold fire. destruct (hook_of s (obj w t)) as [h|]; [|apply preserved_refl].
  destruct (hook_truth h); [|apply preserved_refl].
  eapply preserved_trans; [apply (preserved_emit (EvHook s t))|].
  apply preserved_call_hook.
Qed.

Lemma preserved_handler (self : Task) (e : PyExc) (w : World) :
  preserved w
    (world_of ((set_result self (VExc e) ;;;
                set_status self FAILED ;;;
                fire OnFailed self) w)).
Proof.
  unfold bind. cbn [set_result set_status].
  eapply preserved_trans; [apply (preserved_set_result self (VExc e))|].
  eapply preserved_trans; [apply (preserved_set_status self FAILED)|].
  apply preserved_fire.
Qed.

Lemma preserved_execute_task (self : Task) (w : World) :
  preserved w (world_of (execute_task self w)).
Proof.
  destruct (canceled_event (obj w self)) eqn:Hc.
  - rewrite (execute_task_canceled_eq self w Hc).
    eapply preserved_trans; [apply (preserved_set_status self CANCELED)|].
    apply preserved_fire.
  - assert (H1 : preserved w (emit (EvExecute self)
                                (world_of (set_status self RUNNING w)))).
    { eapply preserved_trans; [apply (preserved_set_status self RUNNING)|].
      apply preserved_emit. }
    destruct (execute (obj w self)) as [v|e] eqn:He.
    + rewrite (execute_task_returns_eq self w v Hc He).
      set (w4 := world_of (set_status self COMPLETED _)).
      assert (H4 : preserved w w4).
      { eapply preserved_trans; [exact H1|].
        eapply preserved_trans; [apply (preserved_set_result self v)|].
        apply preserved_set_status. }
      eapply preserved_trans; [exact H4|]. unfold try_except.
      pose proof (preserved_fire OnCompleted self w4) as Hf.
      destruct (fire OnCompleted self w4) as [[] w5|e' w5]; [exact Hf|].
      destruct (is_Exception e'); [|exact Hf].
      eapply preserved_trans; [exact Hf|]. apply preserved_handler.
    + destruct (is_Exception e) eqn:Hx.
      * rewrite (execute_task_raises_eq self w e Hc He Hx).
        eapply preserved_trans; [exact H1|].
        eapply preserved_trans; [apply (preserved_set_result self (VExc e))|].
        eapply preserved_trans; [apply (preserved_set_status self FAILED)|].
        apply preserved_fire.
      * rewrite (execute_task_base_exception_eq self w e Hc He Hx).
        exact H1.
Qed.

(** ** One unit run by the engine *)

Lemma cancel_all_flags (ds : list Task) (w : World) (a : nat) :
  canceled_event (heap (cancel_all ds w) a) =
  canceled_event (heap w a) || among ds a.
Proof.
  revert w. induction ds as [|d ds IH]; intros w.
  - simpl. now rewrite orb_false_r.
  - rewrite cancel_all_cons, IH. unfold among. cbn [existsb]. simpl.
    rewrite (Nat.eqb_sym (addr d) a).
    destruct (Nat.eqb a (addr d)); simpl.
    + now rewrite orb_true_r.
    + reflexivity.
Qed.

Lemma fire_cascade (s : Slot) (t : Task) (w : World) :
  hook_of s (obj w t) = Some SchedulerOnFailed \/
  hook_of s (obj w t) = Some SchedulerOnCanceled ->
  raised (fire s t w) = None /\
  forall a, canceled_event (heap (world_of (fire s t w)) a) =
            canceled_event (heap w a) || among (dependents_of w t) a.
Proof.
  intros H. unfold fire.
  assert (E : call_hook SchedulerOnCanceled t = call_hook SchedulerOnFailed t)
    by reflexivity.
  destruct H as [-> | ->]; [|rewrite E]; cbn [call_hook];
    rewrite scheduler_on_task_failed_eq; cbn [raised world_of];
    (split; [reflexivity|]); intros a;
    apply (cancel_all_flags _ (mkWorld _ _ _ _)).
Qed.

Lemma fire_completed (t : Task) (w : World) :
  hook_of OnCompleted (obj w t) = Some SchedulerOnCompleted ->
  raised (fire OnCompleted t w) = None /\
  heap (world_of (fire OnCompleted t w)) = heap w.
Proof. intros H. unfold fire. rewrite H. split; reflexivity. Qed.

(** With the scheduler's callbacks installed, [execute_task] ends with the
    status and the result [final_status] and [final_result] tell, leaves
    the status and the result of every other object alone, and raises a
    cancel flag exactly on the dependents of a unit that fails or is
    cancelled. *)
Lemma execute_task_engine (t : Task) (w : World) :
  installed w t ->
  (forall e, execute (obj w t) = Raises e -> is_Exception e = true) ->
  let w' := world_of (execute_task t w) in
  raised (execute_task t w) = None /\
  (forall a, status (heap w' a) =
             if Nat.eqb a (addr t) then final_status (obj w t)
             else status (heap w a)) /\
  (forall a, result (heap w' a) =
             if Nat.eqb a (addr t) then final_result (obj w t)
             else result (heap w a)) /\
  (forall a, canceled_event (heap w' a) =
             canceled_event (heap w a)
             || (cascades (obj w t) && among (dependents_of w t) a)).
Proof.
  intros (Hc & Hf & Hx) Hexc. unfold final_status, final_result, cascades.
  destruct (canceled_event (obj w t)) eqn:Hflag.
  - rewrite (execute_task_canceled_eq t w Hflag).
    set (w1 := world_of (set_status t CANCELED w)).
    assert (Hh : hook_of OnCanceled (obj w1 t) = Some SchedulerOnCanceled).
    { subst w1. now rewrite hook_of_set_status. }
    destruct (fire_cascade OnCanceled t w1 (or_intror Hh)) as (Hr & Hfl).
    destruct (fire_footprint OnCanceled t w1) as (_ & _ & _ & Hsame & _).
    cbn zeta. split; [exact Hr|]. split; [|split].
    + intros a. destruct (Hsame a) as (-> & _). subst w1. simpl.
      now destruct (Nat.eqb a (addr t)).
    + intros a. destruct (Hsame a) as (_ & _ & -> & _). subst w1. simpl.
      destruct (Nat.eqb a (addr t)) eqn:E; [|reflexivity].
      apply Nat.eqb_eq in E. subst a. reflexivity.
    + intros a. rewrite Hfl. subst w1. simpl.
      now destruct (Nat.eqb a (addr t)).
  - destruct (execute (obj w t)) as [v|e] eqn:He.
    + rewrite (execute_task_returns_eq t w v Hflag He).
      set (w4 := world_of (set_status t COMPLETED _)).
      assert (Hh : hook_of OnCompleted (obj w4 t) = Some SchedulerOnCompleted).
      { subst w4. now rewrite hook_of_set_status, hook_of_set_result,
          hook_of_emit, hook_of_set_status. }
      destruct (fire_completed t w4 Hh) as (Hr & Hheap).
      unfold try_except.
      destruct (fire OnCompleted t w4) as [[] w5|e' w5]; [|discriminate].
      cbn [world_of raised] in *. cbn zeta. rewrite Hheap.
      split; [reflexivity|]. subst w4. simpl.
      split; [|split]; intros a; destruct (Nat.eqb a (addr t));
        simpl; try reflexivity; now rewrite orb_false_r.
    + pose proof (Hexc e eq_refl) as Hx'.
      rewrite (execute_task_raises_eq t w e Hflag He Hx').
      set (w4 := world_of (set_status t FAILED _)).
      assert (Hh : hook_of OnFailed (obj w4 t) = Some SchedulerOnFailed).
      { subst w4. now rewrite hook_of_set_status, hook_of_set_result,
          hook_of_emit, hook_of_set_status. }
      destruct (fire_cascade OnFailed t w4 (or_introl Hh)) as (Hr & Hfl).
      destruct (fire_footprint OnFailed t w4) as (_ & _ & _ & Hsame & _).
      cbn zeta. split; [exact Hr|]. split; [|split].
      * intros a. destruct (Hsame a) as (-> & _). subst w4. simpl.
        now destruct (Nat.eqb a (addr t)).
      * intros a. destruct (Hsame a) as (_ & _ & -> & _). subst w4. simpl.
        now destruct (Nat.eqb a (addr t)).
      * intros a. rewrite Hfl. subst w4. simpl.
        now destruct (Nat.eqb a (addr t)).
Qed.

Lemma final_status_terminal (o : TaskObj) : is_terminal (final_status o) = true.
Proof.
  unfold final_status. destruct (canceled_event o); [reflexivity|].
  now destruct (execute o).
Qed.

Lemma final_status_cascades (o : TaskObj) :
  failed_or_canceled (final_status o) = cascades o.
Proof.
  unfold final_status, cascades. destruct (canceled_event o); [reflexivity|].
  now destruct (execute o).
Qed.

(** A yielded unit, marked and then run. *)
Lemma run_unit (t : Task) (w : World) :
  installed w t ->
  (forall e, execute (obj w t) = Raises e -> is_Exception e = true) ->
  let r := execute_task t (world_of (mark_as_scheduled t w)) in
  raised r = None /\
  (forall a, status (heap (world_of r) a) =
             if Nat.eqb a (addr t) then final_status (obj w t)
             else status (heap w a)) /\
  (forall a, result (heap (world_of r) a) =
             if Nat.eqb a (addr t) then final_result (obj w t)
             else result (heap w a)) /\
  (forall a, canceled_event (heap (world_of r) a) =
             canceled_event (heap w a)
             || (cascades (obj w t) && among (dependents_of w t) a)) /\
  preserved w (world_of r).
Proof.
  intros Hi Hx. set (w1 := world_of (mark_as_scheduled t w)).
  assert (Ho : dependencies (obj w1 t) = dependencies (obj w t) /\
               execute (obj w1 t) = execute (obj w t) /\
               canceled_event (obj w1 t) = canceled_event (obj w t) /\
               result (obj w1 t) = result (obj w t)).
  { subst w1. unfold obj. simpl. rewrite Nat.eqb_refl. simpl. tauto. }
  destruct Ho as (_ & He & Hc & Hr).
  assert (Hi1 : installed w1 t).
  { destruct Hi as (H1 & H2 & H3). subst w1. unfold installed, obj. simpl.
    rewrite Nat.eqb_refl. simpl. tauto. }
  assert (Hx1 : forall e, execute (obj w1 t) = Raises e -> is_Exception e = true).
  { intros e. rewrite He. apply Hx. }
  destruct (execute_task_engine t w1 Hi1 Hx1) as (Hraise & Hs & Hres & Hf).
  assert (Efs : final_status (obj w1 t) = final_status (obj w t)).
  { unfold final_status. now rewrite He, Hc. }
  assert (Efr : final_result (obj w1 t) = final_result (obj w t)).
  { unfold final_result. now rewrite He, Hc, Hr. }
  assert (Ecs : cascades (obj w1 t) = cascades (obj w t)).
  { unfold cascades. now rewrite He, Hc. }
  cbn zeta. split; [exact Hraise|]. split; [|split; [|split]].
  - intros a. rewrite Hs, Efs. subst w1. simpl.
    now destruct (Nat.eqb a (addr t)).
  - intros a. rewrite Hres, Efr. subst w1. simpl.
    now destruct (Nat.eqb a (addr t)).
  - intros a. rewrite Hf, Ecs. subst w1. simpl.
    now destruct (Nat.eqb a (addr t)).
  - eapply preserved_trans; [apply (preserved_set_status t SCHEDULED)|].
    apply preserved_execute_task.
Qed.

Lemma among_true (ds : list Task) (a : nat) :
  among ds a = true <-> exists d, In d ds /\ addr d = a.
Proof.
  unfold among. rewrite existsb_exists.
  split; intros (d & Hd & E); exists d; (split; [assumption|]);
    now apply Nat.eqb_eq.
Qed.

Lemma topological_in (w : World) (done : list Task) :
  topological w done ->
  forall s r, In s done -> In r (deps_of w s) -> set_mem r done = true.
Proof.
  induction 1 as [|done t Ht IH Hdeps]; [contradiction|].
  intros s r Hs Hr. rewrite set_mem_app. apply orb_true_iff. left.
  apply in_app_or in Hs. destruct Hs as [Hs|[->|[]]].
  - now apply (IH s).
  - now apply Hdeps.
Qed.

Lemma graph_ok_same_graph (w w' : World) :
  same_graph w w' -> graph_ok w -> graph_ok w'.
Proof.
  intros (Hd & Hb) [H1 H2 H3 H4 H5].
  assert (Hdeps : forall k, deps_of w' k = deps_of w k).
  { intros k. unfold deps_of. now rewrite Hd. }
  constructor.
  - now rewrite Hd.
  - intros d. rewrite Hdeps. apply H2.
  - intros p. rewrite Hb. apply H3.
  - intros p d. rewrite Hb, Hd. apply H4.
  - intros p d. rewrite Hb, Hd, Hdeps. apply H5.
Qed.

Section Sequential.
Variable w0 : World.
Hypothesis Hok : graph_ok w0.
Hypothesis Hone : one_object_per_id w0.
Hypothesis Hclosed : closed_graph w0.
Hypothesis Hfresh : fresh w0.

Lemma key_registered (k : Task) :
  In k (dict_keys (task_to_dependencies w0)) ->
  dict_contains k (task_to_dependencies w0) = true.
Proof. intros H. rewrite dict_contains_keys. now apply set_mem_in. Qed.

Lemma key_same_object (k k' : Task) :
  In k (dict_keys (task_to_dependencies w0)) ->
  In k' (dict_keys (task_to_dependencies w0)) ->
  (task_id k = task_id k' <-> addr k = addr k').
Proof. intros H H'. apply Hone; now left. Qed.

Lemma prerequisite_key (k p : Task) :
  In k (dict_keys (task_to_dependencies w0)) ->
  In p (deps_of w0 k) ->
  exists kp, In kp (dict_keys (task_to_dependencies w0)) /\
             addr kp = addr p /\ task_id kp = task_id p.
Proof.
  intros Hk Hp.
  pose proof (Hclosed k p (key_registered k Hk) Hp) as Hc.
  apply dict_contains_true in Hc. destruct Hc as (kp & Hkp & E).
  exists kp. split; [assumption|]. split; [|assumption].
  apply Hone; [now left|right; left; now exists k|assumption].
Qed.

(** A unit with the object of [t] among its prerequisites has its own
    object among the dependents of [t], and conversely. *)
Lemma dependent_of_prerequisite (k t p : Task) :
  In k (dict_keys (task_to_dependencies w0)) ->
  In t (dict_keys (task_to_dependencies w0)) ->
  In p (deps_of w0 k) -> addr p = addr t ->
  among (dependents_of w0 t) (addr k) = true.
Proof.
  intros Hk Ht Hp E.
  assert (Hid : task_id p = task_id t).
  { apply Hone; [right; left; now exists k|now left|assumption]. }
  assert (Hm : set_mem t (deps_of w0 k) = true).
  { apply set_mem_true. now exists p. }
  rewrite <- (edges_agree w0 Hok t k (key_registered k Hk)) in Hm.
  apply set_mem_true in Hm. destruct Hm as (d & Hd & Ed).
  apply among_true. exists d. split; [assumption|].
  apply Hone; [right; right; now exists t|now left|assumption].
Qed.

Lemma prerequisite_of_dependent (k t : Task) :
  In k (dict_keys (task_to_dependencies w0)) ->
  In t (dict_keys (task_to_dependencies w0)) ->
  among (dependents_of w0 t) (addr k) = true ->
  exists p, In p (deps_of w0 k) /\ addr p = addr t.
Proof.
  intros Hk Ht Ha. apply among_true in Ha. destruct Ha as (d & Hd & E).
  assert (Hid : task_id d = task_id k).
  { apply Hone; [right; right; now exists t|now left|assumption]. }
  assert (Hm : set_mem k (dependents_of w0 t) = true).
  { apply set_mem_true. now exists d. }
  rewrite (edges_agree w0 Hok t k (key_registered k Hk)) in Hm.
  apply set_mem_true in Hm. destruct Hm as (p & Hp & Ep).
  exists p. split; [assumption|].
  apply Hone; [right; left; now exists k|now left|assumption].
Qed.

Lemma seq_inv_keys (w : World) (seen : list Task) :
  seq_inv w0 w seen ->
  task_to_dependencies w = task_to_dependencies w0 /\
  (forall k, dependents_of w k = dependents_of w0 k) /\
  (forall k, deps_of w k = deps_of w0 k) /\
  forall k, In k (dict_keys (task_to_dependencies w0)) ->
            installed w k /\ execute (obj w k) = execute (obj w0 k) /\
            (forall e, execute (obj w k) = Raises e -> is_Exception e = true) /\
            (canceled_event (obj w0 k) = true -> canceled_event (obj w k) = true).
Proof.
  intros [[Hk (Hd & Hb)] _ _ _ _ _ _ _ _ _ _].
  split; [assumption|]. split; [assumption|].
  split; [intros k; unfold deps_of; now rewrite Hd|].
  intros k Hin. destruct (Hfresh k Hin) as (_ & (I1 & I2 & I3) & Hx).
  destruct (Hk (addr k)) as (_ & He & H1 & H2 & H3 & Hc).
  unfold installed, obj in *. rewrite He, H1, H2, H3. tauto.
Qed.

(** A unit that has left [PENDING] has no [PENDING] prerequisite. *)
Lemma seen_prerequisites (w : World) (seen : list Task) (k p : Task) :
  seq_inv w0 w seen ->
  In k (dict_keys (task_to_dependencies w0)) ->
  status (obj w k) <> PENDING ->
  In p (deps_of w0 k) ->
  status (obj w p) <> PENDING.
Proof.
  intros Hinv Hk Hs Hp.
  apply (si_seen w0 w seen Hinv k Hk) in Hs.
  apply set_mem_true in Hs. destruct Hs as (s & Hsin & Es).
  assert (Hps : In p (deps_of w0 s)).
  { rewrite (deps_of_congr w0 s k); [assumption|]. now apply task_eqb_eq. }
  pose proof (topological_in w0 seen (si_order w0 w seen Hinv) s p Hsin Hps)
    as Hm.
  destruct (prerequisite_key k p Hk Hp) as (kp & Hkp & Ea & Ei).
  assert (Hm' : set_mem kp seen = true).
  { rewrite (set_mem_congr kp p); [assumption|]. now apply task_eqb_eq. }
  apply (si_seen w0 w seen Hinv kp Hkp) in Hm'.
  unfold obj in *. now rewrite <- Ea.
Qed.

Lemma NoDup_ids_snoc (l : list Task) (t : Task) :
  NoDup (ids l) -> set_mem t l = false -> NoDup (ids (l ++ [t])).
Proof.
  intros Hnd Hm. apply set_mem_false_ids in Hm. unfold ids in *.
  rewrite map_app. simpl.
  induction (map task_id l) as [|x xs IH]; simpl.
  - constructor; [intros []|constructor].
  - inversion Hnd as [|? ? Hn Hd]; subst. constructor.
    + intros Hin. apply in_app_or in Hin. destruct Hin as [Hin|[E|[]]].
      * now apply Hn.
      * apply Hm. now left.
    + apply IH; [assumption|]. intros Hin. apply Hm. now right.
Qed.

(** The invariant is kept when a ready unit is marked and run. *)
Lemma seq_inv_step (w : World) (seen : list Task) (t : Task) :
  seq_inv w0 w seen -> ready w t ->
  let r := execute_task t (world_of (mark_as_scheduled t w)) in
  raised r = None /\ seq_inv w0 (world_of r) (seen ++ [t]).
Proof.
  intros Hinv Hready.
  destruct (seq_inv_keys w seen Hinv) as (Hdeps & Hdpt & Hdo & Hobj).
  assert (Ht : In t (dict_keys (task_to_dependencies w0))).
  { rewrite <- Hdeps. now apply ready_registered. }
  destruct Hready as (ds & Hin & Hpend & Hterm).
  assert (Eds : deps_of w0 t = ds).
  { unfold deps_of, bucket. rewrite Hdeps in Hin.
    now rewrite (dict_get_in_nodup t ds _ (keys_distinct w0 Hok) Hin). }
  destruct (Hobj t Ht) as (Hinst & Hexe & Hexc & _).
  destruct (run_unit t w Hinst Hexc) as (Hraise & Hs & Hres & Hf & Hpres).
  cbn zeta. split; [exact Hraise|].
  set (w2 := world_of (execute_task t (world_of (mark_as_scheduled t w)))) in *.
  assert (Hs' : forall x, status (obj w2 x) =
                  if Nat.eqb (addr x) (addr t) then final_status (obj w t)
                  else status (obj w x)) by (intros x; apply Hs).
  assert (Hres' : forall x, result (obj w2 x) =
                  if Nat.eqb (addr x) (addr t) then final_result (obj w t)
                  else result (obj w x)) by (intros x; apply Hres).
  assert (Hf' : forall x, canceled_event (obj w2 x) =
                  canceled_event (obj w x)
                  || (cascades (obj w t) && among (dependents_of w0 t) (addr x))).
  { intros x. unfold obj at 1. rewrite Hf. now rewrite Hdpt. }
  assert (Hsame : forall x, addr x = addr t -> obj w x = obj w t).
  { intros x E. unfold obj. now rewrite E. }
  assert (Hft : final_status (obj w t) <> PENDING).
  { intros E. pose proof (final_status_terminal (obj w t)) as T.
    rewrite E in T. discriminate. }
  (* the unit is not among its own dependents *)
  assert (Hself : forall k, In k (dict_keys (task_to_dependencies w0)) ->
            status (obj w k) <> PENDING ->
            among (dependents_of w0 t) (addr k) = false).
  { intros k Hk Hnp. destruct (among _ _) eqn:A; [exfalso|reflexivity].
    destruct (prerequisite_of_dependent k t Hk Ht A) as (p & Hp & E).
    apply (seen_prerequisites w seen k p Hinv Hk Hnp Hp).
    now rewrite (Hsame p E). }
  assert (Hnot_own : among (dependents_of w0 t) (addr t) = false).
  { destruct (among _ _) eqn:A; [exfalso|reflexivity].
    destruct (prerequisite_of_dependent t t Ht Ht A) as (p & Hp & E).
    rewrite Eds in Hp. specialize (Hterm p Hp).
    rewrite (Hsame p E), Hpend in Hterm. discriminate. }
  constructor.
  - eapply preserved_trans; [apply (si_preserved w0 w seen Hinv)|exact Hpres].
  - intros k Hk. rewrite Hs'. destruct (Nat.eqb (addr k) (addr t)).
    + right. apply final_status_terminal.
    + apply (si_status w0 w seen Hinv k Hk).
  - intros k Hk. rewrite Hs', set_mem_app. cbn [set_mem existsb].
    rewrite orb_false_r.
    destruct (Nat.eqb (addr k) (addr t)) eqn:E.
    + apply Nat.eqb_eq in E. apply (key_same_object k t Hk Ht) in E.
      apply task_eqb_eq in E. rewrite E, orb_true_r. tauto.
    + assert (Et : task_eqb k t = false).
      { destruct (task_eqb k t) eqn:Q; [|reflexivity].
        apply task_eqb_eq in Q. apply (key_same_object k t Hk Ht) in Q.
        apply Nat.eqb_neq in E. contradiction. }
      rewrite Et, orb_false_r. apply (si_seen w0 w seen Hinv k Hk).
  - apply NoDup_ids_snoc; [apply (si_seen_distinct w0 w seen Hinv)|].
    destruct (set_mem t seen) eqn:M; [exfalso|reflexivity].
    now apply (si_seen w0 w seen Hinv t Ht) in M.
  - intros x Hx. apply in_app_or in Hx. destruct Hx as [Hx|[<-|[]]].
    + now apply (si_seen_keys w0 w seen Hinv).
    + assumption.
  - constructor; [apply (si_order w0 w seen Hinv)|].
    intros r Hr. destruct (prerequisite_key t r Ht Hr) as (kr & Hkr & Ea & Ei).
    rewrite <- (set_mem_congr kr r) by now apply task_eqb_eq.
    apply (si_seen w0 w seen Hinv kr Hkr).
    rewrite Eds in Hr. specialize (Hterm r Hr).
    unfold obj in *. rewrite Ea. intros E. rewrite E in Hterm. discriminate.
  - intros k p Hk Hp. rewrite Hs', Hf'.
    destruct (Nat.eqb (addr p) (addr t)) eqn:E.
    + apply Nat.eqb_eq in E. rewrite final_status_cascades. intros ->.
      rewrite (dependent_of_prerequisite k t p Hk Ht Hp E).
      now rewrite orb_true_r.
    + intros Hfc. rewrite (si_flag w0 w seen Hinv k p Hk Hp Hfc). reflexivity.
  - intros k Hk. rewrite Hf'. intros Hfl. apply orb_true_iff in Hfl.
    destruct Hfl as [Hfl|Hfl].
    + destruct (si_flag_why w0 w seen Hinv k Hk Hfl) as [H0|(p & Hp & Hfc)];
        [now left|].
      right. exists p. split; [assumption|]. rewrite Hs'.
      destruct (Nat.eqb (addr p) (addr t)) eqn:E; [|assumption].
      apply Nat.eqb_eq in E. rewrite (Hsame p E), Hpend in Hfc. discriminate.
    + apply andb_true_iff in Hfl. destruct Hfl as (Hc & Ha).
      destruct (prerequisite_of_dependent k t Hk Ht Ha) as (p & Hp & E).
      right. exists p. split; [assumption|]. rewrite Hs'.
      apply Nat.eqb_eq in E. rewrite E. now rewrite final_status_cascades.
  - intros k Hk. rewrite Hs', Hres'.
    destruct (Nat.eqb (addr k) (addr t)); [intros E; contradiction|].
    apply (si_pending w0 w seen Hinv k Hk).
  - intros k Hk. rewrite Hs', Hres', Hf'.
    destruct (Nat.eqb (addr k) (addr t)) eqn:E.
    + apply Nat.eqb_eq in E. rewrite (Hsame k E).
      unfold final_status, final_result.
      destruct (canceled_event (obj w t)) eqn:C.
      * intros _. split; [reflexivity|].
        rewrite <- (Hsame k E). apply (si_pending w0 w seen Hinv k Hk).
        now rewrite (Hsame k E).
      * destruct (execute (obj w t)); discriminate.
    + intros Hc. destruct (si_canceled w0 w seen Hinv k Hk Hc) as (-> & ->).
      tauto.
  - intros k Hk. rewrite Hs', Hres', Hf'.
    destruct (Nat.eqb (addr k) (addr t)) eqn:E.
    + apply Nat.eqb_eq in E. rewrite (Hsame k E). rewrite E, Hnot_own.
      rewrite andb_false_r, orb_false_r. intros Hst.
      assert (C : canceled_event (obj w t) = false).
      { unfold final_status in Hst.
        destruct (canceled_event (obj w t)); [|reflexivity].
        destruct Hst; discriminate. }
      split; [assumption|].
      assert (Ex : execute (obj w2 k) = execute (obj w t)).
      { destruct Hpres as (Hk2 & _). destruct (Hk2 (addr k)) as (_ & He & _).
        unfold obj in *. rewrite He. now rewrite E. }
      assert (C2 : canceled_event (obj w2 k) = false).
      { rewrite Hf'. rewrite (Hsame k E), C, E, Hnot_own.
        now rewrite andb_false_r. }
      unfold final_status, final_result. rewrite C, C2, Ex. tauto.
    + intros Hst.
      assert (Hnp : status (obj w k) <> PENDING).
      { intros Q. rewrite Q in Hst. destruct Hst; discriminate. }
      destruct (si_ran w0 w seen Hinv k Hk Hst) as (C & Hfs & Hfr).
      rewrite C, (Hself k Hk Hnp), andb_false_r. split; [reflexivity|].
      assert (Ex : execute (obj w2 k) = execute (obj w k)).
      { destruct Hpres as (Hk2 & _). destruct (Hk2 (addr k)) as (_ & He & _).
        exact He. }
      assert (C2 : canceled_event (obj w2 k) = false).
      { rewrite Hf'. rewrite C, (Hself k Hk Hnp). now rewrite andb_false_r. }
      unfold final_status, final_result in *. rewrite C2, Ex.
      rewrite C in Hfs, Hfr. tauto.
Qed.

Lemma seq_inv_initial (w1 : World) :
  same_units w0 w1 ->
  (forall k, dependents_of w1 k = dependents_of w0 k) ->
  seq_inv w0 w1 [].
Proof.
  intros (Hh & Hd & _) Hb.
  assert (Hobj : forall x, obj w1 x = obj w0 x).
  { intros x. unfold obj. now rewrite Hh. }
  assert (Hp : forall k, In k (dict_keys (task_to_dependencies w0)) ->
                         status (obj w1 k) = PENDING).
  { intros k Hk. rewrite Hobj. now destruct (Hfresh k Hk). }
  constructor.
  - split; [intros a; rewrite Hh; apply kept_refl|]. split; assumption.
  - intros k Hk. left. now apply Hp.
  - intros k Hk. rewrite (Hp k Hk). simpl. split; [discriminate|congruence].
  - constructor.
  - intros t [].
  - constructor.
  - intros k p Hk Hin.
    destruct (prerequisite_key k p Hk Hin) as (kp & Hkp & Ea & _).
    pose proof (Hp kp Hkp) as Q. unfold obj in *. rewrite <- Ea, Q.
    discriminate.
  - intros k Hk. rewrite Hobj. now left.
  - intros k Hk _. now rewrite Hobj.
  - intros k Hk. rewrite (Hp k Hk). discriminate.
  - intros k Hk. rewrite (Hp k Hk). intros [|]; discriminate.
Qed.

(** With a topological order of the registered units at hand, a scan that
    finds a [PENDING] unit finds a ready one: the first [PENDING] unit of the
    order. *)
Lemma pending_then_ready (w : World) (seen : list Task) (done : list Task) :
  seq_inv w0 w seen ->
  topological w0 done ->
  (exists k, In k (dict_keys (task_to_dependencies w0)) /\
             status (obj w k) = PENDING /\ set_mem k done = true) ->
  exists t, ready w t.
Proof.
  intros Hinv Htopo. destruct (seq_inv_keys w seen Hinv) as (Hdeps & _).
  induction Htopo as [|done t Ht IH Hpre].
  - intros (k & _ & _ & Hm). discriminate.
  - intros (k & Hk & Hp & Hm).
    destruct (existsb (fun k' => status_eqb (status (obj w k')) PENDING
                                 && set_mem k' done)
                      (dict_keys (task_to_dependencies w0))) eqn:Ex.
    + apply existsb_exists in Ex. destruct Ex as (k' & Hk' & Hb).
      apply andb_true_iff in Hb. destruct Hb as (Hs & Hm').
      apply status_eqb_eq in Hs. apply IH. now exists k'.
    + assert (Hnone : forall k', In k' (dict_keys (task_to_dependencies w0)) ->
                set_mem k' done = true -> status (obj w k') <> PENDING).
      { intros k' Hk' Hm' Hs.
        assert (E : existsb (fun k' => status_eqb (status (obj w k')) PENDING
                                       && set_mem k' done)
                            (dict_keys (task_to_dependencies w0)) = true).
        { apply existsb_exists. exists k'. split; [assumption|].
          apply andb_true_iff. split; [now apply status_eqb_eq|assumption]. }
        congruence. }
      rewrite set_mem_app in Hm. cbn [set_mem existsb] in Hm.
      rewrite orb_false_r in Hm. apply orb_true_iff in Hm.
      destruct Hm as [Hm|Hm]; [exfalso; now apply (Hnone k Hk Hm)|].
      exists k. pose proof Hk as Hk'. unfold dict_keys in Hk'.
      apply in_map_iff in Hk'. destruct Hk' as ([k1 ds] & E1 & Hin).
      simpl in E1. subst k1. exists ds. rewrite Hdeps.
      split; [assumption|]. split; [assumption|].
      intros d Hd.
      assert (Eds : deps_of w0 k = ds).
      { unfold deps_of, bucket.
        now rewrite (dict_get_in_nodup k ds _ (keys_distinct w0 Hok) Hin). }
      assert (Hdk : In d (deps_of w0 k)) by now rewrite Eds.
      assert (Hdt : In d (deps_of w0 t)).
      { now rewrite <- (deps_of_congr w0 k t Hm). }
      destruct (prerequisite_key k d Hk Hdk) as (kd & Hkd & Ea & Ei).
      assert (Hmd : set_mem kd done = true).
      { rewrite (set_mem_congr kd d); [now apply Hpre|]. now apply task_eqb_eq. }
      pose proof (Hnone kd Hkd Hmd) as Hnp.
      destruct (si_status w0 w seen Hinv kd Hkd) as [Q|Q]; [contradiction|].
      unfold obj in *. now rewrite <- Ea.
Qed.

Lemma distinct_objects_initial : distinct_objects w0.
Proof.
  unfold distinct_objects. pose proof (keys_distinct w0 Hok) as Hnd.
  assert (Hinj : forall x y, In x (dict_keys (task_to_dependencies w0)) ->
                             In y (dict_keys (task_to_dependencies w0)) ->
                             addr x = addr y -> task_id x = task_id y).
  { intros x y Hx Hy. apply key_same_object; assumption. }
  unfold ids in Hnd.
  induction (dict_keys (task_to_dependencies w0)) as [|x l IH]; simpl;
    [constructor|].
  inversion Hnd as [|? ? Hn Hd]; subst. constructor.
  - intros Hin. apply in_map_iff in Hin. destruct Hin as (y & E & Hy).
    apply Hn. apply in_map_iff. exists y. split; [|assumption].
    apply Hinj; [now right|now left|assumption].
  - apply IH; [assumption|]. intros a b Ha Hb. apply Hinj; now right.
Qed.

Lemma key_unique (k k' : Task) :
  In k (dict_keys (task_to_dependencies w0)) ->
  In k' (dict_keys (task_to_dependencies w0)) ->
  task_id k = task_id k' -> k = k'.
Proof.
  pose proof (keys_distinct w0 Hok) as Hnd. unfold ids in Hnd.
  induction (dict_keys (task_to_dependencies w0)) as [|x l IH];
    [contradiction|].
  inversion Hnd as [|? ? Hn Hd]; subst.
  intros [->|Hk] [->|Hk'] E.
  - reflexivity.
  - exfalso. apply Hn. apply in_map_iff. now exists k'.
  - exfalso. apply Hn. apply in_map_iff. now exists k.
  - now apply IH.
Qed.

(** From inside its loop the iterator of a run that started in [w0] stops
    after every registered unit was yielded and run. *)
Lemma drive_loop (order : list Task) :
  topological w0 order ->
  (forall d, dict_contains d (task_to_dependencies w0) = true ->
             set_mem d order = true) ->
  forall fuel g w seen,
    seq_inv w0 w seen -> g <> GNew -> g <> GDone -> batch_ready w g ->
    List.length (dict_keys (task_to_dependencies w0)) - List.length seen < fuel ->
    exists seen' w',
      drive fuel g w seen = (seen', Some StopIteration, w') /\
      seq_inv w0 w' seen' /\ no_pending w'.
Proof.
  intros Htopo Hcover. induction fuel as [|fuel IH];
    intros g w seen Hinv Hnew Hdone Hbatch Hfuel; [lia|].
  destruct (seq_inv_keys w seen Hinv) as (Hdeps & _).
  assert (Hdis : distinct_objects w).
  { unfold distinct_objects. rewrite Hdeps. apply distinct_objects_initial. }
  pose proof (resume_spec g w Hdone Hdis Hbatch) as Hspec.
  assert (Hexact : forall t g' w', resume g w = (Yield t, g', w') ->
            w' = world_of (mark_as_scheduled t w) /\ g' <> GNew /\ g' <> GDone).
  { intros t g' w'. destruct g as [|[|u rest]| |]; cbn [resume];
      try congruence; unfold loop_head;
      try (destruct (negb (has_pending_tasks w)); [discriminate|];
           destruct (collect_ready w) as [|u rest]; [discriminate|]);
      intros [= <- <- <-]; repeat split; discriminate. }
  cbn [drive].
  destruct (resume g w) as [[[t| | |e] g'] w1] eqn:R.
  - destruct Hspec as (Hready & Hsched & _ & Hb1).
    destruct (Hexact t g' w1 eq_refl) as (-> & Hg1 & Hg2).
    destruct (seq_inv_step w seen t Hinv Hready) as (Hraise & Hinv2).
    pose proof (execute_task_keeps_batch t _ g' Hsched Hb1) as Hb2.
    destruct (execute_task t (world_of (mark_as_scheduled t w)))
      as [[] w2|e w2]; [|discriminate].
    cbn [world_of] in *. apply (IH g' w2 (seen ++ [t]) Hinv2 Hg1 Hg2 Hb2).
    assert (Hlen : List.length (seen ++ [t])
                   <= List.length (dict_keys (task_to_dependencies w0))).
    { apply NoDup_incl_length.
      - apply (NoDup_map_inv task_id).
        apply (si_seen_distinct w0 w2 _ Hinv2).
      - intros x Hx. apply (si_seen_keys w0 w2 _ Hinv2 x Hx). }
    rewrite length_app in *. simpl in *. lia.
  - destruct Hspec as (Hnp & _ & Hsame). exists seen, w1.
    split; [reflexivity|].
    assert (E : w1 = w).
    { destruct g as [|[|u rest]| |]; cbn [resume] in R; try congruence;
        unfold loop_head in R;
        destruct (negb (has_pending_tasks w)); try congruence;
        destruct (collect_ready w); congruence. }
    subst w1. split; assumption.
  - exfalso. destruct Hspec as (Hnp & Hnr & _).
    assert (Hp : has_pending_tasks w = true).
    { destruct (has_pending_tasks w) eqn:P; [reflexivity|].
      exfalso. apply Hnp. now apply has_pending_tasks_false. }
    unfold has_pending_tasks in Hp. apply existsb_exists in Hp.
    destruct Hp as (k & Hk & Hs). apply status_eqb_eq in Hs.
    rewrite Hdeps in Hk.
    destruct (pending_then_ready w seen order Hinv Htopo) as (t & Ht).
    { exists k. split; [assumption|]. split; [assumption|].
      apply Hcover. now apply key_registered. }
    now apply (Hnr t).
  - destruct Hspec as (-> & _). congruence.
Qed.

(** The same loop stopped after any number of steps: the invariant holds
    wherever it stops. *)
Lemma drive_any (fuel : nat) :
  forall g w seen,
    seq_inv w0 w seen -> g <> GNew -> g <> GDone -> batch_ready w g ->
    exists seen' w',
      snd (drive fuel g w seen) = w' /\
      fst (fst (drive fuel g w seen)) = seen' /\
      seq_inv w0 w' seen'.
Proof.
  induction fuel as [|fuel IH]; intros g w seen Hinv Hnew Hdone Hbatch.
  - exists seen, w. split; [reflexivity|split; [reflexivity|assumption]].
  - destruct (seq_inv_keys w seen Hinv) as (Hdeps & _).
    assert (Hdis : distinct_objects w).
    { unfold distinct_objects. rewrite Hdeps. apply distinct_objects_initial. }
    pose proof (resume_spec g w Hdone Hdis Hbatch) as Hspec.
    assert (Hexact : forall p g' w', resume g w = (p, g', w') ->
              match p with
              | Yield t => w' = world_of (mark_as_scheduled t w) /\
                           g' <> GNew /\ g' <> GDone
              | _ => w' = w
              end).
    { intros p g' w'. destruct g as [|[|u rest]| |]; cbn [resume];
        try congruence; unfold loop_head;
        try (destruct (negb (has_pending_tasks w)); [now intros [= <- <- <-]|];
             destruct (collect_ready w) as [|u rest]; [now intros [= <- <- <-]|]);
        intros [= <- <- <-]; repeat split; discriminate. }
    cbn [drive].
    destruct (resume g w) as [[[t| | |e] g'] w1] eqn:R;
      pose proof (Hexact _ _ _ eq_refl) as Hw; cbn beta iota in Hw.
    + destruct Hspec as (Hready & Hsched & _ & Hb1).
      destruct Hw as (-> & Hg1 & Hg2).
      destruct (seq_inv_step w seen t Hinv Hready) as (Hraise & Hinv2).
      pose proof (execute_task_keeps_batch t _ g' Hsched Hb1) as Hb2.
      destruct (execute_task t (world_of (mark_as_scheduled t w)))
        as [[] w2|e w2]; [|discriminate].
      cbn [world_of] in *. apply (IH g' w2 (seen ++ [t]) Hinv2 Hg1 Hg2 Hb2).
    + subst w1. exists seen, w. split; [reflexivity|split; [reflexivity|assumption]].
    + subst w1. exists seen, w. split; [reflexivity|split; [reflexivity|assumption]].
    + subst w1. exists seen, w. split; [reflexivity|split; [reflexivity|assumption]].
Qed.

End Sequential.

(** ** The whole sequential run *)

Lemma handle_in_handles (w : World) (x : Task) :
  handle w x -> In x (handles w).
Proof.
  unfold handles. intros [H|[(d & H)|(p & H)]].
  - apply in_or_app. now left.
  - apply in_or_app. right. apply in_or_app. left.
    destruct (bucket_in _ _ _ H) as (k' & s & Hin & _ & E).
    unfold deps_of in H. rewrite E in H.
    apply in_concat. exists s. split; [|assumption].
    apply in_map_iff. now exists (k', s).
  - apply in_or_app. right. apply in_or_app. right.
    destruct (bucket_in _ _ _ H) as (k' & s & Hin & _ & E).
    unfold dependents_of in H. rewrite E in H.
    apply in_concat. exists s. split; [|assumption].
    apply in_map_iff. now exists (k', s).
Qed.

Lemma one_object_per_idb_sound (w : World) :
  one_object_per_idb w = true -> one_object_per_id w.
Proof.
  unfold one_object_per_idb. intros H x y Hx Hy.
  rewrite forallb_forall in H.
  pose proof (H x (handle_in_handles w x Hx)) as Hx'.
  rewrite forallb_forall in Hx'.
  pose proof (Hx' y (handle_in_handles w y Hy)) as E.
  apply Bool.eqb_prop in E.
  rewrite <- String.eqb_eq, <- Nat.eqb_eq, E. reflexivity.
Qed.

Lemma freshb_sound (w : World) : freshb w = true -> fresh w.
Proof.
  unfold freshb, fresh, fresh_unit, installed. intros H k Hk.
  rewrite forallb_forall in H. specialize (H k Hk).
  apply andb_true_iff in H. destruct H as (H & Hx).
  apply andb_true_iff in H. destruct H as (Hs & Hi).
  apply status_eqb_eq in Hs. split; [assumption|]. split.
  - unfold installedb in Hi.
    destruct (on_task_completed (obj w k)) as [[]|]; try discriminate.
    destruct (on_task_failed (obj w k)) as [[]|]; try discriminate.
    destruct (on_task_canceled (obj w k)) as [[]|]; try discriminate.
    tauto.
  - intros e He. now rewrite He in Hx.
Qed.

(** The cycle check answers [False] exactly on the graphs that are closed
    and have no cycle. *)
Lemma no_stuck_iff (w : World) :
  ~ (exists U, U <> [] /\ Forall (stuck_in w U) U) <->
  acyclic w /\ closed_graph w.
Proof.
  rewrite stuck_iff_cycle_or_missing. split.
  - intros H. split.
    + intros c. destruct (is_cycle w c) eqn:E; [|reflexivity].
      exfalso. apply H. left. now exists c.
    + intros d p Hd Hp.
      destruct (dict_contains p (task_to_dependencies w)) eqn:E; [reflexivity|].
      exfalso. apply H. right. exists d, p. split; [assumption|].
      split; [now apply set_mem_in|assumption].
  - intros (Ha & Hc) [(c & E)|(d & p & Hd & Hp & Hn)].
    + rewrite Ha in E. discriminate.
    + apply set_mem_true in Hp. destruct Hp as (x & Hx & E).
      pose proof (Hc d x Hd Hx) as Q.
      rewrite (dict_contains_congr x p) in Q by now apply task_eqb_eq.
      congruence.
Qed.

Lemma has_cycles_passes (w : World) :
  graph_ok w -> acyclic w -> closed_graph w ->
  exists w' order,
    has_cycles w = Ok false w' /\ same_units w w' /\
    (forall k, dependents_of w' k = dependents_of w k) /\
    topological w order /\
    (forall d, dict_contains d (task_to_dependencies w) = true ->
               set_mem d order = true).
Proof.
  intros Hok Ha Hc.
  destruct (has_cycles_exact w Hok) as (b & w' & E & Hs & Hd & Hb & Ho).
  destruct b.
  - exfalso. apply (proj2 (no_stuck_iff w) (conj Ha Hc)). now apply Hb.
  - destruct (Ho eq_refl) as (order & Ht & _ & Hcov).
    exists w', order. repeat split; try assumption; try apply Hs.
    intros d. apply Hcov.
Qed.

Lemma has_cycles_false_graph (w w' : World) :
  graph_ok w -> has_cycles w = Ok false w' -> acyclic w /\ closed_graph w.
Proof.
  intros Hok E. apply no_stuck_iff. intros HU.
  destruct (has_cycles_exact w Hok) as (b & w1 & E1 & _ & _ & Hb & _).
  apply Hb in HU. rewrite E in E1. congruence.
Qed.

Lemma drive_new (fuel : nat) (w w1 : World) :
  has_cycles w = Ok false w1 ->
  drive (S fuel) ready_tasks w [] = drive (S fuel) GWaiting w1 [].
Proof. intros E. unfold ready_tasks. cbn [drive resume]. now rewrite E. Qed.

Lemma sequential_run_core (w0 : World) (fuel : nat) :
  graph_ok w0 -> one_object_per_id w0 -> closed_graph w0 -> acyclic w0 ->
  fresh w0 ->
  List.length (dict_keys (task_to_dependencies w0)) < fuel ->
  exists seen w',
    drive fuel ready_tasks w0 [] = (seen, Some StopIteration, w') /\
    seq_inv w0 w' seen /\ no_pending w'.
Proof.
  intros Hok Hone Hclosed Hacyc Hfresh Hfuel.
  destruct (has_cycles_passes w0 Hok Hacyc Hclosed)
    as (w1 & order & E & Hs & Hd & Ht & Hcov).
  destruct fuel as [|fuel]; [lia|]. rewrite (drive_new fuel w0 w1 E).
  apply (drive_loop w0 Hok Hone Hclosed Hfresh order Ht Hcov).
  - now apply seq_inv_initial.
  - discriminate.
  - discriminate.
  - exact I.
  - simpl. lia.
Qed.

Lemma sequential_any_core (w0 : World) (fuel : nat) :
  graph_ok w0 -> one_object_per_id w0 -> fresh w0 ->
  heap (snd (drive fuel ready_tasks w0 [])) = heap w0 \/
  (closed_graph w0 /\
   seq_inv w0 (snd (drive fuel ready_tasks w0 []))
           (fst (fst (drive fuel ready_tasks w0 [])))).
Proof.
  intros Hok Hone Hfresh. destruct fuel as [|fuel]; [now left|].
  destruct (has_cycles_exact w0 Hok) as (b & w1 & E & Hs & Hd & _).
  destruct b.
  - left. unfold ready_tasks. cbn [drive resume]. rewrite E. simpl. apply Hs.
  - destruct (has_cycles_false_graph w0 w1 Hok E) as (Hacyc & Hclosed).
    right. split; [assumption|]. rewrite (drive_new fuel w0 w1 E).
    destruct (drive_any w0 Hok Hone Hclosed Hfresh (S fuel) GWaiting w1 [])
      as (seen' & w' & <- & <- & Hinv);
      [now apply seq_inv_initial|discriminate|discriminate|exact I|].
    exact Hinv.
Qed.

(** What the invariant tells of a unit and its prerequisites. *)
Lemma seq_inv_prerequisites (w0 w : World) (seen : list Task) (k p : Task) :
  one_object_per_id w0 -> closed_graph w0 -> fresh w0 ->
  seq_inv w0 w seen ->
  In k (dict_keys (task_to_dependencies w0)) -> In p (deps_of w0 k) ->
  (status (obj w k) <> PENDING -> is_terminal (status (obj w p)) = true) /\
  (status (obj w k) = COMPLETED -> status (obj w p) = COMPLETED).
Proof.
  intros Hone Hclosed Hfresh Hinv Hk Hp.
  assert (Hterm : status (obj w k) <> PENDING ->
                  is_terminal (status (obj w p)) = true).
  { intros Hs.
    pose proof (seen_prerequisites w0 Hone Hclosed w seen k p Hinv Hk Hs Hp)
      as Hnp.
    destruct (prerequisite_key w0 Hone Hclosed k p Hk Hp) as (kp & Hkp & Ea & _).
    destruct (si_status w0 w seen Hinv kp Hkp) as [Q|Q];
      unfold obj in *; rewrite Ea in Q; [contradiction|assumption]. }
  split; [assumption|]. intros Hc.
  assert (Hnp : status (obj w k) <> PENDING) by congruence.
  specialize (Hterm Hnp).
  destruct (si_ran w0 w seen Hinv k Hk (or_introl Hc)) as (Hflag & _).
  destruct (failed_or_canceled (status (obj w p))) eqn:F.
  - rewrite (si_flag w0 w seen Hinv k p Hk Hp F) in Hflag. discriminate.
  - destruct (status (obj w p)); simpl in *; congruence.
Qed.

(** The final status and result of a unit after a run that ended with no
    unit [PENDING]. *)
Lemma seq_inv_outcome (w0 w : World) (seen : list Task) (k : Task) :
  fresh w0 -> seq_inv w0 w seen -> no_pending w ->
  In k (dict_keys (task_to_dependencies w0)) ->
  (doomed w0 w k ->
   status (obj w k) = CANCELED /\ result (obj w k) = result (obj w0 k)) /\
  (~ doomed w0 w k ->
   match execute (obj w0 k) with
   | Returns v => status (obj w k) = COMPLETED /\ result (obj w k) = v
   | Raises e => status (obj w k) = FAILED /\ result (obj w k) = VExc e
   end).
Proof.
  intros Hfresh Hinv Hnp Hk.
  destruct (seq_inv_keys w0 Hfresh w seen Hinv) as (Hdeps & _ & _ & Hobj).
  destruct (Hobj k Hk) as (_ & Hexe & _ & Hmono).
  assert (Hk' : In k (dict_keys (task_to_dependencies w))) by now rewrite Hdeps.
  pose proof (Hnp k Hk') as Hs.
  destruct (si_status w0 w seen Hinv k Hk) as [Q|Q]; [contradiction|].
  destruct (status (obj w k)) eqn:St; try discriminate.
  - (* FAILED *)
    destruct (si_ran w0 w seen Hinv k Hk) as (Hflag & Hfs & Hfr);
      [right; assumption|].
    assert (Hnd : ~ doomed w0 w k).
    { intros [H0|(p & Hp & F)].
      - rewrite (Hmono H0) in Hflag. discriminate.
      - rewrite (si_flag w0 w seen Hinv k p Hk Hp F) in Hflag. discriminate. }
    split; [intros Hd; contradiction|]. intros _.
    unfold final_status, final_result in *. rewrite Hflag, Hexe in *.
    rewrite St in Hfs.
    destruct (execute (obj w0 k)); [discriminate|]. split; [reflexivity|].
    assumption.
  - (* COMPLETED *)
    destruct (si_ran w0 w seen Hinv k Hk) as (Hflag & Hfs & Hfr);
      [left; assumption|].
    assert (Hnd : ~ doomed w0 w k).
    { intros [H0|(p & Hp & F)].
      - rewrite (Hmono H0) in Hflag. discriminate.
      - rewrite (si_flag w0 w seen Hinv k p Hk Hp F) in Hflag. discriminate. }
    split; [intros Hd; contradiction|]. intros _.
    unfold final_status, final_result in *. rewrite Hflag, Hexe in *.
    rewrite St in Hfs.
    destruct (execute (obj w0 k)); [|discriminate]. split; [reflexivity|].
    assumption.
  - (* CANCELED *)
    destruct (si_canceled w0 w seen Hinv k Hk St) as (Hflag & Hres).
    pose proof (si_flag_why w0 w seen Hinv k Hk Hflag) as Hd.
    split; [intros _; split; [reflexivity|assumption]|].
    intros Hn. contradiction.
Qed.

(** ** Scheduler.__init__ *)

Lemma same_but_hooks_refl (o : TaskObj) : same_but_hooks o o.
Proof. unfold same_but_hooks. tauto. Qed.

Lemma same_but_hooks_trans (a b c : TaskObj) :
  same_but_hooks a b -> same_but_hooks b c -> same_but_hooks a c.
Proof.
  unfold same_but_hooks. intros (?&?&?&?&?) (?&?&?&?&?).
  repeat split; congruence.
Qed.

Lemma deps_of_set (k task : Task) (s : TaskSet) (w : World) :
  deps_of (world_of (set_dependencies_entry task s w)) k =
  if task_eqb k task then s else deps_of w k.
Proof. unfold deps_of. simpl. apply bucket_set. Qed.

(** What [schedule] does with a unit that is not registered yet. *)
Lemma schedule_spec (task : Task) (w : World) :
  dict_contains task (task_to_dependencies w) = false ->
  exists w',
    schedule task w = Ok tt w' /\
    dict_keys (task_to_dependencies w') =
      dict_keys (task_to_dependencies w) ++ [task] /\
    trace w' = trace w /\
    (forall a, same_but_hooks (heap w a) (heap w' a)) /\
    (forall x, installed w x \/ addr x = addr task -> installed w' x) /\
    (forall k, deps_of w' k =
               if task_eqb k task then set_of (dependencies (obj w task))
               else deps_of w k).
Proof.
  intros Hc. rewrite (schedule_fresh_eq task w Hc).
  set (l := dependencies (obj w task)).
  set (w3 := world_of (register OnCanceled task SchedulerOnCanceled _)).
  set (w4 := world_of (set_dependencies_entry task (set_of l) w3)).
  exists (add_dependents l task w4). split; [reflexivity|].
  destruct (add_dependents_world l task w4) as (Hh & Hd & Ht & _).
  cbv zeta in Hh, Hd, Ht.
  assert (Hheap : forall a, heap w4 a =
            if Nat.eqb a (addr task)
            then with_hook OnCanceled (Some SchedulerOnCanceled)
                   (with_hook OnFailed (Some SchedulerOnFailed)
                      (with_hook OnCompleted (Some SchedulerOnCompleted)
                         (heap w a)))
            else heap w a).
  { intros a. subst w4 w3. simpl. now destruct (Nat.eqb a (addr task)). }
  split; [|split; [|split; [|split]]].
  - rewrite Hd. subst w4 w3. simpl. now apply dict_set_keys_fresh.
  - rewrite Ht. reflexivity.
  - intros a. rewrite Hh, Hheap.
    destruct (Nat.eqb a (addr task)); [|apply same_but_hooks_refl].
    unfold same_but_hooks. simpl. tauto.
  - intros x Hx. unfold installed, obj. rewrite Hh, Hheap.
    destruct (Nat.eqb (addr x) (addr task)) eqn:E; simpl; [tauto|].
    destruct Hx as [Hx|Hx]; [exact Hx|].
    apply Nat.eqb_neq in E. contradiction.
  - intros k. unfold deps_of at 1. rewrite Hd.
    fold (deps_of w4 k). subst w4. rewrite deps_of_set. reflexivity.
Qed.

Lemma for_each_schedule_spec (tasks : list Task) :
  forall w,
    NoDup (ids tasks) ->
    (forall t, In t tasks ->
               dict_contains t (task_to_dependencies w) = false) ->
    exists w',
      for_each tasks schedule w = Ok tt w' /\
      dict_keys (task_to_dependencies w') =
        dict_keys (task_to_dependencies w) ++ tasks /\
      trace w' = trace w /\
      (forall a, same_but_hooks (heap w a) (heap w' a)) /\
      (forall x, installed w x \/ (exists t, In t tasks /\ addr x = addr t) ->
                 installed w' x) /\
      (forall k, In k tasks ->
                 deps_of w' k = set_of (dependencies (obj w k))) /\
      (forall k, set_mem k tasks = false -> deps_of w' k = deps_of w k).
Proof.
  induction tasks as [|t rest IH]; intros w Hnd Hnew.
  - exists w. unfold for_each. simpl. rewrite app_nil_r.
    split; [reflexivity|]. split; [reflexivity|]. split; [reflexivity|].
    split; [intros a; apply same_but_hooks_refl|].
    split; [intros x [Hx|(t & [] & _)]; exact Hx|].
    split; [intros k []|reflexivity].
  - inversion Hnd as [|? ? Hn Hnd']; subst.
    destruct (schedule_spec t w (Hnew t (or_introl eq_refl)))
      as (w1 & Es & Hk1 & Ht1 & Hh1 & Hi1 & Hd1).
    assert (Hrest : forall u, In u rest -> task_eqb u t = false).
    { intros u Hu. destruct (task_eqb u t) eqn:E; [exfalso|reflexivity].
      apply Hn. apply task_eqb_eq in E. rewrite <- E.
      unfold ids. now apply in_map. }
    destruct (IH w1 Hnd') as (w' & Ef & Hk & Ht & Hh & Hi & Hd & Hother).
    { intros u Hu. rewrite dict_contains_keys, Hk1, set_mem_app.
      rewrite <- dict_contains_keys, (Hnew u (or_intror Hu)).
      cbn [set_mem existsb]. now rewrite (Hrest u Hu). }
    exists w'. split; [|split; [|split; [|split; [|split; [|split]]]]].
    + unfold for_each in *. simpl. unfold bind at 1. rewrite Es. exact Ef.
    + rewrite Hk, Hk1, <- app_assoc. reflexivity.
    + congruence.
    + intros a. eapply same_but_hooks_trans; [apply Hh1|apply Hh].
    + intros x [Hx|(u & [<-|Hu] & E)].
      * apply Hi. left. apply Hi1. now left.
      * apply Hi. left. apply Hi1. now right.
      * apply Hi. right. now exists u.
    + intros k [<-|Hk'].
      * rewrite Hother, Hd1, task_eqb_refl; [reflexivity|].
        apply set_mem_false_ids. exact Hn.
      * rewrite (Hd k Hk'). unfold obj.
        destruct (Hh1 (addr k)) as (_ & -> & _). reflexivity.
    + intros k Hm. rewrite set_mem_cons in Hm. apply orb_false_iff in Hm.
      destruct Hm as (Hkt & Hm). rewrite (Hother k Hm), Hd1, Hkt. reflexivity.
Qed.

Lemma for_each_app {A} (l1 l2 : list A) (body : A -> M unit) (w : World) :
  for_each (l1 ++ l2) body w =
  match for_each l1 body w with
  | Ok _ w' => for_each l2 body w'
  | Raise e w' => Raise e w'
  end.
Proof.
  revert w. induction l1 as [|x l1 IH]; intros w; [reflexivity|].
  unfold for_each in *. simpl. unfold bind at 1 3.
  destruct (body x w) as [[] w1|e w1]; [apply IH|reflexivity].
Qed.

(** ** The exceptions of the cycle check *)

Lemma relax_all_error (ds : list Task) (od : TaskDict Z) (q : list Task)
    (e : PyExc) :
  relax_all ds (od, q) = inl e ->
  exists k, e = KeyError k /\ In k ds /\ set_mem k (dict_keys od) = false.
Proof.
  revert od q. induction ds as [|d ds IH]; intros od q; [discriminate|].
  cbn [relax_all]. unfold relax.
  destruct (dict_get d od) as [n|] eqn:G.
  - intros H. apply IH in H. destruct H as (k & -> & Hin & Hm).
    exists k. split; [reflexivity|]. split; [now right|].
    rewrite dict_set_keys in Hm; [assumption|congruence].
  - intros [= <-]. exists d. split; [reflexivity|]. split; [now left|].
    rewrite <- dict_contains_keys. unfold dict_contains. now rewrite G.
Qed.

Lemma relax_all_keys (ds : list Task) (od od' : TaskDict Z) (q q' : list Task) :
  relax_all ds (od, q) = inr (od', q') -> dict_keys od' = dict_keys od.
Proof.
  revert od q. induction ds as [|d ds IH]; intros od q.
  - now intros [= <- <-].
  - cbn [relax_all]. unfold relax.
    destruct (dict_get d od) as [n|] eqn:G; [|discriminate].
    intros H. apply IH in H. rewrite H. apply dict_set_keys. congruence.
Qed.

Lemma kahn_loop_error (fuel : nat) :
  forall dd od q n e dd',
    kahn_loop fuel dd od q n = Some (inl e, dd') ->
    exists k, e = KeyError k /\ set_mem k (dict_keys od) = false.
Proof.
  induction fuel as [|fuel IH]; intros dd od q n e dd'; [discriminate|].
  cbn [kahn_loop]. destruct q as [|t q]; [discriminate|].
  destruct (defaultdict_get t dd) as [ds dd1].
  destruct (relax_all ds (od, q)) as [e1|[od1 q1]] eqn:R.
  - intros [= <- <-]. destruct (relax_all_error _ _ _ _ R) as (k & E & _ & Hm).
    now exists k.
  - intros H. apply IH in H. destruct H as (k & E & Hm). exists k.
    split; [assumption|]. now rewrite <- (relax_all_keys _ _ _ _ _ R).
Qed.

Lemma has_cycles_total (w : World) :
  (exists b w', has_cycles w = Ok b w') \/
  (exists k w', has_cycles w = Raise (KeyError k) w' /\
                dict_contains k (task_to_dependencies w) = false).
Proof.
  unfold has_cycles. pose proof (has_cycles_fuel w) as Hfuel.
  destruct (kahn_loop _ _ _ _ 0) as [[[e|n] dd]|] eqn:K.
  - right. destruct (kahn_loop_error _ _ _ _ _ _ _ K) as (k & -> & Hm).
    exists k. eexists. split; [reflexivity|].
    now rewrite dict_contains_keys, <- out_degree_keys.
  - left. eexists. eexists. reflexivity.
  - contradiction.
Qed.

(** ** A completed hook that raises *)

Lemma execute_task_completed_hook_exception (self : Task) (w : World)
    (v : Value) (name : string) (e : PyExc) :
  canceled_event (obj w self) = false ->
  execute (obj w self) = Returns v ->
  on_task_completed (obj w self) = Some (Callback name (Some e)) ->
  is_Exception e = true ->
  let r := execute_task self w in
  exists evs,
    trace (world_of r) =
      trace w ++ [EvStatus self RUNNING; EvExecute self;
                  EvResult self v; EvStatus self COMPLETED;
                  EvHook OnCompleted self; EvCallback name self;
                  EvResult self (VExc e); EvStatus self FAILED]
              ++ hook_call OnFailed self w ++ evs /\
    forallb is_cascade_event evs = true /\
    status (obj (world_of r) self) = FAILED /\
    result (obj (world_of r) self) = VExc e /\
    raised r = hook_raises (on_task_failed (obj w self)).
Proof.
  intros Hc He Hh Hx. cbn zeta.
  rewrite (execute_task_returns_eq self w v Hc He).
  set (w4 := world_of (set_status self COMPLETED _)).
  assert (Hhk : forall s, hook_of s (obj w4 self) = hook_of s (obj w self)).
  { intros s. subst w4.
    now rewrite hook_of_set_status, hook_of_set_result, hook_of_emit,
      hook_of_set_status. }
  assert (Htr : trace w4 = trace w ++ [EvStatus self RUNNING; EvExecute self;
                   EvResult self v; EvStatus self COMPLETED]).
  { subst w4. simpl. now rewrite <- !app_assoc. }
  set (w5 := emit (EvCallback name self) (emit (EvHook OnCompleted self) w4)).
  assert (Hfire : fire OnCompleted self w4 = Raise e w5).
  { unfold fire. rewrite (Hhk OnCompleted). cbn [hook_of]. now rewrite Hh. }
  unfold try_except. rewrite Hfire, Hx.
  unfold bind. cbn [set_result set_status].
  set (w7 := emit (EvStatus self FAILED) _).
  assert (Hhk7 : forall s, hook_of s (obj w7 self) = hook_of s (obj w self)).
  { intros s. subst w7 w5. rewrite <- (Hhk s). unfold obj. simpl.
    rewrite Nat.eqb_refl. now destruct s. }
  destruct (fire_footprint OnFailed self w7) as (evs & Ht & Hcas & Hsame & _ & Hr).
  exists evs. split; [|split; [assumption|]].
  - rewrite Ht. unfold hook_call. rewrite Hhk7.
    replace (trace w7) with (trace w4 ++ [EvHook OnCompleted self;
               EvCallback name self; EvResult self (VExc e);
               EvStatus self FAILED])
      by (subst w7 w5; simpl; now rewrite <- !app_assoc).
    rewrite Htr. rewrite <- !app_assoc. reflexivity.
  - destruct (Hsame (addr self)) as (Hs & _ & Hres & _). unfold obj.
    rewrite Hs, Hres, Hr, (Hhk7 OnFailed). subst w7. simpl.
    rewrite !Nat.eqb_refl. simpl. tauto.
Qed.

(** ** A second iteration after a finished run *)

Lemma acyclic_same_graph (w w' : World) :
  same_graph w w' -> acyclic w -> acyclic w'.
Proof.
  intros (Hd & _) Ha c. rewrite <- (Ha c). unfold is_cycle.
  assert (Hp : forall l, is_path w' l = is_path w l).
  { induction l as [|a l IH]; [reflexivity|].
    destruct l as [|b l]; [reflexivity|].
    change (is_path w' (a :: b :: l))
      with (set_mem b (deps_of w' a) && is_path w' (b :: l)).
    change (is_path w (a :: b :: l))
      with (set_mem b (deps_of w a) && is_path w (b :: l)).
    rewrite IH. unfold deps_of. now rewrite Hd. }
  destruct c; [reflexivity|apply Hp].
Qed.

Lemma closed_graph_same_graph (w w' : World) :
  same_graph w w' -> closed_graph w -> closed_graph w'.
Proof.
  intros (Hd & _) Hc d p. unfold deps_of. rewrite Hd. apply Hc.
Qed.

Lemma run_again_empty (w : World) (fuel : nat) :
  graph_ok w -> acyclic w -> closed_graph w -> no_pending w ->
  exists w',
    drive (S fuel) ready_tasks w [] = ([], Some StopIteration, w') /\
    same_units w w'.
Proof.
  intros Hok Ha Hc Hnp.
  destruct (has_cycles_passes w Hok Ha Hc) as (w1 & _ & E & Hs & _).
  exists w1. split; [|assumption]. rewrite (drive_new fuel w w1 E).
  cbn [drive resume]. unfold loop_head.
  apply (no_pending_same_units w w1 Hs) in Hnp.
  apply has_pending_tasks_false in Hnp. now rewrite Hnp.
Qed.

(** ** Executor: pools that cannot be used *)

Lemma dispatch_nonpositive (n : Z) (t : Task) :
  (n <= 0)%Z ->
  dispatch t (new_executor n) =
  (new_executor n, Some (ValueError "max_workers must be greater than 0")).
Proof.
  intros Hn. unfold dispatch, ensure_thread_pool, new_thread_pool. simpl.
  apply Z.leb_le in Hn. now rewrite Hn.
Qed.

Lemma dispatch_after_shutdown (t : Task) (ex : Executor) (p : ThreadPoolExecutor) :
  pools_get (tag t) (tag_to_thread_pool ex) = Some p ->
  shutdown_calls p <> [] ->
  dispatch t ex =
  (ex, Some (RuntimeError "cannot schedule new futures after shutdown")).
Proof.
  intros Hg Hs. unfold dispatch, ensure_thread_pool. rewrite Hg.
  unfold pool_submit. destruct (shutdown_calls p); [contradiction|reflexivity].
Qed.

(** ** A cancel request that comes after the flag test *)

Lemma differ_update (self t : Task) (f : TaskObj -> TaskObj) (w w' : World) :
  (forall o o',
      status o' = status o -> dependencies o' = dependencies o ->
      result o' = result o -> execute o' = execute o ->
      on_task_completed o' = on_task_completed o ->
      on_task_canceled o' = on_task_canceled o ->
      on_task_failed o' = on_task_failed o ->
      status (f o') = status (f o) /\
      dependencies (f o') = dependencies (f o) /\
      result (f o') = result (f o) /\ execute (f o') = execute (f o) /\
      on_task_completed (f o') = on_task_completed (f o) /\
      on_task_canceled (f o') = on_task_canceled (f o) /\
      on_task_failed (f o') = on_task_failed (f o)) ->
  (forall o o', canceled_event o' = canceled_event o ->
                canceled_event (f o') = canceled_event (f o)) ->
  differ_by_own_flag self w w' ->
  differ_by_own_flag self (update_obj t f w) (update_obj t f w').
Proof.
  intros Hf Hc (Hd & Hb & Hh). split; [exact Hd|]. split; [exact Hb|].
  intros a. simpl. destruct (Hh a) as (H1 & H2 & H3 & H4 & H5 & H6 & H7 & H8).
  destruct (Nat.eqb a (addr t)).
  - destruct (Hf _ _ H1 H2 H3 H4 H5 H6 H7) as (?&?&?&?&?&?&?).
    repeat split; try assumption. intros Ha. apply Hc. now apply H8.
  - repeat split; assumption.
Qed.

Lemma differ_emit (self : Task) (e e' : list Event) (w w' : World) :
  differ_by_own_flag self w w' ->
  differ_by_own_flag self
    (mkWorld (heap w) (task_to_dependencies w) (task_to_dependents w) e)
    (mkWorld (heap w') (task_to_dependencies w') (task_to_dependents w') e').
Proof. intros H. exact H. Qed.

Lemma differ_set_status (self t : Task) (s : TaskStatus) (w w' : World) :
  differ_by_own_flag self w w' ->
  differ_by_own_flag self (world_of (set_status t s w))
                     (world_of (set_status t s w')).
Proof.
  intros H. simpl. apply (differ_emit self), differ_update; try assumption.
  - intros; simpl; tauto.
  - intros; simpl; assumption.
Qed.

Lemma differ_set_result (self t : Task) (v : Value) (w w' : World) :
  differ_by_own_flag self w w' ->
  differ_by_own_flag self (world_of (set_result t v w))
                     (world_of (set_result t v w')).
Proof.
  intros H. simpl. apply (differ_emit self), differ_update; try assumption.
  - intros; simpl; tauto.
  - intros; simpl; assumption.
Qed.

Lemma differ_cancel (self t : Task) (w w' : World) :
  differ_by_own_flag self w w' ->
  differ_by_own_flag self (world_of (cancel t w)) (world_of (cancel t w')).
Proof.
  intros H. simpl. apply (differ_emit self), differ_update; try assumption.
  - intros; simpl; tauto.
  - intros; reflexivity.
Qed.

(** Past the flag test, a statement of [execute_task] does the same in two
    worlds that differ by the unit's own cancel flag. *)
Lemma worker_step_differ (b : bool) (self : Task) (pc : Pc) (w w' : World) :
  pc <> AtEntry -> differ_by_own_flag self w w' ->
  match worker_step b self pc w, worker_step b self pc w' with
  | Some (p1, w1), Some (p2, w2) =>
      p2 = p1 /\ p1 <> AtEntry /\ differ_by_own_flag self w1 w2
  | None, None => True
  | _, _ => False
  end.
Proof.
  intros Hpc Hd. pose proof Hd as (Hdeps & Hdpt & Hh).
  destruct (Hh (addr self)) as (_ & _ & _ & Hexe & Hc1 & Hc2 & Hc3 & _).
  destruct pc as [| | |e| |s|[|d rest]| |e]; cbn [worker_step];
    try contradiction.
  - unfold call_execute, obj. rewrite Hexe.
    destruct (execute (heap w (addr self))) as [v|e].
    + split; [reflexivity|]. split; [discriminate|].
      apply differ_set_result. now apply (differ_emit self).
    + destruct (is_Exception e); (split; [reflexivity|]);
        (split; [discriminate|]); now apply (differ_emit self).
  - split; [reflexivity|]. split; [discriminate|]. now apply differ_set_status.
  - split; [reflexivity|]. split; [discriminate|]. now apply differ_set_result.
  - split; [reflexivity|]. split; [discriminate|]. now apply differ_set_status.
  - assert (Hk : hook_of s (obj w' self) = hook_of s (obj w self)).
    { unfold obj. now destruct s. }
    rewrite Hk. destruct (hook_of s (obj w self)) as [[| | |name [e|]|name r]|].
    + split; [reflexivity|]. split; [discriminate|]. now apply (differ_emit self).
    + unfold get_dependents. simpl. rewrite Hdpt.
      destruct (defaultdict_get self (task_to_dependents w)) as [ds dd].
      split; [reflexivity|]. split; [discriminate|].
      split; [exact Hdeps|]. split; [reflexivity|]. exact Hh.
    + unfold get_dependents. simpl. rewrite Hdpt.
      destruct (defaultdict_get self (task_to_dependents w)) as [ds dd].
      split; [reflexivity|]. split; [discriminate|].
      split; [exact Hdeps|]. split; [reflexivity|]. exact Hh.
    + destruct s; [destruct (is_Exception e)| |];
        (split; [reflexivity|]); (split; [discriminate|]);
        now apply (differ_emit self).
    + split; [reflexivity|]. split; [discriminate|]. now apply (differ_emit self).
    + split; [reflexivity|]. split; [discriminate|]. assumption.
    + split; [reflexivity|]. split; [discriminate|]. assumption.
  - split; [reflexivity|]. split; [discriminate|]. assumption.
  - split; [reflexivity|]. split; [discriminate|]. now apply differ_cancel.
  - destruct b; [|exact I].
    split; [reflexivity|]. split; [discriminate|]. now apply (differ_emit self).
  - exact I.
Qed.

Lemma worker_run_differ (fuel : nat) (self : Task) :
  forall pc w w',
    pc <> AtEntry -> differ_by_own_flag self w w' ->
    fst (worker_run fuel self pc w') = fst (worker_run fuel self pc w) /\
    differ_by_own_flag self (snd (worker_run fuel self pc w))
                       (snd (worker_run fuel self pc w')).
Proof.
  induction fuel as [|fuel IH]; intros pc w w' Hpc Hd.
  - split; [reflexivity|exact Hd].
  - cbn [worker_run].
    pose proof (worker_step_differ true self pc w w' Hpc Hd) as H.
    destruct (worker_step true self pc w) as [[p1 w1]|],
             (worker_step true self pc w') as [[p2 w2]|]; try contradiction.
    + destruct H as (-> & Hp & Hd'). now apply IH.
    + split; [reflexivity|exact Hd].
Qed.

Lemma differ_after_cancel (self : Task) (w : World) :
  differ_by_own_flag self w (world_of (cancel self w)).
Proof.
  split; [reflexivity|]. split; [reflexivity|]. intros a. simpl.
  destruct (Nat.eqb a (addr self)) eqn:E; simpl.
  - repeat split. intros Ha. apply Nat.eqb_eq in E. contradiction.
  - repeat split.
Qed.

(** ** The calls of [execute] and of the hooks in a sequential run *)

Lemma calls_of_execute_app (k : Task) (l1 l2 : list Event) :
  calls_of_execute k (l1 ++ l2) = calls_of_execute k l1 + calls_of_execute k l2.
Proof. unfold calls_of_execute. now rewrite filter_app, length_app. Qed.

Lemma calls_of_hooks_app (k : Task) (l1 l2 : list Event) :
  calls_of_hooks k (l1 ++ l2) = calls_of_hooks k l1 + calls_of_hooks k l2.
Proof. unfold calls_of_hooks. now rewrite filter_app, length_app. Qed.

Lemma cascade_events_no_call (k : Task) (evs : list Event) :
  forallb is_cascade_event evs = true ->
  calls_of_execute k evs = 0 /\ calls_of_hooks k evs = 0.
Proof.
  unfold calls_of_execute, calls_of_hooks.
  induction evs as [|e evs IH]; simpl; [tauto|].
  intros H. apply andb_true_iff in H. destruct H as (He & Hr).
  destruct (IH Hr) as (I1 & I2). destruct e; simpl in *; try discriminate;
    tauto.
Qed.

(** The events a yielded unit adds to the trace when it is marked and run
    with the scheduler's callbacks installed: one call of [execute] unless
    its cancel flag was set, and one hook call. *)
Lemma run_unit_calls (t k : Task) (w : World) :
  installed w t ->
  (forall e, execute (obj w t) = Raises e -> is_Exception e = true) ->
  let w' := world_of (execute_task t (world_of (mark_as_scheduled t w))) in
  calls_of_execute k (trace w') =
    calls_of_execute k (trace w)
    + (if task_eqb t k && negb (canceled_event (obj w t)) then 1 else 0) /\
  calls_of_hooks k (trace w') =
    calls_of_hooks k (trace w) + (if task_eqb t k then 1 else 0).
Proof.
  intros (Hc & Hf & Hx) Hexc. cbn zeta.
  set (w1 := world_of (mark_as_scheduled t w)).
  assert (Ho : canceled_event (obj w1 t) = canceled_event (obj w t) /\
               execute (obj w1 t) = execute (obj w t) /\
               on_task_completed (obj w1 t) = Some SchedulerOnCompleted /\
               on_task_failed (obj w1 t) = Some SchedulerOnFailed /\
               on_task_canceled (obj w1 t) = Some SchedulerOnCanceled).
  { subst w1. unfold obj in *. simpl. rewrite Nat.eqb_refl. simpl. tauto. }
  destruct Ho as (Hflag & Hexe & Hc1 & Hf1 & Hx1).
  assert (Ht1 : trace w1 = trace w ++ [EvStatus t SCHEDULED]) by reflexivity.
  destruct (canceled_event (obj w t)) eqn:Flag.
  - destruct (execute_task_canceled_spec t w1 Hflag)
      as (evs & Ht & Hcas & _).
    destruct (cascade_events_no_call k evs Hcas) as (E1 & E2).
    rewrite Ht, Ht1. unfold hook_call. cbn [hook_of]. rewrite Hx1.
    rewrite !calls_of_execute_app, !calls_of_hooks_app, E1, E2.
    unfold calls_of_execute, calls_of_hooks. simpl.
    rewrite andb_false_r. destruct (task_eqb t k); simpl; lia.
  - destruct (execute (obj w t)) as [v|e] eqn:He.
    + destruct (execute_task_returns_spec t w1 v Hflag Hexe) as (evs & Ht & Hq).
      destruct Hq as (_ & Hcas & _); [now rewrite Hc1|].
      destruct (cascade_events_no_call k evs Hcas) as (E1 & E2).
      rewrite Ht, Ht1. unfold hook_call. cbn [hook_of]. rewrite Hc1.
      rewrite !calls_of_execute_app, !calls_of_hooks_app, E1, E2.
      unfold calls_of_execute, calls_of_hooks. simpl.
      rewrite andb_true_r. destruct (task_eqb t k); simpl; lia.
    + pose proof (Hexc e eq_refl) as Hexn.
      destruct (execute_task_raises_spec t w1 e Hflag Hexe Hexn)
        as (evs & Ht & Hcas & _).
      destruct (cascade_events_no_call k evs Hcas) as (E1 & E2).
      rewrite Ht, Ht1. unfold hook_call. cbn [hook_of]. rewrite Hf1.
      rewrite !calls_of_execute_app, !calls_of_hooks_app, E1, E2.
      unfold calls_of_execute, calls_of_hooks. simpl.
      rewrite andb_true_r. destruct (task_eqb t k); simpl; lia.
Qed.

Lemma has_run_final_status (o : TaskObj) :
  has_run (final_status o) = negb (canceled_event o).
Proof.
  unfold final_status. destruct (canceled_event o); [reflexivity|].
  now destruct (execute o).
Qed.

Section SequentialCalls.
Variable w0 : World.
Hypothesis Hok : graph_ok w0.
Hypothesis Hone : one_object_per_id w0.
Hypothesis Hclosed : closed_graph w0.
Hypothesis Hfresh : fresh w0.

Lemma calls_inv_step (w : World) (seen : list Task) (t : Task) :
  seq_inv w0 w seen -> calls_inv w0 w -> ready w t ->
  calls_inv w0 (world_of (execute_task t (world_of (mark_as_scheduled t w)))).
Proof.
  intros Hinv Hcalls Hready.
  destruct (seq_inv_keys w0 Hfresh w seen Hinv) as (Hdeps & _ & _ & Hobj).
  assert (Ht : In t (dict_keys (task_to_dependencies w0))).
  { rewrite <- Hdeps. now apply ready_registered. }
  destruct Hready as (_ & _ & Hpend & _).
  destruct (Hobj t Ht) as (Hinst & _ & Hexc & _).
  destruct (run_unit t w Hinst Hexc) as (_ & Hs & _).
  intros k Hk. destruct (run_unit_calls t k w Hinst Hexc) as (E1 & E2).
  destruct (Hcalls k Hk) as (C1 & C2).
  assert (Hs' : status (obj (world_of (execute_task t
                    (world_of (mark_as_scheduled t w)))) k) =
                if Nat.eqb (addr k) (addr t) then final_status (obj w t)
                else status (obj w k)) by apply Hs.
  rewrite E1, E2, C1, C2, Hs'.
  destruct (task_eqb t k) eqn:Q.
  - apply task_eqb_eq in Q. apply (key_same_object w0 Hone t k Ht Hk) in Q.
    assert (Ek : obj w k = obj w t) by (unfold obj; now rewrite Q).
    rewrite Ek, Hpend. rewrite <- Q, Nat.eqb_refl.
    rewrite has_run_final_status, final_status_terminal. simpl.
    destruct (canceled_event (obj w t)); simpl; lia.
  - assert (Ea : Nat.eqb (addr k) (addr t) = false).
    { apply Nat.eqb_neq. intros E. symmetry in E.
      apply (key_same_object w0 Hone t k Ht Hk) in E.
      apply task_eqb_eq in E. congruence. }
    rewrite Ea. simpl. lia.
Qed.

Lemma drive_calls (fuel : nat) :
  forall g w seen,
    seq_inv w0 w seen -> calls_inv w0 w ->
    g <> GNew -> g <> GDone -> batch_ready w g ->
    calls_inv w0 (snd (drive fuel g w seen)).
Proof.
  induction fuel as [|fuel IH]; intros g w seen Hinv Hcalls Hnew Hdone Hbatch;
    [exact Hcalls|].
  destruct (seq_inv_keys w0 Hfresh w seen Hinv) as (Hdeps & _).
  assert (Hdis : distinct_objects w).
  { unfold distinct_objects. rewrite Hdeps.
    now apply distinct_objects_initial. }
  pose proof (resume_spec g w Hdone Hdis Hbatch) as Hspec.
  assert (Hexact : forall p g' w', resume g w = (p, g', w') ->
            match p with
            | Yield t => w' = world_of (mark_as_scheduled t w) /\
                         g' <> GNew /\ g' <> GDone
            | _ => w' = w
            end).
  { intros p g' w'. destruct g as [|[|u rest]| |]; cbn [resume];
      try congruence; unfold loop_head;
      try (destruct (negb (has_pending_tasks w)); [now intros [= <- <- <-]|];
           destruct (collect_ready w) as [|u rest]; [now intros [= <- <- <-]|]);
      intros [= <- <- <-]; repeat split; discriminate. }
  cbn [drive].
  destruct (resume g w) as [[[t| | |e] g'] w1] eqn:R;
    pose proof (Hexact _ _ _ eq_refl) as Hw; cbn beta iota in Hw.
  - destruct Hspec as (Hready & Hsched & _ & Hb1).
    destruct Hw as (-> & Hg1 & Hg2).
    destruct (seq_inv_step w0 Hok Hone Hclosed Hfresh w seen t Hinv Hready)
      as (Hraise & Hinv2).
    pose proof (calls_inv_step w seen t Hinv Hcalls Hready) as Hcalls2.
    pose proof (execute_task_keeps_batch t _ g' Hsched Hb1) as Hb2.
    destruct (execute_task t (world_of (mark_as_scheduled t w)))
      as [[] w2|e w2]; [|discriminate].
    cbn [world_of] in *.
    apply (IH g' w2 (seen ++ [t]) Hinv2 Hcalls2 Hg1 Hg2 Hb2).
  - subst w1. exact Hcalls.
  - subst w1. exact Hcalls.
  - subst w1. exact Hcalls.
Qed.

Lemma calls_inv_initial (w1 : World) :
  same_units w0 w1 -> calls_inv w0 w1.
Proof.
  intros (Hh & _ & Ht) k Hk. rewrite Ht. unfold obj. rewrite Hh.
  destruct (Hfresh k Hk) as (Hs & _). unfold obj in Hs. rewrite Hs. simpl.
  lia.
Qed.

End SequentialCalls.

Lemma sequential_calls_core (w0 : World) (fuel : nat) :
  graph_ok w0 -> one_object_per_id w0 -> closed_graph w0 -> acyclic w0 ->
  fresh w0 ->
  calls_inv w0 (snd (drive fuel ready_tasks w0 [])).
Proof.
  intros Hok Hone Hclosed Hacyc Hfresh.
  destruct fuel as [|fuel]; [now apply calls_inv_initial, same_units_refl|].
  destruct (has_cycles_passes w0 Hok Hacyc Hclosed)
    as (w1 & order & E & Hs & Hd & _).
  rewrite (drive_new fuel w0 w1 E).
  apply (drive_calls w0 Hok Hone Hclosed Hfresh (S fuel) GWaiting w1 []).
  - now apply seq_inv_initial.
  - now apply calls_inv_initial.
  - discriminate.
  - discriminate.
  - exact I.
Qed.

(** * Further properties of the engine *)

Lemma passes_cycle_check_sound (w : World) :
  graph_ok w -> passes_cycle_check w = true -> acyclic w /\ closed_graph w.
Proof.
  intros Hok H. unfold passes_cycle_check in H.
  destruct (has_cycles w) as [[|] w'|e w'] eqn:E; try discriminate.
  now apply (has_cycles_false_graph w w').
Qed.

(** ** The cycle check *)

(** X1. The cycle check terminates on every state of the two dictionaries:
    the rounds of its [while] loop never exceed the number of registered
    units. It returns a boolean, or raises [KeyError] for a dependent that
    is not a key of [deps]; either way the task objects, [deps] and the
    trace are as before. *)
Theorem has_cycles_terminates (w : World) :
  ((exists b w', has_cycles w = Ok b w') \/
   (exists k w', has_cycles w = Raise (KeyError k) w' /\
                 dict_contains k (task_to_dependencies w) = false)) /\
  kahn_loop (S (List.length (task_to_dependencies w)))
            (task_to_dependents w)
            (out_degree_of (task_to_dependencies w))
            (initial_queue (out_degree_of (task_to_dependencies w))) 0
    <> None /\
  same_units w (world_of (has_cycles w)).
Proof.
  split; [apply has_cycles_total|]. split; [|apply has_cycles_same_units].
  pose proof (has_cycles_fuel w) as H. unfold out_degree_of in H at 1.
  now rewrite length_map in H.
Qed.

(** X2. On a graph built by [schedule] the cycle check raises nothing, and
    it answers [True] exactly when the graph has a dependency cycle or a
    registered unit has a prerequisite that is not registered. When it
    answers [False], the registered units can be listed, each once, with
    every unit after all its prerequisites. The check adds at most empty
    sets to [dependents]. *)
Theorem has_cycles_answers_exactly (w : World) :
  graph_ok w ->
  exists b w',
    has_cycles w = Ok b w' /\
    same_units w w' /\
    (forall k, dependents_of w' k = dependents_of w k) /\
    (b = true <->
     (exists c, is_cycle w c = true) \/
     (exists d p, dict_contains d (task_to_dependencies w) = true /\
                  set_mem p (deps_of w d) = true /\
                  dict_contains p (task_to_dependencies w) = false)) /\
    (b = false ->
     exists order,
       topological w order /\ NoDup (ids order) /\
       forall d, dict_contains d (task_to_dependencies w) = true <->
                 set_mem d order = true).
Proof.
  intros Hok.
  destruct (has_cycles_exact w Hok) as (b & w' & E & Hs & Hd & Hb & Ho).
  exists b, w'. repeat split; try assumption; try apply Hs.
  - intros H. apply stuck_iff_cycle_or_missing. now apply Hb.
  - intros H. apply Hb. now apply stuck_iff_cycle_or_missing.
Qed.

Lemma has_cycles_answers_exactly_witness :
  exists b w',
    has_cycles cycle_world = Ok b w' /\
    same_units cycle_world w' /\
    (forall k, dependents_of w' k = dependents_of cycle_world k) /\
    (b = true <->
     (exists c, is_cycle cycle_world c = true) \/
     (exists d p,
        dict_contains d (task_to_dependencies cycle_world) = true /\
        set_mem p (deps_of cycle_world d) = true /\
        dict_contains p (task_to_dependencies cycle_world) = false)) /\
    (b = false ->
     exists order,
       topological cycle_world order /\ NoDup (ids order) /\
       forall d, dict_contains d (task_to_dependencies cycle_world) = true <->
                 set_mem d order = true).
Proof.
  apply (has_cycles_answers_exactly cycle_world).
  apply graph_okb_sound. vm_compute. reflexivity.
Defined.

(** X3. On a graph built by [schedule], the first [next] on the readiness
    iterator raises exactly when the graph has a dependency cycle or a
    registered unit has a prerequisite that is not registered, and what it
    raises then is the [SchedulingException] about circular dependencies:
    no [KeyError] escapes the cycle check. *)
Theorem first_next_raises_exactly (w : World) :
  graph_ok w ->
  ((exists e g' w', resume ready_tasks w = (Throws e, g', w')) <->
   (exists c, is_cycle w c = true) \/
   (exists d p, dict_contains d (task_to_dependencies w) = true /\
                set_mem p (deps_of w d) = true /\
                dict_contains p (task_to_dependencies w) = false)) /\
  (forall e g' w', resume ready_tasks w = (Throws e, g', w') ->
                   e = SchedulingException CircularDependencies /\
                   g' = GDone /\ same_units w w').
Proof.
  intros Hok.
  destruct (has_cycles_exact w Hok) as (b & w1 & E & Hs & _ & Hb & _).
  rewrite stuck_iff_cycle_or_missing in Hb.
  assert (Hloop : forall e g' w', loop_head w1 <> (Throws e, g', w')).
  { intros e g' w'. unfold loop_head.
    destruct (negb (has_pending_tasks w1)); [discriminate|].
    destruct (collect_ready w1); discriminate. }
  unfold ready_tasks. cbn [resume]. rewrite E. destruct b.
  - split.
    + split; [intros _; now apply Hb|].
      intros _. eexists. eexists. eexists. reflexivity.
    + intros e g' w' [= <- <- <-]. repeat split; apply Hs.
  - split.
    + split.
      * intros (e & g' & w' & H). now apply Hloop in H.
      * intros H. apply Hb in H. discriminate.
    + intros e g' w' H. now apply Hloop in H.
Qed.

Lemma first_next_raises_exactly_witness :
  (exists e g' w',
      resume ready_tasks (chain_world (Returns value_1)) = (Throws e, g', w')) <->
  (exists c, is_cycle (chain_world (Returns value_1)) c = true) \/
  (exists d p,
      dict_contains d (task_to_dependencies (chain_world (Returns value_1)))
        = true /\
      set_mem p (deps_of (chain_world (Returns value_1)) d) = true /\
      dict_contains p (task_to_dependencies (chain_world (Returns value_1)))
        = false).
Proof.
  assert (Hok : graph_ok (chain_world (Returns value_1)))
    by (apply graph_okb_sound; vm_compute; reflexivity).
  exact (proj1 (first_next_raises_exactly (chain_world (Returns value_1)) Hok)).
Defined.

(** ** Registration *)

(** X4. [schedule] keeps the two dictionaries consistent: after a call
    that returns, no unit is registered twice, no set has two equal
    members, every dependent is registered, and [d] is in [dependents[p]]
    exactly when [p] is in [deps[d]]. The keys of [deps] are the former
    ones followed by the new unit, the entries of the other units are
    unchanged, and of the task objects only the hooks of the new unit
    change. *)
Theorem schedule_keeps_graph_consistent (task : Task) (w w' : World) :
  graph_ok w ->
  schedule task w = Ok tt w' ->
  graph_ok w' /\
  dict_keys (task_to_dependencies w') =
    dict_keys (task_to_dependencies w) ++ [task] /\
  (forall k, task_eqb k task = false -> deps_of w' k = deps_of w k) /\
  (forall a, same_but_hooks (heap w a) (heap w' a)) /\
  trace w' = trace w.
Proof.
  intros Hok Hs. split; [now apply (schedule_preserves_graph_ok task w)|].
  destruct (dict_contains task (task_to_dependencies w)) eqn:Hc.
  { unfold schedule, bind, is_registered in Hs. rewrite Hc in Hs.
    discriminate. }
  destruct (schedule_spec task w Hc) as (w1 & E & Hk & Ht & Hh & _ & Hd).
  rewrite Hs in E. injection E as <-.
  repeat split; try assumption; try apply Hh.
  intros k Hkt. now rewrite Hd, Hkt.
Qed.

Lemma schedule_keeps_graph_consistent_witness :
  graph_ok (world_of (schedule unit_b one_unit_world)) /\
  dict_keys (task_to_dependencies (world_of (schedule unit_b one_unit_world))) =
    dict_keys (task_to_dependencies one_unit_world) ++ [unit_b].
Proof.
  assert (Hs : schedule unit_b one_unit_world
               = Ok tt (world_of (schedule unit_b one_unit_world))).
  { apply result_eta; [vm_compute; reflexivity|now intros [] []]. }
  assert (Hok : graph_ok one_unit_world).
  { apply graph_okb_sound. vm_compute. reflexivity. }
  destruct (schedule_keeps_graph_consistent unit_b one_unit_world
              (world_of (schedule unit_b one_unit_world)) Hok Hs)
    as (H1 & H2 & _).
  split; assumption.
Defined.

(** X5. [Scheduler(tasks)] on units with pairwise distinct ids returns a
    scheduler in which the units are registered in the order in which
    [tasks] is iterated, each
    with the scheduler's three callbacks as hooks and with the set of its
    declared prerequisites as [deps] entry; the dictionaries are
    consistent, nothing is recorded in the trace, and no status, result,
    cancel flag or prerequisite list of any task object has changed. *)
Theorem scheduler_init_registers_all (h : nat -> TaskObj) (tasks : list Task) :
  NoDup (ids tasks) ->
  exists w,
    scheduler_init h tasks = Ok tt w /\
    dict_keys (task_to_dependencies w) = tasks /\
    graph_ok w /\
    trace w = [] /\
    (forall a, same_but_hooks (h a) (heap w a)) /\
    forall t, In t tasks ->
              installed w t /\
              deps_of w t = set_of (dependencies (h (addr t))).
Proof.
  intros Hnd.
  destruct (for_each_schedule_spec tasks (new_scheduler h) Hnd)
    as (w & E & Hk & Ht & Hh & Hi & Hd & _); [reflexivity|].
  exists w. split; [exact E|]. split; [exact Hk|].
  split; [now apply (scheduler_init_graph_ok h tasks)|].
  split; [exact Ht|]. split; [exact Hh|].
  intros t Hin. split; [|now apply Hd].
  apply Hi. right. now exists t.
Qed.

Lemma scheduler_init_registers_all_witness :
  exists w,
    scheduler_init (seven_heap 3) seven_units = Ok tt w /\
    dict_keys (task_to_dependencies w) = seven_units /\
    graph_ok w /\
    trace w = [] /\
    (forall a, same_but_hooks (seven_heap 3 a) (heap w a)) /\
    forall t, In t seven_units ->
              installed w t /\
              deps_of w t = set_of (dependencies (seven_heap 3 (addr t))).
Proof.
  apply (scheduler_init_registers_all (seven_heap 3) seven_units).
  apply distinct_ids_NoDup. vm_compute. reflexivity.
Defined.

(** X6. [Scheduler(tasks)] raises [SchedulingException] at the first unit
    whose id was met before in [tasks]: the units in front of it are
    registered, the unit and those behind it are not. *)
Theorem scheduler_init_duplicate_raises (h : nat -> TaskObj)
    (front : list Task) (t : Task) (back : list Task) :
  NoDup (ids front) ->
  set_mem t front = true ->
  exists w,
    scheduler_init h (front ++ t :: back) =
      Raise (SchedulingException (AlreadyExists t)) w /\
    dict_keys (task_to_dependencies w) = front.
Proof.
  intros Hnd Hm.
  destruct (for_each_schedule_spec front (new_scheduler h) Hnd)
    as (w & E & Hk & _); [reflexivity|].
  exists w. split; [|exact Hk].
  unfold scheduler_init. rewrite for_each_app, E.
  unfold for_each. simpl. unfold bind at 1.
  unfold schedule, bind at 1, is_registered.
  rewrite dict_contains_keys, Hk. simpl. now rewrite Hm.
Qed.

Lemma scheduler_init_duplicate_raises_witness :
  exists w,
    scheduler_init (chain_heap (Returns value_1))
                   ([unit_a; unit_b] ++ unit_a :: [unit_c]) =
      Raise (SchedulingException (AlreadyExists unit_a)) w /\
    dict_keys (task_to_dependencies w) = [unit_a; unit_b].
Proof.
  apply (scheduler_init_duplicate_raises (chain_heap (Returns value_1))
           [unit_a; unit_b] unit_a [unit_c]).
  - apply distinct_ids_NoDup. reflexivity.
  - reflexivity.
Defined.

(** ** One unit *)

(** X7. Whatever its outcome, [execute_task] on a unit leaves the status,
    the result, the prerequisites, the [execute] method and the hooks of
    every other task object alone and lowers no cancel flag; on the unit
    itself it changes neither prerequisites, [execute] nor hooks; and the
    scheduler's [deps] and every lookup in [dependents] stay the same. *)
Theorem execute_task_footprint (self : Task) (w : World) :
  let w' := world_of (execute_task self w) in
  (forall x, addr x <> addr self -> same_but_flag (obj w x) (obj w' x)) /\
  kept (obj w self) (obj w' self) /\
  same_graph w w'.
Proof.
  cbn zeta. destruct (execute_task_others self w) as (Ho & _).
  destruct (preserved_execute_task self w) as (Hk & Hg).
  split; [exact Ho|]. split; [apply Hk|exact Hg].
Qed.

(** X8. When [execute] raises an exception that is not an [Exception], the
    [except] clause does not catch it: [execute_task] raises it, the unit
    stays [RUNNING] with its result untouched, no hook is called and no
    other object changes. A unit left this way is not terminal, so no set
    of prerequisites that contains it passes the readiness test. *)
Theorem execute_task_base_exception (self : Task) (w : World) (e : PyExc) :
  canceled_event (obj w self) = false ->
  execute (obj w self) = Raises e ->
  is_Exception e = false ->
  exists w',
    execute_task self w = Raise e w' /\
    status (obj w' self) = RUNNING /\
    result (obj w' self) = result (obj w self) /\
    trace w' = trace w ++ [EvStatus self RUNNING; EvExecute self] /\
    (forall a, a <> addr self -> heap w' a = heap w a) /\
    (forall a, canceled_event (heap w' a) = canceled_event (heap w a)) /\
    forall ds, In self ds -> all_dependencies_completed w' ds = false.
Proof.
  intros Hc He Hx.
  rewrite (execute_task_base_exception_eq self w e Hc He Hx).
  eexists. split; [reflexivity|].
  assert (Hs : status (obj (emit (EvExecute self)
                 (world_of (set_status self RUNNING w))) self) = RUNNING).
  { unfold obj. simpl. now rewrite Nat.eqb_refl. }
  split; [exact Hs|]. split; [|split; [|split; [|split]]].
  - unfold obj. simpl. now rewrite Nat.eqb_refl.
  - simpl. now rewrite <- app_assoc.
  - intros a Ha. simpl. apply Nat.eqb_neq in Ha. now rewrite Ha.
  - intros a. simpl. now destruct (Nat.eqb a (addr self)).
  - intros ds Hin. unfold all_dependencies_completed.
    destruct (forallb _ ds) eqn:F; [exfalso|reflexivity].
    rewrite forallb_forall in F. specialize (F self Hin).
    rewrite Hs in F. discriminate.
Qed.

Lemma execute_task_base_exception_witness :
  exists w',
    execute_task unit_a (world_of_obj interrupted_obj) =
      Raise (UserBaseException "KeyboardInterrupt" "") w' /\
    status (obj w' unit_a) = RUNNING.
Proof.
  destruct (execute_task_base_exception unit_a (world_of_obj interrupted_obj)
              (UserBaseException "KeyboardInterrupt" "")
              eq_refl eq_refl eq_refl) as (w' & E & Hs & _).
  exists w'. split; assumption.
Defined.

(** X9. When [execute] returns and the completed hook then raises an
    [Exception], the [except] clause catches the hook's exception: the unit,
    already set to [COMPLETED] with the returned value, ends [FAILED] with
    the hook's exception as result, and the failed hook, when its slot
    passes the truth test, is called after the completed hook. *)
Theorem execute_task_completed_hook_raises (self : Task) (w : World)
    (v : Value) (name : string) (e : PyExc) :
  canceled_event (obj w self) = false ->
  execute (obj w self) = Returns v ->
  on_task_completed (obj w self) = Some (Callback name (Some e)) ->
  is_Exception e = true ->
  exists evs,
    trace (world_of (execute_task self w)) =
      trace w ++ [EvStatus self RUNNING; EvExecute self;
                  EvResult self v; EvStatus self COMPLETED;
                  EvHook OnCompleted self; EvCallback name self;
                  EvResult self (VExc e); EvStatus self FAILED]
              ++ hook_call OnFailed self w ++ evs /\
    forallb is_cascade_event evs = true /\
    status (obj (world_of (execute_task self w)) self) = FAILED /\
    result (obj (world_of (execute_task self w)) self) = VExc e /\
    raised (execute_task self w) = hook_raises (on_task_failed (obj w self)).
Proof.
  intros Hc He Hh Hx.
  exact (execute_task_completed_hook_exception self w v name e Hc He Hh Hx).
Qed.

Lemma execute_task_completed_hook_raises_witness :
  exists evs,
    trace (world_of (execute_task unit_a (world_of_obj completed_hook_raises_obj))) =
      [EvStatus unit_a RUNNING; EvExecute unit_a;
       EvResult unit_a value_1; EvStatus unit_a COMPLETED;
       EvHook OnCompleted unit_a; EvCallback "on_completed" unit_a;
       EvResult unit_a (VExc failure_1); EvStatus unit_a FAILED]
      ++ [EvHook OnFailed unit_a] ++ evs /\
    status (obj (world_of (execute_task unit_a
                             (world_of_obj completed_hook_raises_obj)))
                unit_a) = FAILED.
Proof.
  destruct (execute_task_completed_hook_raises unit_a
              (world_of_obj completed_hook_raises_obj) value_1
              "on_completed" failure_1 eq_refl eq_refl eq_refl eq_refl)
    as (evs & Ht & _ & Hs & _).
  exists evs. split; [exact Ht|exact Hs].
Defined.

(** X10. With the scheduler's callbacks installed and an [execute] that
    raises nothing but [Exception]s, [execute_task] itself raises nothing:
    the unit ends [CANCELED] with its result untouched when its cancel
    flag was set, [COMPLETED] with the returned value when [execute]
    returns, [FAILED] with the exception when it raises; the status and
    result of no other object change; and the cancel flags raised are
    exactly those of the unit's dependents, and only when the unit ends
    [CANCELED] or [FAILED]. *)
Theorem execute_task_with_scheduler_hooks (t : Task) (w : World) :
  installed w t ->
  (forall e, execute (obj w t) = Raises e -> is_Exception e = true) ->
  let w' := world_of (execute_task t w) in
  raised (execute_task t w) = None /\
  (forall a, status (heap w' a) =
             if Nat.eqb a (addr t) then final_status (obj w t)
             else status (heap w a)) /\
  (forall a, result (heap w' a) =
             if Nat.eqb a (addr t) then final_result (obj w t)
             else result (heap w a)) /\
  (forall a, canceled_event (heap w' a) =
             canceled_event (heap w a)
             || (failed_or_canceled (final_status (obj w t))
                 && among (dependents_of w t) a)).
Proof.
  intros Hi Hx. rewrite final_status_cascades.
  exact (execute_task_engine t w Hi Hx).
Qed.

Lemma execute_task_with_scheduler_hooks_witness :
  raised (execute_task unit_a (chain_world (Raises failure_1))) = None /\
  statuses (world_of (execute_task unit_a (chain_world (Raises failure_1))))
           [unit_a; unit_b] = [FAILED; PENDING] /\
  canceled_event (obj (world_of (execute_task unit_a
                                   (chain_world (Raises failure_1))))
                      unit_b) = true.
Proof.
  assert (Hi : installed (chain_world (Raises failure_1)) unit_a)
    by (repeat split; reflexivity).
  assert (Hx : forall e,
            execute (obj (chain_world (Raises failure_1)) unit_a) = Raises e ->
            is_Exception e = true)
    by (intros e [= <-]; reflexivity).
  destruct (execute_task_with_scheduler_hooks unit_a
              (chain_world (Raises failure_1)) Hi Hx) as (Hr & Hs & _ & Hf).
  split; [exact Hr|]. split.
  - unfold statuses. cbn [map]. unfold obj. rewrite !Hs. reflexivity.
  - unfold obj. rewrite Hf. reflexivity.
Defined.

(** ** The loop [for task in scheduler.ready_tasks: task.execute_task()] *)

(** X11. Run by one thread on new units, the loop keeps the order of the
    graph at every stage: wherever it stops, a registered unit that has
    left [PENDING] has every prerequisite terminal, and a unit that is
    [COMPLETED] has every prerequisite [COMPLETED]. *)
Theorem sequential_run_respects_prerequisites (w0 : World) (fuel : nat)
    (k p : Task) :
  graph_ok w0 -> one_object_per_id w0 -> fresh w0 ->
  In k (dict_keys (task_to_dependencies w0)) ->
  In p (deps_of w0 k) ->
  let w' := snd (drive fuel ready_tasks w0 []) in
  (status (obj w' k) <> PENDING -> is_terminal (status (obj w' p)) = true) /\
  (status (obj w' k) = COMPLETED -> status (obj w' p) = COMPLETED).
Proof.
  intros Hok Hone Hfresh Hk Hp. cbn zeta.
  destruct (sequential_any_core w0 fuel Hok Hone Hfresh) as [Hh|(Hc & Hinv)].
  - assert (Hs : status (obj (snd (drive fuel ready_tasks w0 [])) k) = PENDING).
    { unfold obj. rewrite Hh. now destruct (Hfresh k Hk). }
    rewrite Hs. split; [congruence|discriminate].
  - now apply (seq_inv_prerequisites w0 _ _ k p Hone Hc Hfresh Hinv).
Qed.

Lemma sequential_run_respects_prerequisites_witness :
  let w' := snd (drive 4 ready_tasks (seven_world 3) []) in
  (status (obj w' unit_4) <> PENDING ->
   is_terminal (status (obj w' unit_3)) = true) /\
  (status (obj w' unit_4) = COMPLETED -> status (obj w' unit_3) = COMPLETED).
Proof.
  apply (sequential_run_respects_prerequisites (seven_world 3) 4 unit_4 unit_3).
  - apply graph_okb_sound. vm_compute. reflexivity.
  - apply one_object_per_idb_sound. vm_compute. reflexivity.
  - apply freshb_sound. vm_compute. reflexivity.
  - vm_compute. tauto.
  - vm_compute. tauto.
Defined.

(** X12. On a graph without cycle in which every prerequisite is
    registered, the loop run by one thread on new units never blocks and
    raises nothing: it ends by exhaustion after at most one [next] per
    registered unit and one more, every registered unit was yielded exactly
    once, each after all its prerequisites, and every registered unit is
    terminal at the end. *)
Theorem sequential_run_yields_each_unit_once (w0 : World) (fuel : nat) :
  graph_ok w0 -> one_object_per_id w0 -> closed_graph w0 -> acyclic w0 ->
  fresh w0 ->
  List.length (dict_keys (task_to_dependencies w0)) < fuel ->
  exists seen w',
    drive fuel ready_tasks w0 [] = (seen, Some StopIteration, w') /\
    NoDup seen /\
    (forall k, In k seen <-> In k (dict_keys (task_to_dependencies w0))) /\
    topological w0 seen /\
    forall k, In k (dict_keys (task_to_dependencies w0)) ->
              is_terminal (status (obj w' k)) = true.
Proof.
  intros Hok Hone Hclosed Hacyc Hfresh Hfuel.
  destruct (sequential_run_core w0 fuel Hok Hone Hclosed Hacyc Hfresh Hfuel)
    as (seen & w' & E & Hinv & Hnp).
  destruct (seq_inv_keys w0 Hfresh w' seen Hinv) as (Hdeps & _).
  assert (Hleft : forall k, In k (dict_keys (task_to_dependencies w0)) ->
                            status (obj w' k) <> PENDING).
  { intros k Hk. apply Hnp. now rewrite Hdeps. }
  exists seen, w'. split; [exact E|]. split; [|split; [|split]].
  - apply (NoDup_map_inv task_id). apply (si_seen_distinct w0 w' seen Hinv).
  - intros k. split; [apply (si_seen_keys w0 w' seen Hinv)|].
    intros Hk. pose proof (Hleft k Hk) as Hs.
    apply (si_seen w0 w' seen Hinv k Hk) in Hs.
    apply set_mem_true in Hs. destruct Hs as (s & Hs & Eid).
    pose proof (si_seen_keys w0 w' seen Hinv s Hs) as Hsk.
    now rewrite <- (key_unique w0 Hok s k Hsk Hk Eid).
  - apply (si_order w0 w' seen Hinv).
  - intros k Hk. destruct (si_status w0 w' seen Hinv k Hk) as [Q|Q];
      [|assumption].
    now apply Hleft in Q.
Qed.

Lemma sequential_run_yields_each_unit_once_witness :
  exists seen w',
    drive 8 ready_tasks (seven_world 3) [] = (seen, Some StopIteration, w') /\
    NoDup seen /\
    (forall k, In k seen <->
               In k (dict_keys (task_to_dependencies (seven_world 3)))) /\
    topological (seven_world 3) seen /\
    forall k, In k (dict_keys (task_to_dependencies (seven_world 3))) ->
              is_terminal (status (obj w' k)) = true.
Proof.
  assert (Hok : graph_ok (seven_world 3))
    by (apply graph_okb_sound; vm_compute; reflexivity).
  destruct (passes_cycle_check_sound (seven_world 3) Hok) as (Ha & Hc);
    [vm_compute; reflexivity|].
  apply (sequential_run_yields_each_unit_once (seven_world 3) 8);
    try assumption.
  - apply one_object_per_idb_sound. vm_compute. reflexivity.
  - apply freshb_sound. vm_compute. reflexivity.
  - vm_compute. lia.
Defined.

(** X13. The outcome of the loop run by one thread on new units, on a
    graph without cycle in which every prerequisite is registered: a
    registered unit ends [CANCELED], with its result untouched, exactly
    when it was cancelled before the run or one of its prerequisites ended
    [FAILED] or [CANCELED]; every other unit ends
    [COMPLETED] with the value its [execute] returns, or [FAILED] with the
    exception its [execute] raises. *)
Theorem sequential_run_outcome (w0 : World) (fuel : nat) :
  graph_ok w0 -> one_object_per_id w0 -> closed_graph w0 -> acyclic w0 ->
  fresh w0 ->
  List.length (dict_keys (task_to_dependencies w0)) < fuel ->
  exists seen w',
    drive fuel ready_tasks w0 [] = (seen, Some StopIteration, w') /\
    forall k, In k (dict_keys (task_to_dependencies w0)) ->
      (doomed w0 w' k ->
       status (obj w' k) = CANCELED /\ result (obj w' k) = result (obj w0 k)) /\
      (~ doomed w0 w' k ->
       match execute (obj w0 k) with
       | Returns v => status (obj w' k) = COMPLETED /\ result (obj w' k) = v
       | Raises e => status (obj w' k) = FAILED /\ result (obj w' k) = VExc e
       end).
Proof.
  intros Hok Hone Hclosed Hacyc Hfresh Hfuel.
  destruct (sequential_run_core w0 fuel Hok Hone Hclosed Hacyc Hfresh Hfuel)
    as (seen & w' & E & Hinv & Hnp).
  exists seen, w'. split; [exact E|].
  intros k Hk. now apply (seq_inv_outcome w0 w' seen k).
Qed.

Lemma sequential_run_outcome_witness :
  exists seen w',
    drive 8 ready_tasks (seven_world 3) [] = (seen, Some StopIteration, w') /\
    forall k, In k (dict_keys (task_to_dependencies (seven_world 3))) ->
      (doomed (seven_world 3) w' k ->
       status (obj w' k) = CANCELED /\
       result (obj w' k) = result (obj (seven_world 3) k)) /\
      (~ doomed (seven_world 3) w' k ->
       match execute (obj (seven_world 3) k) with
       | Returns v => status (obj w' k) = COMPLETED /\ result (obj w' k) = v
       | Raises e => status (obj w' k) = FAILED /\ result (obj w' k) = VExc e
       end).
Proof.
  assert (Hok : graph_ok (seven_world 3))
    by (apply graph_okb_sound; vm_compute; reflexivity).
  destruct (passes_cycle_check_sound (seven_world 3) Hok) as (Ha & Hc);
    [vm_compute; reflexivity|].
  apply (sequential_run_outcome (seven_world 3) 8); try assumption.
  - apply one_object_per_idb_sound. vm_compute. reflexivity.
  - apply freshb_sound. vm_compute. reflexivity.
  - vm_compute. lia.
Defined.

(** X14. After the loop has run to its end on such a graph, iterating
    [ready_tasks] again runs the cycle check again, yields nothing and stops
    at once; no task object, no entry of [deps] and no event is added or
    changed. *)
Theorem sequential_run_again (w0 : World) (fuel : nat) :
  graph_ok w0 -> one_object_per_id w0 -> closed_graph w0 -> acyclic w0 ->
  fresh w0 ->
  List.length (dict_keys (task_to_dependencies w0)) < fuel ->
  exists seen w',
    drive fuel ready_tasks w0 [] = (seen, Some StopIteration, w') /\
    forall fuel', exists w'',
      drive (S fuel') ready_tasks w' [] = ([], Some StopIteration, w'') /\
      same_units w' w''.
Proof.
  intros Hok Hone Hclosed Hacyc Hfresh Hfuel.
  destruct (sequential_run_core w0 fuel Hok Hone Hclosed Hacyc Hfresh Hfuel)
    as (seen & w' & E & Hinv & Hnp).
  exists seen, w'. split; [exact E|]. intros fuel'.
  destruct (si_preserved w0 w' seen Hinv) as (_ & Hg).
  apply run_again_empty; try assumption.
  - now apply (graph_ok_same_graph w0).
  - now apply (acyclic_same_graph w0).
  - now apply (closed_graph_same_graph w0).
Qed.

Lemma sequential_run_again_witness :
  exists seen w',
    drive 3 ready_tasks (chain_world (Raises failure_1)) [] =
      (seen, Some StopIteration, w') /\
    forall fuel', exists w'',
      drive (S fuel') ready_tasks w' [] = ([], Some StopIteration, w'') /\
      same_units w' w''.
Proof.
  assert (Hok : graph_ok (chain_world (Raises failure_1)))
    by (apply graph_okb_sound; vm_compute; reflexivity).
  destruct (passes_cycle_check_sound (chain_world (Raises failure_1)) Hok)
    as (Ha & Hc); [vm_compute; reflexivity|].
  apply (sequential_run_again (chain_world (Raises failure_1)) 3);
    try assumption.
  - apply one_object_per_idb_sound. vm_compute. reflexivity.
  - apply freshb_sound. vm_compute. reflexivity.
  - vm_compute. lia.
Defined.

(** X15. In the loop run by one thread on new units of such a graph,
    [execute] is called exactly once on every registered unit that does not
    end [CANCELED] and never on a unit that does, and exactly one hook call
    is made for every registered unit. *)
Theorem sequential_run_calls (w0 : World) (fuel : nat) :
  graph_ok w0 -> one_object_per_id w0 -> closed_graph w0 -> acyclic w0 ->
  fresh w0 ->
  List.length (dict_keys (task_to_dependencies w0)) < fuel ->
  exists seen w',
    drive fuel ready_tasks w0 [] = (seen, Some StopIteration, w') /\
    forall k, In k (dict_keys (task_to_dependencies w0)) ->
      calls_of_execute k (trace w') =
        calls_of_execute k (trace w0)
        + (if status_eqb (status (obj w' k)) CANCELED then 0 else 1) /\
      calls_of_hooks k (trace w') = calls_of_hooks k (trace w0) + 1.
Proof.
  intros Hok Hone Hclosed Hacyc Hfresh Hfuel.
  destruct (sequential_run_core w0 fuel Hok Hone Hclosed Hacyc Hfresh Hfuel)
    as (seen & w' & E & Hinv & Hnp).
  pose proof (sequential_calls_core w0 fuel Hok Hone Hclosed Hacyc Hfresh)
    as Hcalls.
  rewrite E in Hcalls. cbn [snd] in Hcalls.
  exists seen, w'. split; [exact E|]. intros k Hk.
  destruct (Hcalls k Hk) as (C1 & C2). rewrite C1, C2.
  destruct (seq_inv_keys w0 Hfresh w' seen Hinv) as (Hdeps & _).
  assert (Hs : status (obj w' k) <> PENDING).
  { apply Hnp. now rewrite Hdeps. }
  destruct (si_status w0 w' seen Hinv k Hk) as [Q|Q]; [contradiction|].
  destruct (status (obj w' k)); simpl in *; try discriminate; tauto.
Qed.

Lemma sequential_run_calls_witness :
  exists seen w',
    drive 8 ready_tasks (seven_world 3) [] = (seen, Some StopIteration, w') /\
    forall k, In k (dict_keys (task_to_dependencies (seven_world 3))) ->
      calls_of_execute k (trace w') =
        calls_of_execute k (trace (seven_world 3))
        + (if status_eqb (status (obj w' k)) CANCELED then 0 else 1) /\
      calls_of_hooks k (trace w') =
        calls_of_hooks k (trace (seven_world 3)) + 1.
Proof.
  assert (Hok : graph_ok (seven_world 3))
    by (apply graph_okb_sound; vm_compute; reflexivity).
  destruct (passes_cycle_check_sound (seven_world 3) Hok) as (Ha & Hc);
    [vm_compute; reflexivity|].
  apply (sequential_run_calls (seven_world 3) 8); try assumption.
  - apply one_object_per_idb_sound. vm_compute. reflexivity.
  - apply freshb_sound. vm_compute. reflexivity.
  - vm_compute. lia.
Defined.

(** ** Executor: pools that cannot be used *)

(** X16. An executor built with [workers_per_tag <= 0] is accepted by the
    constructor; [run] raises the [ValueError] of the thread pool at the
    first unit the readiness sequence yields, whatever follows, with no
    pool stored and nothing submitted. On an empty sequence [run] ends as
    the sequence ended. *)
Theorem run_rejects_nonpositive_workers (n : Z) (yielded : list Task)
    (ending : option PyExc) :
  (n <= 0)%Z ->
  run yielded ending (new_executor n) =
  (new_executor n,
   match yielded with
   | [] => ending
   | _ :: _ => Some (ValueError "max_workers must be greater than 0")
   end).
Proof.
  intros Hn. unfold run. destruct yielded as [|t rest]; [reflexivity|].
  cbn [run_loop]. now rewrite (dispatch_nonpositive n t Hn).
Qed.

Lemma run_rejects_nonpositive_workers_witness :
  run [unit_a; unit_b] None (new_executor 0) =
  (new_executor 0, Some (ValueError "max_workers must be greater than 0")).
Proof.
  apply (run_rejects_nonpositive_workers 0 [unit_a; unit_b] None). lia.
Defined.

(** X17. An executor cannot be run twice: [run] ends by shutting every
    pool down and keeps the pools, so a later [run] that meets a unit with
    a tag of the first run raises the [RuntimeError] of [submit] on a pool
    that was shut down, and submits nothing. *)
Theorem run_after_run_raises (n : Z) (yielded : list Task)
    (ending : option PyExc) (u t : Task) (rest : list Task)
    (ending' : option PyExc) :
  (0 < n)%Z ->
  In u yielded -> tag u = tag t ->
  let ex := fst (run yielded ending (new_executor n)) in
  run (t :: rest) ending' ex =
  (shutdown true ex,
   Some (RuntimeError "cannot schedule new futures after shutdown")).
Proof.
  intros Hn Hu Ht.
  destruct (run_loop_pools n ending yielded Hn [] (new_executor n)
              (new_executor_pools n)) as (ex1 & Hr & _ & _ & Hp).
  cbn zeta.
  assert (E : run yielded ending (new_executor n) = (shutdown true ex1, ending))
    by (unfold run; now rewrite Hr).
  rewrite E. cbn [fst].
  specialize (Hp (tag t)). cbn [app] in Hp.
  destruct (pools_get (tag t) (tag_to_thread_pool ex1)) as [p|] eqn:G.
  - assert (G' : pools_get (tag t) (tag_to_thread_pool (shutdown true ex1))
                 = Some (pool_shutdown true p)).
    { unfold shutdown. simpl. now rewrite pools_get_shutdown, G. }
    unfold run. cbn [run_loop].
    rewrite (dispatch_after_shutdown t _ _ G'); [reflexivity|].
    unfold pool_shutdown. simpl. now destruct (shutdown_calls p).
  - exfalso. assert (Hin : In u (with_tag (tag t) yielded)).
    { apply filter_In. split; [assumption|]. now apply String.eqb_eq. }
    rewrite Hp in Hin. contradiction.
Qed.

Lemma run_after_run_raises_witness :
  run [unit_b] None (fst (run [unit_a; unit_b] None (new_executor 3))) =
  (shutdown true (fst (run [unit_a; unit_b] None (new_executor 3))),
   Some (RuntimeError "cannot schedule new futures after shutdown")).
Proof.
  apply (run_after_run_raises 3 [unit_a; unit_b] None unit_a unit_b [] None).
  - lia.
  - now left.
  - reflexivity.
Defined.

(** ** Cancelling a unit that has started *)

(** X18. The cancel flag is read once, at the entry of [execute_task]
    (line 56): a [cancel()] on the unit that comes after that test changes
    nothing of what the worker does. From any later program point the
    worker goes through the same statements and ends the same way, and the
    two worlds differ by nothing but the unit's own flag and the trace. *)
Theorem cancel_after_start_is_ignored (fuel : nat) (self : Task) (pc : Pc)
    (w : World) :
  pc <> AtEntry ->
  fst (worker_run fuel self pc (world_of (cancel self w))) =
    fst (worker_run fuel self pc w) /\
  differ_by_own_flag self
    (snd (worker_run fuel self pc w))
    (snd (worker_run fuel self pc (world_of (cancel self w)))).
Proof.
  intros Hpc. apply worker_run_differ; [exact Hpc|].
  apply differ_after_cancel.
Qed.

Lemma cancel_after_start_is_ignored_witness :
  fst (worker_run 10 unit_a AtExecute
         (world_of (cancel unit_a (started_world (Returns value_1))))) =
    Finished None /\
  status (obj (snd (worker_run 10 unit_a AtExecute
                      (world_of (cancel unit_a
                                   (started_world (Returns value_1))))))
              unit_a) = COMPLETED.
Proof.
  assert (Hpc : AtExecute <> AtEntry) by discriminate.
  destruct (cancel_after_start_is_ignored 10 unit_a AtExecute
              (started_world (Returns value_1)) Hpc) as (Hp & _ & _ & Hh).
  split.
  - rewrite Hp. vm_compute. reflexivity.
  - unfold obj. destruct (Hh (addr unit_a)) as (-> & _).
    vm_compute. reflexivity.
Defined.
